(** * EpidemicModel: a stochastic SEIR simulation with interventions

    A shallow embedding of [src/epimodel.py] (class [EpidemicModel]) and
    the properties of its specification.

    Modelling conventions.
    - A Python float ([beta], [sigma], [gamma], the intervention
      probabilities and the uniform draws) is represented by its value, a
      rational [Q]. Comparisons of floats are exact and so are those of the
      model. The three rounded operations of [sim] (a subtraction, a
      multiplication and a power) are taken from the platform, as the
      sampling functions are.
    - Population sizes, day counts and contact counts are [nat]; trigger
      days and thresholds, which the code tests for truthiness and compares
      with counts, are [Z]; recorded counts are [Z] (the day-0 susceptible
      count is the difference [N - init_exposed - init_infected]).
    - The numpy arrays [states], [vaccinated], [quarantined] are [list nat]
      holding the integer codes of the source.
    - The global numpy generator is an oracle, part of [Platform], read at
      a draw counter that is threaded through the code (a state monad);
      [rng_wf] is the contract numpy documents for the four sampling
      functions used, [float_ok] what binary64 arithmetic guarantees of the
      three float operations.
    - Exceptions are explicit: every operation that can raise returns a
      [result]. *)

From Stdlib Require Import ZArith QArith Qpower String Lia.
From Stdlib Require SpecFloat.
From stdpp Require Import base option list.

Local Open Scope string_scope.
Local Open Scope list_scope.

(** ** Exceptions *)

Inductive exn : Type :=
| ValueError (msg : string)
| TypeError
| IndexError.

Inductive result (A : Type) : Type :=
| Ok (a : A)
| Raise (e : exn).
Arguments Ok {A} a.
Arguments Raise {A} e.

Definition is_Ok {A} (r : result A) : bool :=
  match r with Ok _ => true | Raise _ => false end.

Definition is_ValueError {A} (r : result A) : bool :=
  match r with Raise (ValueError _) => true | _ => false end.

(** ** States and flags (module constants of the source) *)

Definition SUSCEPTIBLE : nat := 0.
Definition EXPOSED : nat := 1.
Definition INFECTIOUS : nat := 2.
Definition RECOVERED : nat := 3.

Definition QUARANTINED : nat := 1.
Definition VACCINATED : nat := 1.

(** ** Rational comparisons *)

Definition Qlt_bool (x y : Q) : bool := negb (Qle_bool y x).

(** [0 <= p <= 1] *)
Definition in_unit (p : Q) : bool := Qle_bool 0 p && Qle_bool p 1.

(** ** Array helpers (numpy idioms) *)

(** [np.sum(a == v)] *)
Fixpoint count_eq (v : nat) (l : list nat) : Z :=
  match l with
  | [] => 0%Z
  | x :: l' => ((if Nat.eqb x v then 1 else 0) + count_eq v l')%Z
  end.

(** [np.any(a == v)] *)
Definition any_eq (v : nat) (l : list nat) : bool :=
  existsb (fun x => Nat.eqb x v) l.

(** [np.where(a != v)[0]] *)
Fixpoint where_ne_from (i : nat) (v : nat) (l : list nat) : list nat :=
  match l with
  | [] => []
  | x :: l' =>
      if Nat.eqb x v then where_ne_from (S i) v l'
      else i :: where_ne_from (S i) v l'
  end.
Definition where_ne (v : nat) (l : list nat) : list nat := where_ne_from 0 v l.

(** [a[idx]] for an index array: IndexError when an index is out of range *)
Fixpoint take_at (a : list nat) (idx : list nat) : result (list nat) :=
  match idx with
  | [] => Ok []
  | i :: idx' =>
      match a !! i with
      | None => Raise IndexError
      | Some x =>
          match take_at a idx' with
          | Ok xs => Ok (x :: xs)
          | Raise e => Raise e
          end
      end
  end.

(** [a[idx] = v] for an index array *)
Fixpoint put_at (a : list nat) (idx : list nat) (v : nat) : result (list nat) :=
  match idx with
  | [] => Ok a
  | i :: idx' =>
      if Nat.ltb i (length a) then put_at (<[i:=v]> a) idx' v
      else Raise IndexError
  end.

(** [np.max] of a column *)
Definition np_max (l : list Z) : result Z :=
  match l with
  | [] => Raise (ValueError "zero-size array to reduction operation maximum which has no identity")
  | x :: l' => Ok (fold_left Z.max l' x)
  end.

(** Truthiness of an optional integer argument: [None] and [0] are falsy. *)
Definition truthy (o : option Z) : bool :=
  match o with
  | Some z => negb (Z.eqb z 0)
  | None => false
  end.

(** [x >= o] where [o] may still be [None] (a TypeError in Python 3) *)
Definition py_ge (x : Z) (o : option Z) : result bool :=
  match o with
  | Some y => Ok (Z.leb y x)
  | None => Raise TypeError
  end.

(** ** The model object *)

Record Quarantine : Type := {
  quarantine_enabled : bool;
  quarantine_enabled_day : bool;
  quarantine_enabled_threshold : bool;
  quarantine_prob : Q;
  quarantine_start : option Z;
  quarantine_threshold : option Z
}.

Record Vaccination : Type := {
  vaccination_enabled : bool;
  vaccine_start : option Z;
  vaccine_rate : Q
}.

Record Distancing : Type := {
  distancing_enabled : bool;
  distancing_start : option Z;
  distancing_threshold : option Z;
  reduced_contacts : option nat;
  distancing_enabled_day : bool;
  distancing_enabled_threshold : bool
}.

Record Masking : Type := {
  masking_enabled : bool;
  mask_start : option Z;
  mask_threshold : option Z;
  mask_effectiveness : Q;
  mask_enabled_day : bool;
  mask_enabled_threshold : bool
}.

(** The configuration part of [self]; the four groups of intervention
    attributes are kept in one record each. *)
Record EpidemicModel : Type := {
  N : nat;
  init_infected : nat;
  init_exposed : nat;
  days : nat;
  beta : Q;
  sigma : Q;
  gamma : Q;
  act_rate : nat;
  quarantine : Quarantine;
  vaccination : Vaccination;
  distancing : Distancing;
  masking : Masking
}.

Definition set_quarantine (m : EpidemicModel) (q : Quarantine) : EpidemicModel :=
  {| N := N m; init_infected := init_infected m; init_exposed := init_exposed m;
     days := days m; beta := beta m; sigma := sigma m; gamma := gamma m;
     act_rate := act_rate m; quarantine := q; vaccination := vaccination m;
     distancing := distancing m; masking := masking m |}.

Definition set_vaccination (m : EpidemicModel) (v : Vaccination) : EpidemicModel :=
  {| N := N m; init_infected := init_infected m; init_exposed := init_exposed m;
     days := days m; beta := beta m; sigma := sigma m; gamma := gamma m;
     act_rate := act_rate m; quarantine := quarantine m; vaccination := v;
     distancing := distancing m; masking := masking m |}.

Definition set_distancing (m : EpidemicModel) (d : Distancing) : EpidemicModel :=
  {| N := N m; init_infected := init_infected m; init_exposed := init_exposed m;
     days := days m; beta := beta m; sigma := sigma m; gamma := gamma m;
     act_rate := act_rate m; quarantine := quarantine m; vaccination := vaccination m;
     distancing := d; masking := masking m |}.

Definition set_masking (m : EpidemicModel) (k : Masking) : EpidemicModel :=
  {| N := N m; init_infected := init_infected m; init_exposed := init_exposed m;
     days := days m; beta := beta m; sigma := sigma m; gamma := gamma m;
     act_rate := act_rate m; quarantine := quarantine m; vaccination := vaccination m;
     distancing := distancing m; masking := k |}.

(** [EpidemicModel.__init__]: the intervention attributes start disabled. *)
Definition init (N init_infected init_exposed days : nat) (beta sigma gamma : Q)
    (act_rate : nat) : EpidemicModel :=
  {| N := N; init_infected := init_infected; init_exposed := init_exposed;
     days := days; beta := beta; sigma := sigma; gamma := gamma;
     act_rate := act_rate;
     quarantine :=
       {| quarantine_enabled := false; quarantine_enabled_day := false;
          quarantine_enabled_threshold := false; quarantine_prob := 0;
          quarantine_start := None; quarantine_threshold := None |};
     vaccination :=
       {| vaccination_enabled := false; vaccine_start := None; vaccine_rate := 0 |};
     distancing :=
       {| distancing_enabled := false; distancing_start := None;
          distancing_threshold := None; reduced_contacts := None;
          distancing_enabled_day := false; distancing_enabled_threshold := false |};
     masking :=
       {| masking_enabled := false; mask_start := None; mask_threshold := None;
          mask_effectiveness := 0; mask_enabled_day := false;
          mask_enabled_threshold := false |} |}.

(** ** Intervention configuration *)

(** [apply_quarantine(q_prob, quarantine_day=None, quarantine_threshold=None)] *)
Definition apply_quarantine (m : EpidemicModel) (q_prob : Q)
    (q_day q_threshold : option Z) : result EpidemicModel :=
  let q := quarantine m in
  if negb (in_unit q_prob) then
    Raise (ValueError "Quarantine probability must be between 0 and 1.")
  else if truthy q_day && truthy q_threshold then
    Raise (ValueError "Both trigger_day and trigger_infectious cannot be set at the same time.")
  else if truthy q_day then
    Ok (set_quarantine m
          {| quarantine_enabled := true; quarantine_enabled_day := true;
             quarantine_enabled_threshold := quarantine_enabled_threshold q;
             quarantine_prob := q_prob; quarantine_start := q_day;
             quarantine_threshold := quarantine_threshold q |})
  else if truthy q_threshold then
    Ok (set_quarantine m
          {| quarantine_enabled := true;
             quarantine_enabled_day := quarantine_enabled_day q;
             quarantine_enabled_threshold := true;
             quarantine_prob := q_prob; quarantine_start := quarantine_start q;
             quarantine_threshold := q_threshold |})
  else
    Ok (set_quarantine m
          {| quarantine_enabled := true;
             quarantine_enabled_day := quarantine_enabled_day q;
             quarantine_enabled_threshold := quarantine_enabled_threshold q;
             quarantine_prob := quarantine_prob q;
             quarantine_start := quarantine_start q;
             quarantine_threshold := quarantine_threshold q |}).

(** [apply_vaccination(v_rate, vaccination_day=None, begin_vaccine_development=None)] *)
Definition apply_vaccination (m : EpidemicModel) (v_rate : Q)
    (vaccination_day begin_vaccine_development : option Z) : result EpidemicModel :=
  if negb (in_unit v_rate) then
    Raise (ValueError "Vaccination rate must be between 0 and 1.")
  else if truthy vaccination_day then
    let start :=
      if truthy begin_vaccine_development then
        match vaccination_day, begin_vaccine_development with
        | Some d, Some b => Some (d + b)%Z
        | _, _ => vaccination_day
        end
      else vaccination_day in
    Ok (set_vaccination m
          {| vaccination_enabled := true; vaccine_start := start;
             vaccine_rate := v_rate |})
  else if truthy begin_vaccine_development && negb (truthy vaccination_day) then
    Raise (ValueError "Vaccination day must be set if vaccine development time is specified.")
  else Ok m.

(** [apply_masking(mask_effectiveness, mask_day=None, mask_threshold=None)] *)
Definition apply_masking (m : EpidemicModel) (effectiveness : Q)
    (mask_day mask_thr : option Z) : result EpidemicModel :=
  let k := masking m in
  if negb (in_unit effectiveness) then
    Raise (ValueError "Mask effectiveness must be between 0 and 1.")
  else if truthy mask_day && truthy mask_thr then
    Raise (ValueError "Cannot set both mask_day and mask_threshold at the same time.")
  else if truthy mask_day then
    Ok (set_masking m
          {| masking_enabled := true; mask_start := mask_day;
             mask_threshold := mask_threshold k;
             mask_effectiveness := effectiveness; mask_enabled_day := true;
             mask_enabled_threshold := mask_enabled_threshold k |})
  else if truthy mask_thr then
    Ok (set_masking m
          {| masking_enabled := true; mask_start := mask_start k;
             mask_threshold := mask_thr;
             mask_effectiveness := effectiveness;
             mask_enabled_day := mask_enabled_day k;
             mask_enabled_threshold := true |})
  else
    Ok (set_masking m
          {| masking_enabled := true; mask_start := mask_start k;
             mask_threshold := mask_threshold k;
             mask_effectiveness := mask_effectiveness k;
             mask_enabled_day := mask_enabled_day k;
             mask_enabled_threshold := mask_enabled_threshold k |}).

(** [apply_distancing(reduced_contacts, distancing_day=None, distancing_threshold=None)] *)
Definition apply_distancing (m : EpidemicModel) (reduced : nat)
    (distancing_day distancing_thr : option Z) : result EpidemicModel :=
  let d := distancing m in
  if negb (Nat.ltb 0 reduced && Nat.ltb reduced (act_rate m)) then
    Raise (ValueError "Reduced contacts must be between 0 and the original activity rate.")
  else if truthy distancing_day && truthy distancing_thr then
    Raise (ValueError "Cannot set both distancing_day and distancing_threshold at the same time.")
  else if truthy distancing_day then
    Ok (set_distancing m
          {| distancing_enabled := true; distancing_start := distancing_day;
             distancing_threshold := distancing_threshold d;
             reduced_contacts := Some reduced; distancing_enabled_day := true;
             distancing_enabled_threshold := distancing_enabled_threshold d |})
  else if truthy distancing_thr then
    Ok (set_distancing m
          {| distancing_enabled := true; distancing_start := distancing_start d;
             distancing_threshold := distancing_thr;
             reduced_contacts := Some reduced;
             distancing_enabled_day := distancing_enabled_day d;
             distancing_enabled_threshold := true |})
  else
    Ok (set_distancing m
          {| distancing_enabled := true; distancing_start := distancing_start d;
             distancing_threshold := distancing_threshold d;
             reduced_contacts := reduced_contacts d;
             distancing_enabled_day := distancing_enabled_day d;
             distancing_enabled_threshold := distancing_enabled_threshold d |}).

(** ** The platform *)

(** What a run takes from the platform. The four numpy sampling functions
    the simulation calls, each read at a draw counter: [rand t] is
    [np.random.rand()], [choice t a size] is
    [np.random.choice(a, size, replace=False)], [binomial t n p] is
    [np.random.binomial(n, p)] and [shuffle t a] the array after
    [np.random.shuffle(a)]. The three operations on floats that [sim]
    rounds: [fsub x y] is the float [x - y], [fmul x y] the float [x * y]
    and [fpow x k] the float [x ** k] for an integer [k]. *)
Record Platform : Type := {
  rand : nat -> Q;
  choice : nat -> list nat -> nat -> list nat;
  binomial : nat -> nat -> Q -> nat;
  shuffle : nat -> list nat -> list nat;
  fsub : Q -> Q -> Q;
  fmul : Q -> Q -> Q;
  fpow : Q -> Z -> Q
}.

(** What numpy guarantees of them: uniform draws lie in [0, 1); a sample
    without replacement of size [k] is the first [k] entries of a
    permutation of the pool; a binomial draw is at most [n], and is [n] when
    [p = 1]; a shuffle permutes. *)
Record rng_wf (g : Platform) : Prop := {
  rand_range : forall t, (0 <= rand g t)%Q /\ (rand g t < 1)%Q;
  choice_sample : forall t pool k, k <= length pool ->
    length (choice g t pool k) = k /\
    exists rest, Permutation (choice g t pool k ++ rest) pool;
  binomial_le : forall t n p, binomial g t n p <= n;
  binomial_one : forall t n p, (p == 1)%Q -> binomial g t n p = n;
  shuffle_perm : forall t l, Permutation (shuffle g t l) l
}.

(** What binary64 arithmetic guarantees of the three operations, on the
    values [sim] applies them to. Rounding is monotone and leaves 0 and 1 as
    they are: [1 - x] is 1 at 0, 0 at 1 and stays in [0, 1] there; a product
    with a factor in [0, 1] does not grow; a power of 1 is 1, a power with
    exponent 0 is 1, and a power of a base in [0, 1] with an exponent that
    is not negative stays in [0, 1]. *)
Record float_ok (g : Platform) : Prop := {
  fsub_1_0 : forall x, (x == 0)%Q -> (fsub g 1 x == 1)%Q;
  fsub_1_1 : forall x, (x == 1)%Q -> (fsub g 1 x == 0)%Q;
  fsub_unit : forall x, (0 <= x <= 1)%Q -> (0 <= fsub g 1 x <= 1)%Q;
  fmul_0 : forall x y, (x == 0)%Q -> (fmul g x y == 0)%Q;
  fmul_unit : forall x y, (0 <= x)%Q -> (0 <= y <= 1)%Q ->
    (0 <= fmul g x y <= x)%Q;
  fpow_0 : forall x, (fpow g x 0 == 1)%Q;
  fpow_1 : forall x k, (x == 1)%Q -> (fpow g x k == 1)%Q;
  fpow_unit : forall x k, (0 <= x <= 1)%Q -> (0 <= k)%Z ->
    (0 <= fpow g x k <= 1)%Q
}.

(** The platform computes the three operations without rounding. *)
Definition exact_arithmetic (g : Platform) : Prop :=
  fsub g = Qminus /\ fmul g = Qmult /\ fpow g = Qpower.

(** Computations that draw random numbers and may raise: the draw counter is
    the state. *)
Definition M (A : Type) : Type := nat -> result (A * nat).

Definition ret {A} (a : A) : M A := fun t => Ok (a, t).

Definition bind {A B} (c : M A) (k : A -> M B) : M B :=
  fun t => match c t with
           | Ok (a, t') => k a t'
           | Raise e => Raise e
           end.

Definition lift {A} (r : result A) : M A :=
  fun t => match r with
           | Ok a => Ok (a, t)
           | Raise e => Raise e
           end.

Notation "'let*' x ':=' c 'in' k" := (bind c (fun x => k))
  (at level 10, x name, c at level 100, k at level 200).

(** ** Recorded data *)

(** [self.history]: a dict of seven columns. *)
Record History : Type := {
  h_S : list Z;
  h_E : list Z;
  h_I : list Z;
  h_R : list Z;
  h_Q : list Z;
  h_V : list Z;
  h_infected : list Z
}.

(** [self.totals] *)
Record Totals : Type := {
  t_S : Z;
  t_E : Z;
  t_I : Z;
  t_R : Z;
  t_V : Z;
  t_Q : Z;
  t_max_infected : Z;
  t_max_exposed : Z;
  t_max_quarantined : Z;
  t_max_vaccinated : Z;
  t_infected : Z
}.

(** [totals[key] += n] for the keys the day loop touches *)
Definition add_V (n : Z) (t : Totals) : Totals :=
  {| t_S := t_S t; t_E := t_E t; t_I := t_I t; t_R := t_R t;
     t_V := (t_V t + n)%Z; t_Q := t_Q t;
     t_max_infected := t_max_infected t; t_max_exposed := t_max_exposed t;
     t_max_quarantined := t_max_quarantined t;
     t_max_vaccinated := t_max_vaccinated t; t_infected := t_infected t |}.

Definition add_E_infected (t : Totals) : Totals :=
  {| t_S := t_S t; t_E := (t_E t + 1)%Z; t_I := t_I t; t_R := t_R t;
     t_V := t_V t; t_Q := t_Q t;
     t_max_infected := t_max_infected t; t_max_exposed := t_max_exposed t;
     t_max_quarantined := t_max_quarantined t;
     t_max_vaccinated := t_max_vaccinated t;
     t_infected := (t_infected t + 1)%Z |}.

Definition add_I (t : Totals) : Totals :=
  {| t_S := t_S t; t_E := t_E t; t_I := (t_I t + 1)%Z; t_R := t_R t;
     t_V := t_V t; t_Q := t_Q t;
     t_max_infected := t_max_infected t; t_max_exposed := t_max_exposed t;
     t_max_quarantined := t_max_quarantined t;
     t_max_vaccinated := t_max_vaccinated t; t_infected := t_infected t |}.

Definition add_R (t : Totals) : Totals :=
  {| t_S := t_S t; t_E := t_E t; t_I := t_I t; t_R := (t_R t + 1)%Z;
     t_V := t_V t; t_Q := t_Q t;
     t_max_infected := t_max_infected t; t_max_exposed := t_max_exposed t;
     t_max_quarantined := t_max_quarantined t;
     t_max_vaccinated := t_max_vaccinated t; t_infected := t_infected t |}.

Definition add_Q (t : Totals) : Totals :=
  {| t_S := t_S t; t_E := t_E t; t_I := t_I t; t_R := t_R t;
     t_V := t_V t; t_Q := (t_Q t + 1)%Z;
     t_max_infected := t_max_infected t; t_max_exposed := t_max_exposed t;
     t_max_quarantined := t_max_quarantined t;
     t_max_vaccinated := t_max_vaccinated t; t_infected := t_infected t |}.

(** The mutable part of [self] while [sim] runs. *)
Record Sim : Type := {
  states : list nat;
  vaccinated : list nat;
  quarantined : list nat;
  history : History;
  totals : Totals
}.

(** The buffers one pass of the per-agent loop writes: [new_states],
    [new_quarantined] and the running totals. *)
Record DayAcc : Type := {
  new_states : list nat;
  new_quarantined : list nat;
  acc_totals : Totals
}.

(** One row of [history_df]: [(Day, S, E, I, R, Q, V, infected)] *)
Record Row : Type := {
  r_Day : Z;
  r_S : Z;
  r_E : Z;
  r_I : Z;
  r_R : Z;
  r_Q : Z;
  r_V : Z;
  r_infected : Z
}.

(** ** Trigger evaluation *)

(** [(enabled_day and day >= start) or
     (enabled_threshold and np.sum(states == INFECTIOUS) >= threshold)] *)
Definition triggered (enabled_day : bool) (start : option Z)
    (enabled_threshold : bool) (threshold : option Z)
    (day : nat) (sts : list nat) : result bool :=
  match (if enabled_day then py_ge (Z.of_nat day) start else Ok false) with
  | Raise e => Raise e
  | Ok true => Ok true
  | Ok false =>
      if enabled_threshold then py_ge (count_eq INFECTIOUS sts) threshold
      else Ok false
  end.

(** Whether distancing applies on this day: [distancing_enabled] and the
    trigger test. *)
Definition distancing_active (m : EpidemicModel) (day : nat) (sts : list nat)
    : result bool :=
  let d := distancing m in
  if distancing_enabled d then
    triggered (distancing_enabled_day d) (distancing_start d)
      (distancing_enabled_threshold d) (distancing_threshold d) day sts
  else Ok false.

(** The contact count of the day. A [reduced_contacts] still [None] makes
    [np.random.choice] return a single contact. *)
Definition current_contacts (m : EpidemicModel) (day : nat) (sts : list nat)
    : result nat :=
  match distancing_active m day sts with
  | Raise e => Raise e
  | Ok true =>
      Ok (match reduced_contacts (distancing m) with Some c => c | None => 1 end)
  | Ok false => Ok (act_rate m)
  end.

(** Whether masking applies on this day: [masking_enabled] and the trigger
    test. *)
Definition masking_active (m : EpidemicModel) (day : nat) (sts : list nat)
    : result bool :=
  let k := masking m in
  if masking_enabled k then
    triggered (mask_enabled_day k) (mask_start k)
      (mask_enabled_threshold k) (mask_threshold k) day sts
  else Ok false.

(** The transmission probability of the day:
    [self.beta * (1 - self.mask_effectiveness)] or [self.beta]. *)
Definition current_beta (g : Platform) (m : EpidemicModel) (day : nat)
    (sts : list nat) : result Q :=
  match masking_active m day sts with
  | Raise e => Raise e
  | Ok true => Ok (fmul g (beta m) (fsub g 1 (mask_effectiveness (masking m))))
  | Ok false => Ok (beta m)
  end.

(** Whether an infectious agent that does not recover is considered for
    quarantine on this day: [quarantine_enabled] and the trigger test. *)
Definition quarantine_active (m : EpidemicModel) (day : nat) (sts : list nat)
    : result bool :=
  let q := quarantine m in
  if quarantine_enabled q then
    triggered (quarantine_enabled_day q) (quarantine_start q)
      (quarantine_enabled_threshold q) (quarantine_threshold q) day sts
  else Ok false.

(** ** The simulation *)

Section Simulation.

Variable g : Platform.

Definition np_rand : M Q := fun t => Ok (rand g t, S t).

Definition np_choice (pool : list nat) (size : nat) : M (list nat) :=
  fun t =>
    if Nat.leb size (length pool) then Ok (choice g t pool size, S t)
    else Raise (ValueError "Cannot take a larger sample than population when 'replace=False'").

Definition np_binomial (n : nat) (p : Q) : M nat :=
  fun t =>
    if in_unit p then Ok (binomial g t n p, S t)
    else Raise (ValueError "p < 0, p > 1 or p is NaN").

Definition np_shuffle (a : list nat) : M (list nat) :=
  fun t => Ok (shuffle g t a, S t).

(** The population before the shuffle: [np.full(N, SUSCEPTIBLE)] with the
    slices [[:init_exposed]] and [[init_exposed : init_exposed + init_infected]]
    overwritten (slices are clipped to the array). *)
Definition initial_block (m : EpidemicModel) : list nat :=
  map (fun k =>
         if Nat.ltb k (init_exposed m) then EXPOSED
         else if Nat.ltb k (init_exposed m + init_infected m) then INFECTIOUS
         else SUSCEPTIBLE)
      (seq 0 (N m)).

(** The first part of [sim]: history and totals are reinitialised from the
    parameters, the population is rebuilt and shuffled, the flags zeroed. *)
Definition sim_init (m : EpidemicModel) : M Sim :=
  let s0 := (Z.of_nat (N m) - Z.of_nat (init_exposed m) - Z.of_nat (init_infected m))%Z in
  let e0 := Z.of_nat (init_exposed m) in
  let i0 := Z.of_nat (init_infected m) in
  let* sts := np_shuffle (initial_block m) in
  ret {| states := sts;
         vaccinated := replicate (N m) 0;
         quarantined := replicate (N m) 0;
         history :=
           {| h_S := [s0]; h_E := [e0]; h_I := [i0]; h_R := [0%Z];
              h_Q := [0%Z]; h_V := [0%Z]; h_infected := [(e0 + i0)%Z] |};
         totals :=
           {| t_S := s0; t_E := e0; t_I := i0; t_R := 0; t_V := 0; t_Q := 0;
              t_max_infected := i0; t_max_exposed := e0;
              t_max_quarantined := 0; t_max_vaccinated := 0;
              t_infected := 0 |} |}.

(** The vaccination module of a day: returns [new_vaccinated] and the
    totals. *)
Definition vaccination_module (m : EpidemicModel) (day : nat) (self : Sim)
    : M (list nat * Totals) :=
  let v := vaccination m in
  let new_vaccinated := vaccinated self in
  if vaccination_enabled v then
    let* started := lift (py_ge (Z.of_nat day) (vaccine_start v)) in
    if started then
      let non_vaccinated_indices := where_ne VACCINATED (vaccinated self) in
      if Nat.ltb 0 (length non_vaccinated_indices) then
        let* num_vaccinated :=
          np_binomial (length non_vaccinated_indices) (vaccine_rate v) in
        if Nat.ltb 0 num_vaccinated then
          let* chosen := np_choice non_vaccinated_indices num_vaccinated in
          let* nv := lift (put_at new_vaccinated chosen VACCINATED) in
          ret (nv, add_V (Z.of_nat num_vaccinated) (totals self))
        else ret (new_vaccinated, totals self)
      else ret (new_vaccinated, totals self)
    else ret (new_vaccinated, totals self)
  else ret (new_vaccinated, totals self).

(** The body of the per-agent loop for agent [i] in state [state]. It reads
    the arrays of [self] (the state at the start of the day) and writes the
    buffers of [acc]. The exponent [k] is an integer difference; it is never
    negative in a run ([exponent_is_transmitting] below). *)
Definition update_agent (m : EpidemicModel) (day : nat) (self : Sim)
    (contacts_today : nat) (beta_today : Q)
    (i : nat) (state : nat) (acc : DayAcc) : M DayAcc :=
  if Nat.eqb state SUSCEPTIBLE then
    let* contacts := np_choice (seq 0 (N m)) contacts_today in
    let* contact_states := lift (take_at (states self) contacts) in
    if any_eq INFECTIOUS contact_states then
      let* u := np_rand in
      let* contact_flags := lift (take_at (quarantined self) contacts) in
      let k := (count_eq INFECTIOUS contact_states
                - count_eq QUARANTINED contact_flags)%Z in
      if Qlt_bool u (fsub g 1 (fpow g (fsub g 1 beta_today) k)) then
        ret {| new_states := <[i:=EXPOSED]> (new_states acc);
               new_quarantined := new_quarantined acc;
               acc_totals := add_E_infected (acc_totals acc) |}
      else ret acc
    else ret acc
  else if Nat.eqb state EXPOSED then
    let* u := np_rand in
    if Qlt_bool u (sigma m) then
      ret {| new_states := <[i:=INFECTIOUS]> (new_states acc);
             new_quarantined := new_quarantined acc;
             acc_totals := add_I (acc_totals acc) |}
    else ret acc
  else if Nat.eqb state INFECTIOUS then
    let* u := np_rand in
    if Qlt_bool u (gamma m) then
      ret {| new_states := <[i:=RECOVERED]> (new_states acc);
             new_quarantined := <[i:=0]> (new_quarantined acc);
             acc_totals := add_R (acc_totals acc) |}
    else
      let* active := lift (quarantine_active m day (states self)) in
      if active then
        let* u2 := np_rand in
        if Qlt_bool u2 (quarantine_prob (quarantine m)) then
          ret {| new_states := new_states acc;
                 new_quarantined := <[i:=QUARANTINED]> (new_quarantined acc);
                 acc_totals := add_Q (acc_totals acc) |}
        else ret acc
      else ret acc
  else ret acc.

(** [for i, state in enumerate(self.states)], from index [i] on *)
Fixpoint agents_loop (m : EpidemicModel) (day : nat) (self : Sim)
    (contacts_today : nat) (beta_today : Q)
    (i : nat) (sts : list nat) (acc : DayAcc) : M DayAcc :=
  match sts with
  | [] => ret acc
  | state :: rest =>
      let* acc' := update_agent m day self contacts_today beta_today i state acc in
      agents_loop m day self contacts_today beta_today (S i) rest acc'
  end.

(** The row the counts of a day make. *)
Definition row_of_counts (day : Z) (sts vac qua : list nat) : Row :=
  {| r_Day := day;
     r_S := count_eq SUSCEPTIBLE sts;
     r_E := count_eq EXPOSED sts;
     r_I := count_eq INFECTIOUS sts;
     r_R := count_eq RECOVERED sts;
     r_Q := count_eq QUARANTINED qua;
     r_V := count_eq VACCINATED vac;
     r_infected := (count_eq INFECTIOUS sts + count_eq EXPOSED sts)%Z |}.

(** The columns after the counts of a day have been appended. *)
Definition record_day (h : History) (sts vac qua : list nat) : History :=
  {| h_S := h_S h ++ [count_eq SUSCEPTIBLE sts];
     h_E := h_E h ++ [count_eq EXPOSED sts];
     h_I := h_I h ++ [count_eq INFECTIOUS sts];
     h_R := h_R h ++ [count_eq RECOVERED sts];
     h_Q := h_Q h ++ [count_eq QUARANTINED qua];
     h_V := h_V h ++ [count_eq VACCINATED vac];
     h_infected := h_infected h ++ [(count_eq INFECTIOUS sts + count_eq EXPOSED sts)%Z] |}.

(** One iteration of [for day in range(self.days)]. *)
Definition sim_day (m : EpidemicModel) (day : nat) (self : Sim) : M Sim :=
  let* contacts_today := lift (current_contacts m day (states self)) in
  let* beta_today := lift (current_beta g m day (states self)) in
  let* vt := vaccination_module m day self in
  let* acc :=
    agents_loop m day self contacts_today beta_today 0 (states self)
      {| new_states := states self;
         new_quarantined := quarantined self;
         acc_totals := snd vt |} in
  ret {| states := new_states acc;
         vaccinated := fst vt;
         quarantined := new_quarantined acc;
         history := record_day (history self) (new_states acc) (fst vt)
                      (new_quarantined acc);
         totals := acc_totals acc |}.

(** The day loop over a list of day indices. *)
Fixpoint day_loop (m : EpidemicModel) (ds : list nat) (self : Sim) : M Sim :=
  match ds with
  | [] => ret self
  | day :: ds' =>
      let* self' := sim_day m day self in
      day_loop m ds' self'
  end.

(** [self] after the setup and the first [d] iterations of the day loop. *)
Definition sim_upto (m : EpidemicModel) (d : nat) : M Sim :=
  let* self := sim_init m in
  day_loop m (seq 0 d) self.

(** [pd.DataFrame(self.history)] with the [Day] column [np.arange(start, ...)]:
    the rows of seven columns of equal length. *)
Fixpoint rows_from (day : Z) (cS cE cI cR cQ cV cinf : list Z) : list Row :=
  match cS, cE, cI, cR, cQ, cV, cinf with
  | s :: cS', e :: cE', i :: cI', r :: cR', q :: cQ', v :: cV', f :: cinf' =>
      {| r_Day := day; r_S := s; r_E := e; r_I := i; r_R := r; r_Q := q;
         r_V := v; r_infected := f |}
      :: rows_from (day + 1) cS' cE' cI' cR' cQ' cV' cinf'
  | _, _, _, _, _, _, _ => []
  end.

Definition rows_of (h : History) : list Row :=
  rows_from 0 (h_S h) (h_E h) (h_I h) (h_R h) (h_Q h) (h_V h) (h_infected h).

Definition same_lengths (h : History) : bool :=
  Nat.eqb (length (h_E h)) (length (h_S h))
  && Nat.eqb (length (h_I h)) (length (h_S h))
  && Nat.eqb (length (h_R h)) (length (h_S h))
  && Nat.eqb (length (h_Q h)) (length (h_S h))
  && Nat.eqb (length (h_V h)) (length (h_S h))
  && Nat.eqb (length (h_infected h)) (length (h_S h)).

(** The data frame of the history: the constructor rejects columns of
    different lengths, and assigning the [Day] column [np.arange(days + 1)]
    rejects a length other than [days + 1]. *)
Definition history_df (m : EpidemicModel) (h : History) : result (list Row) :=
  if negb (same_lengths h) then
    Raise (ValueError "All arrays must be of the same length")
  else if negb (Nat.eqb (length (h_S h)) (days m + 1)) then
    Raise (ValueError "Length of values does not match length of index")
  else
    Ok (rows_of h).

(** The last part of [sim]: the four maxima are written into the totals. *)
Definition finalize (m : EpidemicModel) (self : Sim) : result (list Row * Totals) :=
  match history_df m (history self) with
  | Raise e => Raise e
  | Ok df =>
      match np_max (map r_infected df), np_max (map r_E df),
            np_max (map r_Q df), np_max (map r_V df) with
      | Ok mi, Ok me, Ok mq, Ok mv =>
          let t := totals self in
          Ok (df,
              {| t_S := t_S t; t_E := t_E t; t_I := t_I t; t_R := t_R t;
                 t_V := t_V t; t_Q := t_Q t;
                 t_max_infected := mi; t_max_exposed := me;
                 t_max_quarantined := mq; t_max_vaccinated := mv;
                 t_infected := t_infected t |})
      | Raise e, _, _, _ => Raise e
      | _, Raise e, _, _ => Raise e
      | _, _, Raise e, _ => Raise e
      | _, _, _, Raise e => Raise e
      end
  end.

(** [EpidemicModel.sim]: returns [(history_df, totals_df)]. *)
Definition sim (m : EpidemicModel) : M (list Row * Totals) :=
  let* self := sim_upto m (days m) in
  lift (finalize m self).

End Simulation.

(** ** Notions used by the properties *)

(** The moves of one agent in one day, on its state code and quarantine
    flag: nothing, exposure, onset, recovery (flag cleared), quarantine
    (flag set, state kept). *)
Inductive agent_trans : nat -> nat -> nat -> nat -> Prop :=
| trans_stay st q : agent_trans st q st q
| trans_expose q : agent_trans SUSCEPTIBLE q EXPOSED q
| trans_onset q : agent_trans EXPOSED q INFECTIOUS q
| trans_recover q : agent_trans INFECTIOUS q RECOVERED 0
| trans_quarantine q : agent_trans INFECTIOUS q INFECTIOUS QUARANTINED.

(** The first row of every history: fixed by the parameters. *)
Definition day0_row (m : EpidemicModel) : Row :=
  {| r_Day := 0;
     r_S := Z.of_nat (N m) - Z.of_nat (init_exposed m) - Z.of_nat (init_infected m);
     r_E := Z.of_nat (init_exposed m);
     r_I := Z.of_nat (init_infected m);
     r_R := 0; r_Q := 0; r_V := 0;
     r_infected := Z.of_nat (init_exposed m) + Z.of_nat (init_infected m) |}.

(** What holds of [self] after the setup and [d] iterations of the day
    loop. *)
Record run_inv (m : EpidemicModel) (d : nat) (s : Sim) : Prop := {
  inv_len_states : length (states s) = N m;
  inv_len_quarantined : length (quarantined s) = N m;
  inv_len_vaccinated : length (vaccinated s) = N m;
  inv_codes : Forall (fun x => x <= 3) (states s);
  inv_quarantined : forall i,
    quarantined s !! i = Some QUARANTINED -> states s !! i = Some INFECTIOUS;
  inv_same_lengths : same_lengths (history s) = true;
  inv_rows : length (h_S (history s)) = d + 1;
  inv_first : rows_of (history s) !! 0 = Some (day0_row m);
  inv_days : forall j r, rows_of (history s) !! j = Some r -> r_Day r = Z.of_nat j;
  inv_conserved : forall r, r ∈ rows_of (history s) ->
    (r_S r + r_E r + r_I r + r_R r = Z.of_nat (N m))%Z;
  inv_mono : forall j r1 r2,
    rows_of (history s) !! j = Some r1 ->
    rows_of (history s) !! (S j) = Some r2 ->
    (r_R r1 <= r_R r2)%Z /\ (r_V r1 <= r_V r2)%Z;
  inv_last : exists r,
    last (rows_of (history s)) = Some r /\
    (r_R r <= count_eq RECOVERED (states s))%Z /\
    (r_V r <= count_eq VACCINATED (vaccinated s))%Z;
  inv_t_S : t_S (totals s)
    = (Z.of_nat (N m) - Z.of_nat (init_exposed m) - Z.of_nat (init_infected m))%Z;
  inv_no_vaccination : vaccination_enabled (vaccination m) = false ->
    count_eq VACCINATED (vaccinated s) = 0%Z /\
    forall r, r ∈ rows_of (history s) -> r_V r = 0%Z
}.


(** Whether contact [j] can transmit: it is Infectious and its quarantine
    flag is not set. *)
Definition transmits (s : Sim) (j : nat) : bool :=
  match states s !! j, quarantined s !! j with
  | Some st, Some q => Nat.eqb st INFECTIOUS && negb (Nat.eqb q QUARANTINED)
  | _, _ => false
  end.

(** The number of sampled contacts that are Infectious and not quarantined. *)
Fixpoint transmitting (s : Sim) (contacts : list nat) : nat :=
  match contacts with
  | [] => 0
  | j :: rest => (if transmits s j then 1 else 0) + transmitting s rest
  end.

(** ** When an intervention is Active, in the words of the specification *)

(** The intervention has a day trigger and its start day has come. *)
Definition day_trigger_met (enabled_day : bool) (start : option Z)
    (day : nat) : Prop :=
  enabled_day = true /\ exists z, start = Some z /\ (z <= Z.of_nat day)%Z.

(** The intervention has a threshold trigger and the infectious count has
    reached the threshold. *)
Definition threshold_trigger_met (enabled_threshold : bool)
    (threshold : option Z) (sts : list nat) : Prop :=
  enabled_threshold = true /\
  exists z, threshold = Some z /\ (z <= count_eq INFECTIOUS sts)%Z.

(** Quarantine is Active on [day], the population being [sts] at the start
    of the day: it is enabled and one of its triggers is met. *)
Definition quarantine_is_active (m : EpidemicModel) (day : nat)
    (sts : list nat) : Prop :=
  quarantine_enabled (quarantine m) = true /\
  (day_trigger_met (quarantine_enabled_day (quarantine m))
     (quarantine_start (quarantine m)) day \/
   threshold_trigger_met (quarantine_enabled_threshold (quarantine m))
     (quarantine_threshold (quarantine m)) sts).

Definition masking_is_active (m : EpidemicModel) (day : nat)
    (sts : list nat) : Prop :=
  masking_enabled (masking m) = true /\
  (day_trigger_met (mask_enabled_day (masking m)) (mask_start (masking m)) day \/
   threshold_trigger_met (mask_enabled_threshold (masking m))
     (mask_threshold (masking m)) sts).

Definition distancing_is_active (m : EpidemicModel) (day : nat)
    (sts : list nat) : Prop :=
  distancing_enabled (distancing m) = true /\
  (day_trigger_met (distancing_enabled_day (distancing m))
     (distancing_start (distancing m)) day \/
   threshold_trigger_met (distancing_enabled_threshold (distancing m))
     (distancing_threshold (distancing m)) sts).

(** The number of outcomes [j / M], [j < M], of a uniform draw on a grid of
    [M] points that fall below [q]. *)
Definition outcomes_below (q : Q) (M : nat) : nat :=
  length (List.filter (fun j => Qlt_bool (Z.of_nat j # Pos.of_nat M) q) (seq 0 M)).

(** ** Well-configured models *)

Definition is_set {A} (o : option A) : bool :=
  match o with Some _ => true | None => false end.

(** An enabled trigger has its day or threshold stored. *)
Definition trigger_ok (enabled_day : bool) (start : option Z)
    (enabled_threshold : bool) (threshold : option Z) : bool :=
  implb enabled_day (is_set start) && implb enabled_threshold (is_set threshold).

(** What the constructor's documented preconditions and the configuration
    methods establish: contact counts do not exceed the population, the
    initial blocks fit, enabled triggers have their value, and the
    vaccination rate is a probability. *)
Definition model_ok (m : EpidemicModel) : bool :=
  Nat.leb (act_rate m) (N m)
  && Nat.leb (init_exposed m + init_infected m) (N m)
  && trigger_ok (quarantine_enabled_day (quarantine m)) (quarantine_start (quarantine m))
       (quarantine_enabled_threshold (quarantine m)) (quarantine_threshold (quarantine m))
  && trigger_ok (mask_enabled_day (masking m)) (mask_start (masking m))
       (mask_enabled_threshold (masking m)) (mask_threshold (masking m))
  && trigger_ok (distancing_enabled_day (distancing m)) (distancing_start (distancing m))
       (distancing_enabled_threshold (distancing m)) (distancing_threshold (distancing m))
  && match reduced_contacts (distancing m) with
     | Some c => Nat.leb c (N m)
     | None => negb (distancing_enabled_day (distancing m))
               && negb (distancing_enabled_threshold (distancing m))
     end
  && implb (vaccination_enabled (vaccination m)) (is_set (vaccine_start (vaccination m)))
  && in_unit (vaccine_rate (vaccination m)).

(** The models the interface builds within the preconditions the
    specification gives the constructor, which the constructor itself does
    not check: contact counts do not exceed the population and the initial
    blocks fit; then any configuration calls that return. The models built
    without these preconditions are [built], below. *)
Inductive configured : EpidemicModel -> Prop :=
| configured_init n ii ie dd b sg gm ar :
    ar <= n -> ie + ii <= n -> configured (init n ii ie dd b sg gm ar)
| configured_quarantine m q dy th m' :
    configured m -> apply_quarantine m q dy th = Ok m' -> configured m'
| configured_vaccination m r dy dev m' :
    configured m -> apply_vaccination m r dy dev = Ok m' -> configured m'
| configured_masking m e dy th m' :
    configured m -> apply_masking m e dy th = Ok m' -> configured m'
| configured_distancing m r dy th m' :
    configured m -> apply_distancing m r dy th = Ok m' -> configured m'.

(** Every model the interface builds: the constructor, which checks
    nothing, called with any arguments, then any configuration calls that
    return. *)
Inductive built : EpidemicModel -> Prop :=
| built_init n ii ie dd b sg gm ar : built (init n ii ie dd b sg gm ar)
| built_quarantine m q dy th m' :
    built m -> apply_quarantine m q dy th = Ok m' -> built m'
| built_vaccination m r dy dev m' :
    built m -> apply_vaccination m r dy dev = Ok m' -> built m'
| built_masking m e dy th m' :
    built m -> apply_masking m e dy th = Ok m' -> built m'
| built_distancing m r dy th m' :
    built m -> apply_distancing m r dy th = Ok m' -> built m'.

(** ** Sample inputs *)

(** A platform that meets the contracts: the uniform draws cycle through
    0, 1/4, 1/2, 3/4; a sample is a prefix of the pool or of its reverse; a
    binomial draw is all or nothing; a shuffle reverses; the arithmetic is
    exact. *)
Definition rng_demo : Platform :=
  {| rand := fun t => Z.of_nat (t mod 4) # 4;
     choice := fun t pool k => take k (if Nat.even t then pool else reverse pool);
     binomial := fun _ n p => if Qle_bool 1 p then n else 0;
     shuffle := fun _ l => reverse l;
     fsub := Qminus; fmul := Qmult; fpow := Qpower |}.

(** A platform whose uniform draws are all 0: every event of positive
    probability happens. The arithmetic is exact. *)
Definition rng_zero : Platform :=
  {| rand := fun _ => 0%Q;
     choice := fun _ pool k => take k pool;
     binomial := fun _ n p => if Qle_bool 1 p then n else 0;
     shuffle := fun _ l => l;
     fsub := Qminus; fmul := Qmult; fpow := Qpower |}.

(** The model a sequence of configuration calls leaves, [m] if one raises. *)
Definition or_else (r : result EpidemicModel) (m : EpidemicModel) : EpidemicModel :=
  match r with Ok m' => m' | Raise _ => m end.

(** Six agents, three days, all four interventions configured. *)
Definition demo_base : EpidemicModel :=
  init 6 2 1 3 (9 # 10) (1 # 2) (3 # 10) 3.

Definition demo : EpidemicModel :=
  let m1 := or_else (apply_quarantine demo_base 1 None (Some 1%Z)) demo_base in
  let m2 := or_else (apply_masking m1 (1 # 2) (Some 1%Z) None) m1 in
  let m3 := or_else (apply_vaccination m2 1 (Some 2%Z) None) m2 in
  or_else (apply_distancing m3 2 None (Some 2%Z)) m3.

(** Scenario A of the specification. *)
Definition scenario_A : EpidemicModel :=
  init 1000 5 0 0 (2 # 10) (1 # 10) (1 # 10) 5.

(** The run of [demo] under [rng_demo], from draw counter 0. *)
Definition demo_rows : list Row :=
  Eval vm_compute in
    match sim rng_demo demo 0 with
    | Ok (rows, _, _) => rows
    | Raise _ => []
    end.

Definition demo_totals : Totals :=
  Eval vm_compute in
    match sim rng_demo demo 0 with
    | Ok (_, tot, _) => tot
    | Raise _ =>
        {| t_S := 0; t_E := 0; t_I := 0; t_R := 0; t_V := 0; t_Q := 0;
           t_max_infected := 0; t_max_exposed := 0; t_max_quarantined := 0;
           t_max_vaccinated := 0; t_infected := 0 |}
    end.

(** [self] of that run after the setup and after the first day. *)
Definition empty_sim : Sim :=
  {| states := []; vaccinated := []; quarantined := [];
     history := {| h_S := []; h_E := []; h_I := []; h_R := []; h_Q := [];
                   h_V := []; h_infected := [] |};
     totals := {| t_S := 0; t_E := 0; t_I := 0; t_R := 0; t_V := 0; t_Q := 0;
                  t_max_infected := 0; t_max_exposed := 0;
                  t_max_quarantined := 0; t_max_vaccinated := 0;
                  t_infected := 0 |} |}.

Definition demo_day0 : Sim :=
  Eval vm_compute in
    match sim_upto rng_demo demo 0 0 with
    | Ok (s, _) => s
    | Raise _ => empty_sim
    end.

Definition demo_day1 : Sim :=
  Eval vm_compute in
    match sim_upto rng_demo demo 1 0 with
    | Ok (s, _) => s
    | Raise _ => empty_sim
    end.



(** Two agents, one day: the infectious one is met by the susceptible one,
    who is exposed with certainty. *)
Definition exposure_model : EpidemicModel := init 2 1 0 1 1 0 0 2.

(** Scenario D of the specification on ten agents: vaccination is asked for
    with rate 1 and day 0. *)
Definition scenario_D_base : EpidemicModel :=
  init 10 1 0 2 (1 # 2) (1 # 2) (1 # 2) 3.

Definition scenario_D : EpidemicModel :=
  or_else (apply_vaccination scenario_D_base 1 (Some 0%Z) None) scenario_D_base.

Definition scenario_D_rows : list Row :=
  Eval vm_compute in
    match sim rng_demo scenario_D 0 with
    | Ok (rows, _, _) => rows
    | Raise _ => []
    end.

(** Six agents, three days, no transmission ([beta = 0]). *)
Definition zero_beta_model : EpidemicModel :=
  init 6 1 0 3 0 (1 # 2) (1 # 2) 2.

(** The sibling of Scenario D with the start day 1. *)
Definition scenario_D1 : EpidemicModel :=
  or_else (apply_vaccination scenario_D_base 1 (Some 1%Z) None) scenario_D_base.

(** ** Notions used by the further properties *)

(** One agent's move of a day together with the total it adds to: exposure
    adds to [E] and [infected], onset to [I], recovery to [R], and a
    quarantine draw that succeeds to [Q]. *)
Inductive agent_step : nat -> nat -> Totals -> nat -> nat -> Totals -> Prop :=
| step_stay st q tot : agent_step st q tot st q tot
| step_expose q tot :
    agent_step SUSCEPTIBLE q tot EXPOSED q (add_E_infected tot)
| step_onset q tot : agent_step EXPOSED q tot INFECTIOUS q (add_I tot)
| step_recover q tot : agent_step INFECTIOUS q tot RECOVERED 0 (add_R tot)
| step_quarantine q tot :
    agent_step INFECTIOUS q tot INFECTIOUS QUARANTINED (add_Q tot).

(** The initial blocks fit the population. *)
Definition blocks_fit (m : EpidemicModel) : Prop :=
  init_exposed m + init_infected m <= N m.

(** The running totals account for the population: every compartment count
    is the inflow minus the outflow the totals have recorded. *)
Definition balanced (m : EpidemicModel) (sts : list nat) (tot : Totals) : Prop :=
  count_eq RECOVERED sts = t_R tot /\
  count_eq INFECTIOUS sts = (t_I tot - t_R tot)%Z /\
  count_eq EXPOSED sts = (t_E tot - t_I tot + Z.of_nat (init_infected m))%Z /\
  count_eq SUSCEPTIBLE sts = (t_S tot - t_infected tot)%Z /\
  t_E tot = (Z.of_nat (init_exposed m) + t_infected tot)%Z.

(** No quarantine trigger is in force: quarantine is disabled, or enabled
    without a day and without a threshold. *)
Definition no_quarantine_trigger (m : EpidemicModel) : Prop :=
  quarantine_enabled (quarantine m) = false \/
  (quarantine_enabled_day (quarantine m) = false /\
   quarantine_enabled_threshold (quarantine m) = false).

(** The magnitudes the configuration methods validate. *)
Definition magnitudes_ok (m : EpidemicModel) : Prop :=
  in_unit (quarantine_prob (quarantine m)) = true /\
  in_unit (vaccine_rate (vaccination m)) = true /\
  in_unit (mask_effectiveness (masking m)) = true /\
  forall c, reduced_contacts (distancing m) = Some c -> 0 < c < act_rate m.

(** Two configuration calls in a row: the second is made when the first
    returns. *)
Definition and_then (r : result EpidemicModel)
    (f : EpidemicModel -> result EpidemicModel) : result EpidemicModel :=
  match r with
  | Ok m => f m
  | Raise e => Raise e
  end.

(** The model a configuration leaves, when it raises nothing. *)
Definition configured_model (r : result EpidemicModel) : option EpidemicModel :=
  match r with
  | Ok m => Some m
  | Raise _ => None
  end.

(** * Saving a run *)

(** ** The data frames an instance holds *)

(** The attributes [save_to_db] reads from [self]. [__init__] does not
    assign [history_df] and [totals_df]; [sim] assigns both at its end.
    [totals_df] is a frame like [history_df]: a list of rows. *)
Record Instance : Type := {
  self_model : EpidemicModel;
  self_history_df : option (list Row);
  self_totals_df : option (list Totals)
}.

Definition new_instance (m : EpidemicModel) : Instance :=
  {| self_model := m; self_history_df := None; self_totals_df := None |}.

(** A call of one of the [apply_*] methods: only configuration attributes
    change. *)
Definition with_model (self : Instance) (m : EpidemicModel) : Instance :=
  {| self_model := m; self_history_df := self_history_df self;
     self_totals_df := self_totals_df self |}.

(** [self.sim()] on an instance: [pd.DataFrame(self.totals, index=[0])] is
    a frame of one row. A run that raises assigns neither attribute. *)
Definition run_sim (g : Platform) (self : Instance) (t : nat)
    : result (Instance * nat) :=
  match sim g (self_model self) t with
  | Ok (df, tot, t') =>
      Ok ({| self_model := self_model self; self_history_df := Some df;
             self_totals_df := Some [tot] |}, t')
  | Raise e => Raise e
  end.

(** [DataFrame.empty] of a frame with columns: it has no row. *)
Definition df_empty {A} (df : list A) : bool :=
  match df with
  | [] => true
  | _ :: _ => false
  end.

(** ** The database file *)

(** A value bound to a [?] placeholder: [None] is stored as NULL, [bool]
    and [int] as integers, [float] as a real. *)
Inductive sqlval : Type :=
| SqlNull
| SqlInt (z : Z)
| SqlReal (q : Q).

Definition sql_bool (b : bool) : sqlval := SqlInt (if b then 1 else 0).
Definition sql_nat (n : nat) : sqlval := SqlInt (Z.of_nat n).

Definition sql_opt (o : option Z) : sqlval :=
  match o with
  | Some z => SqlInt z
  | None => SqlNull
  end.

Definition sql_opt_nat (o : option nat) : sqlval :=
  match o with
  | Some n => sql_nat n
  | None => SqlNull
  end.

(** A table with [id INTEGER PRIMARY KEY AUTOINCREMENT]: the largest id
    handed out so far, and the rows in insertion order, each an id with the
    values of the other columns. *)
Record Table : Type := {
  last_id : Z;
  table_rows : list (Z * list sqlval)
}.

Definition empty_table : Table := {| last_id := 0; table_rows := [] |}.

(** One [INSERT] that names every column but [id]; the second component is
    [cursor.lastrowid]. *)
Definition insert (t : Table) (vals : list sqlval) : Table * Z :=
  let id := (last_id t + 1)%Z in
  ({| last_id := id; table_rows := table_rows t ++ [(id, vals)] |}, id).

(** The file [db_name]: each of the three tables exists or not. A file that
    does not exist yet has none of them. *)
Record Database : Type := {
  simulation_run : option Table;
  simulation_results : option Table;
  totals_table : option Table
}.

Definition new_file : Database :=
  {| simulation_run := None; simulation_results := None; totals_table := None |}.

Definition tbl (o : option Table) : Table :=
  match o with
  | Some t => t
  | None => empty_table
  end.

(** What the saving code raises besides the exceptions of the simulation. *)
Inductive save_exn : Type :=
| Builtin (e : exn)
| AttributeError (attr : string)
| OperationalError (msg : string)
| OverflowError (msg : string).

Inductive outcome (A : Type) : Type :=
| Done (a : A)
| Failed (e : save_exn).
Arguments Done {A} a.
Arguments Failed {A} e.

(** SQLite integers have 64 bits. *)
Definition int64_max : Z := 9223372036854775807.

(** Whether a value can be bound: the [sqlite3] module refuses a Python
    [int] outside 64 bits. *)
Definition fits_int64 (v : sqlval) : bool :=
  match v with
  | SqlInt z => Z.leb (- int64_max - 1) z && Z.leb z int64_max
  | _ => true
  end.

(** [cursor.execute] of an [INSERT] into an existing table. The parameters
    are bound first; then the row takes the next id, and there is none after
    the largest 64-bit integer. *)
Definition execute_insert (t : Table) (vals : list sqlval) : outcome (Table * Z) :=
  if negb (forallb fits_int64 vals) then
    Failed (OverflowError "Python int too large to convert to SQLite INTEGER")
  else if negb (Z.ltb (last_id t) int64_max) then
    Failed (OperationalError "database or disk is full")
  else Done (insert t vals).

(** ** DatabaseManager *)

(** [create_tables]: three [CREATE TABLE IF NOT EXISTS]. *)
Definition create_tables (db : Database) : Database :=
  {| simulation_run := Some (tbl (simulation_run db));
     simulation_results := Some (tbl (simulation_results db));
     totals_table := Some (tbl (totals_table db)) |}.

(** [insert_simulation_run]: one row; returns [cursor.lastrowid]. *)
Definition insert_simulation_run (db : Database) (sim_run_data : list sqlval)
    : outcome (Database * Z) :=
  match simulation_run db with
  | None => Failed (OperationalError "no such table: simulation_run")
  | Some t =>
      match execute_insert t sim_run_data with
      | Failed e => Failed e
      | Done (t', sim_run_id) =>
          Done ({| simulation_run := Some t';
                   simulation_results := simulation_results db;
                   totals_table := totals_table db |}, sim_run_id)
      end
  end.

(** A loop of [cursor.execute] over the rows of a frame, committed after
    the loop. With no row nothing is executed; when one [execute] raises,
    nothing is committed. *)
Fixpoint insert_rows (msg : string) (o : option Table) (vals : list (list sqlval))
    : outcome (option Table) :=
  match vals with
  | [] => Done o
  | v :: vals' =>
      match o with
      | None => Failed (OperationalError msg)
      | Some t =>
          match execute_insert t v with
          | Failed e => Failed e
          | Done (t', _) => insert_rows msg (Some t') vals'
          end
      end
  end.

(** [(sim_run_id, row.Day, row.S, row.E, row.I, row.R, row.Q, row.V)] *)
Definition result_values (sim_run_id : Z) (row : Row) : list sqlval :=
  [SqlInt sim_run_id; SqlInt (r_Day row); SqlInt (r_S row); SqlInt (r_E row);
   SqlInt (r_I row); SqlInt (r_R row); SqlInt (r_Q row); SqlInt (r_V row)].

(** [insert_simulation_results] *)
Definition insert_simulation_results (db : Database) (sim_run_id : Z)
    (history_df : list Row) : outcome Database :=
  match insert_rows "no such table: simulation_results" (simulation_results db)
          (map (result_values sim_run_id) history_df) with
  | Failed e => Failed e
  | Done o =>
      Done {| simulation_run := simulation_run db; simulation_results := o;
              totals_table := totals_table db |}
  end.

(** [(sim_run_id, row.I, row.E, row.R, row.Q, row.V, row.S, row.max_infected,
      row.max_exposed, row.max_quarantined, row.max_vaccinated)], bound to
    the columns [sim_run_id, total_infected, total_exposed, ...]. *)
Definition totals_values (sim_run_id : Z) (row : Totals) : list sqlval :=
  [SqlInt sim_run_id; SqlInt (t_I row); SqlInt (t_E row); SqlInt (t_R row);
   SqlInt (t_Q row); SqlInt (t_V row); SqlInt (t_S row);
   SqlInt (t_max_infected row); SqlInt (t_max_exposed row);
   SqlInt (t_max_quarantined row); SqlInt (t_max_vaccinated row)].

(** [insert_totals] *)
Definition insert_totals (db : Database) (sim_run_id : Z)
    (totals_df : list Totals) : outcome Database :=
  match insert_rows "no such table: totals" (totals_table db)
          (map (totals_values sim_run_id) totals_df) with
  | Failed e => Failed e
  | Done o =>
      Done {| simulation_run := simulation_run db;
              simulation_results := simulation_results db; totals_table := o |}
  end.

(** ** save_to_db *)

(** The tuple [sim_run_data]. The attributes [vaccine_enabled_day] and
    [vaccine_enabled_threshold] are assigned [False] by [__init__] and by
    nothing else. *)
Definition sim_run_data (m : EpidemicModel) : list sqlval :=
  [sql_nat (N m); sql_nat (init_infected m); sql_nat (init_exposed m);
   sql_nat (days m); SqlReal (beta m); SqlReal (sigma m); SqlReal (gamma m);
   sql_nat (act_rate m);
   sql_bool (quarantine_enabled (quarantine m));
   sql_bool (quarantine_enabled_day (quarantine m));
   sql_bool (quarantine_enabled_threshold (quarantine m));
   SqlReal (quarantine_prob (quarantine m));
   sql_opt (quarantine_start (quarantine m));
   sql_opt (quarantine_threshold (quarantine m));
   sql_bool (vaccination_enabled (vaccination m));
   sql_opt (vaccine_start (vaccination m));
   SqlReal (vaccine_rate (vaccination m));
   sql_bool false;
   sql_bool false;
   sql_bool (distancing_enabled (distancing m));
   sql_opt (distancing_start (distancing m));
   sql_opt (distancing_threshold (distancing m));
   sql_opt_nat (reduced_contacts (distancing m));
   sql_bool (distancing_enabled_day (distancing m));
   sql_bool (masking_enabled (masking m));
   sql_bool (mask_enabled_day (masking m));
   sql_bool (mask_enabled_threshold (masking m));
   sql_opt (mask_start (masking m));
   sql_opt (mask_threshold (masking m));
   SqlReal (mask_effectiveness (masking m))].

(** [save_to_db]: the file it leaves and the exception it raises, if any.
    Each method of the manager commits on its own, so a failure keeps what
    the earlier calls wrote and nothing of the call that raised. *)
Definition save_to_db (self : Instance) (db : Database)
    : Database * option save_exn :=
  match self_history_df self with
  | None => (db, Some (AttributeError "history_df"))
  | Some history_df =>
      let no_data :=
        Builtin (ValueError "No data to save. Please run the simulation first.") in
      if df_empty history_df then (db, Some no_data)
      else
        match self_totals_df self with
        | None => (db, Some (AttributeError "totals_df"))
        | Some totals_df =>
            if df_empty totals_df then (db, Some no_data)
            else
              let db1 := create_tables db in
              match insert_simulation_run db1 (sim_run_data (self_model self)) with
              | Failed e => (db1, Some e)
              | Done (db2, sim_run_id) =>
                  match insert_simulation_results db2 sim_run_id history_df with
                  | Failed e => (db2, Some e)
                  | Done db3 =>
                      match insert_totals db3 sim_run_id totals_df with
                      | Failed e => (db3, Some e)
                      | Done db4 => (db4, None)
                      end
                  end
              end
        end
  end.

(** ** Notions used by the properties of saving *)

(** The states an instance can be in: constructed, configured, run. *)
Inductive reachable : Instance -> Prop :=
| reach_new m : reachable (new_instance m)
| reach_configure self m : reachable self -> reachable (with_model self m)
| reach_run g self t self' t' :
    reachable self -> run_sim g self t = Ok (self', t') -> reachable self'.

(** Whether a row of [simulation_results] or [totals] belongs to a run. *)
Definition keyed (sim_run_id : Z) (vals : list sqlval) : bool :=
  match vals with
  | SqlInt z :: _ => Z.eqb z sim_run_id
  | _ => false
  end.

(** [SELECT] of all columns but [id], [WHERE sim_run_id = ?], in insertion
    order. *)
Definition select_run (o : option Table) (sim_run_id : Z) : list (list sqlval) :=
  List.filter (keyed sim_run_id) (map snd (table_rows (tbl o))).

(** [SELECT] of all columns but [id], [WHERE id = ?]. *)
Definition select_id (o : option Table) (id : Z) : list (list sqlval) :=
  map snd (List.filter (fun r => Z.eqb (fst r) id) (table_rows (tbl o))).

(** A row of [history_df] from a row of [simulation_results]; the column
    [infected], which is not stored, is computed from two that are. *)
Definition row_of_values (vals : list sqlval) : option Row :=
  match vals with
  | [SqlInt _; SqlInt d; SqlInt s; SqlInt e; SqlInt i; SqlInt r; SqlInt q;
     SqlInt v] =>
      Some {| r_Day := d; r_S := s; r_E := e; r_I := i; r_R := r; r_Q := q;
              r_V := v; r_infected := (e + i)%Z |}
  | _ => None
  end.

(** A row of [totals_df] from a row of [totals] and the [init_exposed]
    column of its run; the key [infected], which is not stored, is computed
    from the two. *)
Definition totals_of_values (exposed0 : Z) (vals : list sqlval) : option Totals :=
  match vals with
  | [SqlInt _; SqlInt ti; SqlInt te; SqlInt tr; SqlInt tq; SqlInt tv; SqlInt ts;
     SqlInt mi; SqlInt me; SqlInt mq; SqlInt mv] =>
      Some {| t_S := ts; t_E := te; t_I := ti; t_R := tr; t_V := tv; t_Q := tq;
              t_max_infected := mi; t_max_exposed := me;
              t_max_quarantined := mq; t_max_vaccinated := mv;
              t_infected := (te - exposed0)%Z |}
  | _ => None
  end.

(** Whether the integers a frame binds, with the id of its run, all have 64
    bits. *)
Definition frame_fits {A} (values : Z -> A -> list sqlval) (sim_run_id : Z)
    (df : list A) : bool :=
  forallb (fun row => forallb fits_int64 (values sim_run_id row)) df.

(** Whether a table has ids left for [n] more rows. *)
Definition has_room (o : option Table) (n : nat) : bool :=
  Z.leb (last_id (tbl o) + Z.of_nat n) int64_max.

(** Whether the file can take the data of the instance: every integer to
    bind has 64 bits and the three tables have ids left. *)
Definition can_store (self : Instance) (db : Database) : bool :=
  match self_history_df self, self_totals_df self with
  | Some history_df, Some totals_df =>
      let sim_run_id := (last_id (tbl (simulation_run db)) + 1)%Z in
      forallb fits_int64 (sim_run_data (self_model self))
      && has_room (simulation_run db) 1
      && frame_fits result_values sim_run_id history_df
      && has_room (simulation_results db) (length history_df)
      && frame_fits totals_values sim_run_id totals_df
      && has_room (totals_table db) (length totals_df)
  | _, _ => false
  end.

(** The ids of a table are positive, at most [last_id], and distinct. *)
Definition table_ok (t : Table) : Prop :=
  (0 <= last_id t)%Z /\
  Forall (fun r => (0 < fst r <= last_id t)%Z) (table_rows t) /\
  NoDup (map fst (table_rows t)).

(** Every row of the table carries the id of a row of [runs]. *)
Definition refers_to (runs t : Table) : Prop :=
  Forall (fun vals => exists id,
            head vals = Some (SqlInt id) /\ id ∈ map fst (table_rows runs))
         (map snd (table_rows t)).

(** A file written by this code only. *)
Definition db_ok (db : Database) : Prop :=
  table_ok (tbl (simulation_run db)) /\
  table_ok (tbl (simulation_results db)) /\
  table_ok (tbl (totals_table db)) /\
  refers_to (tbl (simulation_run db)) (tbl (simulation_results db)) /\
  refers_to (tbl (simulation_run db)) (tbl (totals_table db)).

(** The model with the one attribute that [sim_run_data] leaves out set to
    [False]. *)
Definition forget_distancing_threshold (m : EpidemicModel) : EpidemicModel :=
  set_distancing m
    {| distancing_enabled := distancing_enabled (distancing m);
       distancing_start := distancing_start (distancing m);
       distancing_threshold := distancing_threshold (distancing m);
       reduced_contacts := reduced_contacts (distancing m);
       distancing_enabled_day := distancing_enabled_day (distancing m);
       distancing_enabled_threshold := false |}.

(** ** Binary64 *)

(** The float operations as IEEE 754 defines them for binary64 (precision
    53, round to nearest, ties to even), on the values of floats. A rational
    is read as the float nearest to it; on the value of a float this is the
    float itself. *)
Definition b64_of_Z (z : Z) : SpecFloat.spec_float :=
  SpecFloat.binary_normalize 53 1024 z 0 false.

Definition b64_of_Q (q : Q) : SpecFloat.spec_float :=
  SpecFloat.SFdiv 53 1024 (b64_of_Z (Qnum q)) (b64_of_Z (Zpos (Qden q))).

Definition b64_value (f : SpecFloat.spec_float) : Q :=
  match f with
  | SpecFloat.S754_finite sign mantissa e =>
      Qred (inject_Z (if sign then Zneg mantissa else Zpos mantissa) * 2 ^ e)
  | _ => 0
  end.

Definition b64_sub (x y : Q) : Q :=
  b64_value (SpecFloat.SFsub 53 1024 (b64_of_Q x) (b64_of_Q y)).

Definition b64_mul (x y : Q) : Q :=
  b64_value (SpecFloat.SFmul 53 1024 (b64_of_Q x) (b64_of_Q y)).

(** A power by repeated multiplication. With the exponents 0 and 1 it is
    exact, as the power of the platform is: [x ** 0] is 1 and [x ** 1] is
    [x]. *)
Fixpoint b64_pow_nat (x : Q) (n : nat) : Q :=
  match n with
  | 0 => 1
  | S n' => b64_mul x (b64_pow_nat x n')
  end.

Definition b64_pow (x : Q) (k : Z) : Q :=
  match k with
  | Z0 => 1
  | Zpos n => b64_pow_nat x (Pos.to_nat n)
  | Zneg n =>
      b64_value (SpecFloat.SFdiv 53 1024 (b64_of_Q 1)
                   (b64_of_Q (b64_pow_nat x (Pos.to_nat n))))
  end.

(** The float [0.1] and the float [0.09999999999999998], two units in the
    last place below it. *)
Definition float_0_1 : Q := 3602879701896397 # 36028797018963968.
Definition float_below_0_1 : Q := 900719925474099 # 9007199254740992.

(** A platform with binary64 arithmetic whose uniform draws are all
    [0.09999999999999998]. *)
Definition rng_b64 : Platform :=
  {| rand := fun _ => float_below_0_1;
     choice := fun _ pool k => take k pool;
     binomial := fun _ n p => if Qle_bool 1 p then n else 0;
     shuffle := fun _ l => l;
     fsub := b64_sub; fmul := b64_mul; fpow := b64_pow |}.

(** Two agents, one day, [beta = 0.1]: the infectious one is met by the
    susceptible one. *)
Definition rounding_model : EpidemicModel := init 2 1 0 1 float_0_1 0 0 2.

Definition rounding_day0 : Sim :=
  Eval vm_compute in
    match sim_upto rng_b64 rounding_model 0 0 with
    | Ok (s, _) => s
    | Raise _ => empty_sim
    end.

Definition rounding_day1 : Sim :=
  Eval vm_compute in
    match sim_upto rng_b64 rounding_model 1 0 with
    | Ok (s, _) => s
    | Raise _ => empty_sim
    end.

(** More contacts a day than agents, and distancing from day 1: the
    constructor checks neither against the other. *)
Definition crowded_model : EpidemicModel :=
  let base := init 3 1 0 1 (1 # 2) (1 # 2) (1 # 2) 5 in
  or_else (apply_distancing base 2 (Some 1%Z) None) base.

(** A model whose distancing waits for a threshold. *)
Definition threshold_distancing_model : EpidemicModel :=
  or_else (apply_distancing demo_base 2 None (Some 2%Z)) demo_base.

(** The exceptions of an [INSERT]. *)
Definition insert_error (e : save_exn) : Prop :=
  (exists msg, e = OverflowError msg) \/ (exists msg, e = OperationalError msg).

(** What a call of [save_to_db] has written when it ends, whether it
    returns or raises: at most one row of [simulation_run], under the next
    id, and rows of the other two tables that carry that id, none of them
    unless the row of the run was written. *)
Definition written (self : Instance) (db db' : Database) : Prop :=
  let id := (last_id (tbl (simulation_run db)) + 1)%Z in
  exists rn news newt,
    table_rows (tbl (simulation_run db'))
    = table_rows (tbl (simulation_run db)) ++ rn /\
    (rn = [] \/ rn = [(id, sim_run_data (self_model self))]) /\
    (table_ok (tbl (simulation_run db)) -> table_ok (tbl (simulation_run db'))) /\
    map snd (table_rows (tbl (simulation_results db')))
    = map snd (table_rows (tbl (simulation_results db))) ++ news /\
    (table_ok (tbl (simulation_results db)) ->
     table_ok (tbl (simulation_results db'))) /\
    map snd (table_rows (tbl (totals_table db')))
    = map snd (table_rows (tbl (totals_table db))) ++ newt /\
    (table_ok (tbl (totals_table db)) -> table_ok (tbl (totals_table db'))) /\
    Forall (fun v => head v = Some (SqlInt id)) (news ++ newt) /\
    (news ++ newt <> [] -> rn <> []).

(** The instance and the file of the examples: the demo model, run and
    saved into a new file. *)
Definition demo_instance : Instance :=
  {| self_model := demo; self_history_df := Some demo_rows;
     self_totals_df := Some [demo_totals] |}.

Definition demo_db : Database := fst (save_to_db demo_instance new_file).

(** * Properties *)

(** ** Reasoning about monadic code *)

Lemma bind_Ok {A B} (c : M A) (k : A -> M B) t r :
  bind c k t = Ok r -> exists a t1, c t = Ok (a, t1) /\ k a t1 = Ok r.
Proof.
  unfold bind. destruct (c t) as [[a t1]|e]; [|discriminate].
  intros H. exists a, t1. split; [reflexivity|exact H].
Qed.

Lemma bind_Ok_intro {A B} (c : M A) (k : A -> M B) t a t1 :
  c t = Ok (a, t1) -> bind c k t = k a t1.
Proof. unfold bind. intros ->. reflexivity. Qed.

Lemma ret_Ok {A} (a a' : A) t t' :
  ret a t = Ok (a', t') -> a' = a /\ t' = t.
Proof. unfold ret. intros H. injection H as <- <-. split; reflexivity. Qed.

Lemma lift_Ok {A} (r : result A) t a t' :
  lift r t = Ok (a, t') -> r = Ok a /\ t' = t.
Proof.
  unfold lift. destruct r; [|discriminate].
  intros H. injection H as -> ->. split; reflexivity.
Qed.

Lemma np_rand_Ok g t u t' :
  np_rand g t = Ok (u, t') -> u = rand g t /\ t' = S t.
Proof. unfold np_rand. intros H. injection H as <- <-. split; reflexivity. Qed.

Lemma np_choice_Ok g pool size t l t' :
  np_choice g pool size t = Ok (l, t') ->
  size <= length pool /\ l = choice g t pool size /\ t' = S t.
Proof.
  unfold np_choice. destruct (Nat.leb size (length pool)) eqn:E; [|discriminate].
  intros H. injection H as <- <-. apply Nat.leb_le in E. auto.
Qed.

Lemma np_binomial_Ok g n p t k t' :
  np_binomial g n p t = Ok (k, t') ->
  in_unit p = true /\ k = binomial g t n p /\ t' = S t.
Proof.
  unfold np_binomial. destruct (in_unit p); [|discriminate].
  intros H. injection H as <- <-. auto.
Qed.

Lemma np_shuffle_Ok g a t l t' :
  np_shuffle g a t = Ok (l, t') -> l = shuffle g t a /\ t' = S t.
Proof. unfold np_shuffle. intros H. injection H as <- <-. auto. Qed.

(** Decompose a hypothesis [H : c t = Ok (a, t')] along the shape of [c]. *)
Ltac monad_inv H :=
  lazymatch type of H with
  | bind _ _ _ = Ok _ =>
      let a := fresh "a" in
      let t1 := fresh "t" in
      let H1 := fresh "Hc" in
      apply bind_Ok in H; destruct H as (a & t1 & H1 & H);
      monad_inv H1; monad_inv H
  | ret _ _ = Ok (_, _) =>
      let E1 := fresh "E" in
      let E2 := fresh "E" in
      apply ret_Ok in H; destruct H as [E1 E2]; simplify_eq
  | lift _ _ = Ok (_, _) =>
      let E2 := fresh "E" in
      apply lift_Ok in H; destruct H as [H E2]; subst
  | np_rand _ _ = Ok (_, _) =>
      let E1 := fresh "E" in
      let E2 := fresh "E" in
      apply np_rand_Ok in H; destruct H as [E1 E2]; subst
  | np_choice _ _ _ _ = Ok (_, _) =>
      let E1 := fresh "E" in
      let E2 := fresh "E" in
      apply np_choice_Ok in H; destruct H as (H & E1 & E2); subst
  | np_binomial _ _ _ _ = Ok (_, _) =>
      let E1 := fresh "E" in
      let E2 := fresh "E" in
      apply np_binomial_Ok in H; destruct H as (H & E1 & E2); subst
  | np_shuffle _ _ _ = Ok (_, _) =>
      let E1 := fresh "E" in
      let E2 := fresh "E" in
      apply np_shuffle_Ok in H; destruct H as (E1 & E2); subst
  | (if ?b then _ else _) _ = Ok _ =>
      let E := fresh "Hif" in
      destruct b eqn:E; monad_inv H
  | _ => idtac
  end.

(** ** Rational comparisons *)

Lemma Qlt_bool_iff x y : Qlt_bool x y = true <-> (x < y)%Q.
Proof.
  unfold Qlt_bool. rewrite negb_true_iff. split.
  - intros H. apply Qnot_le_lt. intros Hle.
    apply Qle_bool_iff in Hle. congruence.
  - intros H. destruct (Qle_bool y x) eqn:E; [|reflexivity].
    apply Qle_bool_iff in E. exfalso. exact (Qlt_not_le _ _ H E).
Qed.

Lemma Qlt_bool_false_iff x y : Qlt_bool x y = false <-> (y <= x)%Q.
Proof.
  unfold Qlt_bool. rewrite negb_false_iff. apply Qle_bool_iff.
Qed.

(** ** Counting *)

Lemma count_eq_nonneg v l : (0 <= count_eq v l)%Z.
Proof. induction l as [|x l IH]; simpl; [lia|]. destruct (Nat.eqb x v); lia. Qed.

Lemma count_eq_le_length v l : (count_eq v l <= Z.of_nat (length l))%Z.
Proof. induction l as [|x l IH]; simpl; [lia|]. destruct (Nat.eqb x v); lia. Qed.

Lemma count_eq_app v l1 l2 :
  count_eq v (l1 ++ l2) = (count_eq v l1 + count_eq v l2)%Z.
Proof. induction l1 as [|x l1 IH]; simpl; [reflexivity|]. rewrite IH. lia. Qed.

Lemma count_eq_Permutation v l1 l2 :
  Permutation l1 l2 -> count_eq v l1 = count_eq v l2.
Proof.
  induction 1; simpl; try lia.
Qed.

Lemma count_eq_replicate_ne v x n : x <> v -> count_eq v (replicate n x) = 0%Z.
Proof.
  intros Hne. induction n as [|n IH]; simpl; [reflexivity|].
  destruct (Nat.eqb_spec x v); [contradiction|]. lia.
Qed.

(** The four compartments partition an array of state codes. *)
Lemma count_eq_partition l :
  Forall (fun x => x <= 3) l ->
  (count_eq SUSCEPTIBLE l + count_eq EXPOSED l
   + count_eq INFECTIOUS l + count_eq RECOVERED l = Z.of_nat (length l))%Z.
Proof.
  induction 1 as [|x l Hx Hl IH]; [reflexivity|].
  cbn [count_eq length].
  assert (Hc : x = 0 \/ x = 1 \/ x = 2 \/ x = 3) by lia.
  destruct Hc as [-> | [-> | [-> | ->]]]; cbn; lia.
Qed.

(** Pointwise, a value [v] that is kept is counted at least as often. *)
Lemma count_eq_mono v (l l' : list nat) :
  length l = length l' ->
  (forall i, l !! i = Some v -> l' !! i = Some v) ->
  (count_eq v l <= count_eq v l')%Z.
Proof.
  revert l'. induction l as [|x l IH]; intros [|x' l'] Hlen Hkeep;
    simpl in *; try lia.
  assert (IH' : (count_eq v l <= count_eq v l')%Z).
  { apply IH; [lia|]. intros i Hi. exact (Hkeep (S i) Hi). }
  destruct (Nat.eqb_spec x v) as [->|Hne].
  - specialize (Hkeep 0 eq_refl). simpl in Hkeep. injection Hkeep as ->.
    rewrite Nat.eqb_refl. lia.
  - destruct (Nat.eqb x' v); lia.
Qed.

(** ** One agent, one day *)

Lemma update_agent_frame g m day self c p i st acc t acc' t' :
  update_agent g m day self c p i st acc t = Ok (acc', t') ->
  length (new_states acc') = length (new_states acc) /\
  length (new_quarantined acc') = length (new_quarantined acc) /\
  t <= t' /\
  forall j, j <> i ->
    new_states acc' !! j = new_states acc !! j /\
    new_quarantined acc' !! j = new_quarantined acc !! j.
Proof.
  intros H. unfold update_agent in H. monad_inv H; cbn;
    rewrite ?length_insert;
    (split; [reflexivity|split; [reflexivity|split; [lia|]]]);
    intros j Hj; rewrite ?list_lookup_insert_ne by congruence; auto.
Qed.

Lemma update_agent_trans g m day self c p i st acc t acc' t' q :
  update_agent g m day self c p i st acc t = Ok (acc', t') ->
  new_states acc !! i = Some st ->
  new_quarantined acc !! i = Some q ->
  exists st' q',
    new_states acc' !! i = Some st' /\
    new_quarantined acc' !! i = Some q' /\
    agent_trans st q st' q'.
Proof.
  intros H Hst Hq.
  assert (Hi : i < length (new_states acc)) by (eapply lookup_lt_Some; eauto).
  assert (Hi' : i < length (new_quarantined acc)) by (eapply lookup_lt_Some; eauto).
  unfold update_agent in H. monad_inv H; cbn;
    rewrite ?list_lookup_insert_eq by assumption;
    try (exists st, q; split; [assumption|split; [assumption|constructor]]).
  - apply Nat.eqb_eq in Hif. subst st.
    exists EXPOSED, q. repeat split; auto. constructor.
  - apply Nat.eqb_eq in Hif0. subst st.
    exists INFECTIOUS, q. repeat split; auto. constructor.
  - apply Nat.eqb_eq in Hif1. subst st.
    exists RECOVERED, 0. repeat split; auto. constructor.
  - apply Nat.eqb_eq in Hif1. subst st.
    exists INFECTIOUS, QUARANTINED. repeat split; auto. constructor.
Qed.

(** ** The per-agent loop *)

(** The loop leaves the buffers' lengths alone, touches only the indices
    it enumerates, and the final entry of agent [i0 + k] is the one its own
    iteration wrote, starting from the entry the buffers had before the
    loop. *)
Lemma agents_loop_spec g m day self c p sts :
  forall i0 acc t acc' t',
  agents_loop g m day self c p i0 sts acc t = Ok (acc', t') ->
  length (new_states acc') = length (new_states acc) /\
  length (new_quarantined acc') = length (new_quarantined acc) /\
  t <= t' /\
  (forall j, j < i0 \/ i0 + length sts <= j ->
     new_states acc' !! j = new_states acc !! j /\
     new_quarantined acc' !! j = new_quarantined acc !! j) /\
  (forall k st, sts !! k = Some st ->
     exists a1 t1 a2 t2,
       update_agent g m day self c p (i0 + k) st a1 t1 = Ok (a2, t2) /\
       t <= t1 /\
       new_states a1 !! (i0 + k) = new_states acc !! (i0 + k) /\
       new_quarantined a1 !! (i0 + k) = new_quarantined acc !! (i0 + k) /\
       new_states acc' !! (i0 + k) = new_states a2 !! (i0 + k) /\
       new_quarantined acc' !! (i0 + k) = new_quarantined a2 !! (i0 + k)).
Proof.
  induction sts as [|s rest IH]; intros i0 acc t acc' t' H; cbn [agents_loop] in H.
  - apply ret_Ok in H. destruct H as [-> ->].
    repeat split; auto. intros k st Hk. discriminate.
  - apply bind_Ok in H. destruct H as (a & t1 & Hstep & Hrest).
    destruct (update_agent_frame _ _ _ _ _ _ _ _ _ _ _ _ Hstep)
      as (Hl1 & Hl2 & Ht & Hframe).
    destruct (IH _ _ _ _ _ Hrest) as (Hl1' & Hl2' & Ht' & Hout & Hin).
    split; [congruence|]. split; [congruence|]. split; [lia|]. split.
    + intros j Hj. cbn [length] in Hj.
      destruct (Hout j ltac:(lia)) as [E1 E2].
      destruct (Hframe j ltac:(lia)) as [E3 E4].
      split; congruence.
    + intros [|k] st Hk; cbn in Hk.
      * injection Hk as ->. rewrite Nat.add_0_r.
        exists acc, t, a, t1.
        destruct (Hout i0 ltac:(lia)) as [E1 E2].
        repeat split; auto.
      * destruct (Hin k st Hk) as (a1 & u1 & a2 & u2 & Hu & Hle & E1 & E2 & E3 & E4).
        replace (S i0 + k) with (i0 + S k) in * by lia.
        destruct (Hframe (i0 + S k) ltac:(lia)) as [E5 E6].
        exists a1, u1, a2, u2.
        split; [exact Hu|]. split; [lia|].
        split; [congruence|]. split; [congruence|]. split; assumption.
Qed.

(** ** The vaccination module *)

Lemma put_at_spec v idx :
  forall a a', put_at a idx v = Ok a' ->
  length a' = length a /\
  (forall i x, a !! i = Some x -> a' !! i = Some x \/ a' !! i = Some v) /\
  (forall i, a !! i = Some v -> a' !! i = Some v).
Proof.
  induction idx as [|j idx IH]; intros a a' H; cbn [put_at] in H.
  - injection H as <-. auto.
  - destruct (Nat.ltb_spec j (length a)) as [Hj|Hj]; [|discriminate].
    destruct (IH _ _ H) as (Hlen & Hany & Hkeep).
    rewrite length_insert in Hlen. split; [exact Hlen|]. split.
    + intros i x Hi. destruct (decide (i = j)) as [->|Hne].
      * right. apply Hkeep. apply list_lookup_insert_eq. exact Hj.
      * apply Hany. rewrite list_lookup_insert_ne by congruence. exact Hi.
    + intros i Hi. apply Hkeep. destruct (decide (i = j)) as [->|Hne].
      * apply list_lookup_insert_eq. exact Hj.
      * rewrite list_lookup_insert_ne by congruence. exact Hi.
Qed.

(** The module keeps the length of the flag array and never clears a flag;
    it only adds to the [V] total. *)
Lemma vaccination_module_spec g m day self t nv tv t' :
  vaccination_module g m day self t = Ok (nv, tv, t') ->
  length nv = length (vaccinated self) /\
  (forall i, vaccinated self !! i = Some VACCINATED -> nv !! i = Some VACCINATED) /\
  t_S tv = t_S (totals self) /\
  (vaccination_enabled (vaccination m) = false -> nv = vaccinated self).
Proof.
  intros H. unfold vaccination_module in H. monad_inv H;
    try (repeat split; auto; fail).
  match goal with
  | Hput : put_at _ _ _ = Ok _ |- _ =>
      destruct (put_at_spec _ _ _ _ Hput) as (Hlen & _ & Hkeep)
  end.
  repeat split; auto. discriminate.
Qed.

(** ** One day *)

Lemma sim_day_inv g m day self t self' t' :
  sim_day g m day self t = Ok (self', t') ->
  exists c p nv tv t0 acc,
    current_contacts m day (states self) = Ok c /\
    current_beta g m day (states self) = Ok p /\
    vaccination_module g m day self t = Ok (nv, tv, t0) /\
    agents_loop g m day self c p 0 (states self)
      {| new_states := states self; new_quarantined := quarantined self;
         acc_totals := tv |} t0 = Ok (acc, t') /\
    self' = {| states := new_states acc; vaccinated := nv;
               quarantined := new_quarantined acc;
               history := record_day (history self) (new_states acc) nv
                            (new_quarantined acc);
               totals := acc_totals acc |}.
Proof.
  intros H. unfold sim_day in H.
  apply bind_Ok in H. destruct H as (c & t1 & Hc & H). apply lift_Ok in Hc.
  destruct Hc as [Hc ->].
  apply bind_Ok in H. destruct H as (p & t1 & Hp & H). apply lift_Ok in Hp.
  destruct Hp as [Hp ->].
  apply bind_Ok in H. destruct H as ([nv tv] & t0 & Hv & H).
  apply bind_Ok in H. destruct H as (acc & t1 & Hloop & H).
  apply ret_Ok in H. destruct H as [-> ->].
  exists c, p, nv, tv, t0, acc. cbn [fst snd] in *. auto.
Qed.

(** What one day does to agent [i]: its new state and flag are those written
    by its own iteration of the loop body, run on buffers that still hold
    its old state and flag. *)
Lemma sim_day_agent g m day self t self' t' :
  sim_day g m day self t = Ok (self', t') ->
  exists c p,
    current_contacts m day (states self) = Ok c /\
    current_beta g m day (states self) = Ok p /\
    length (states self') = length (states self) /\
    length (quarantined self') = length (quarantined self) /\
    forall i st, states self !! i = Some st ->
      exists a1 t1 a2 t2,
        update_agent g m day self c p i st a1 t1 = Ok (a2, t2) /\
        t <= t1 /\
        new_states a1 !! i = Some st /\
        new_quarantined a1 !! i = quarantined self !! i /\
        states self' !! i = new_states a2 !! i /\
        quarantined self' !! i = new_quarantined a2 !! i.
Proof.
  intros H. destruct (sim_day_inv _ _ _ _ _ _ _ H)
    as (c & p & nv & tv & t0 & acc & Hc & Hp & Hv & Hloop & ->).
  exists c, p. split; [exact Hc|]. split; [exact Hp|].
  destruct (agents_loop_spec _ _ _ _ _ _ _ _ _ _ _ _ Hloop)
    as (Hl1 & Hl2 & Ht & _ & Hin).
  cbn in *. split; [exact Hl1|]. split; [exact Hl2|].
  intros i st Hi. destruct (Hin i st Hi)
    as (a1 & t1 & a2 & t2 & Hu & Hle & E1 & E2 & E3 & E4).
  cbn in *. exists a1, t1, a2, t2.
  assert (t <= t0).
  { unfold vaccination_module in Hv. monad_inv Hv; lia. }
  split; [exact Hu|]. split; [lia|].
  split; [congruence|]. split; [congruence|]. split; assumption.
Qed.

(** ** The history as rows *)

Lemma rows_from_length cS : forall day cE cI cR cQ cV cinf,
  length cE = length cS -> length cI = length cS -> length cR = length cS ->
  length cQ = length cS -> length cV = length cS -> length cinf = length cS ->
  length (rows_from day cS cE cI cR cQ cV cinf) = length cS.
Proof.
  induction cS as [|s cS IH];
    intros day [|e cE] [|i cI] [|r cR] [|q cQ] [|v cV] [|f cinf];
    cbn [length rows_from]; intros; try lia.
  f_equal. apply IH; lia.
Qed.

Lemma rows_from_snoc cS : forall day cE cI cR cQ cV cinf s e i r q v f,
  length cE = length cS -> length cI = length cS -> length cR = length cS ->
  length cQ = length cS -> length cV = length cS -> length cinf = length cS ->
  rows_from day (cS ++ [s]) (cE ++ [e]) (cI ++ [i]) (cR ++ [r]) (cQ ++ [q])
    (cV ++ [v]) (cinf ++ [f])
  = rows_from day cS cE cI cR cQ cV cinf
    ++ [{| r_Day := day + Z.of_nat (length cS); r_S := s; r_E := e; r_I := i;
           r_R := r; r_Q := q; r_V := v; r_infected := f |}].
Proof.
  induction cS as [|s0 cS IH];
    intros day [|e0 cE] [|i0 cI] [|r0 cR] [|q0 cQ] [|v0 cV] [|f0 cinf];
    cbn [length]; intros; try lia.
  - cbn. rewrite Z.add_0_r. reflexivity.
  - cbn [app rows_from]. rewrite IH by lia. cbn [app].
    replace (day + 1 + Z.of_nat (length cS))%Z
      with (day + Z.of_nat (S (length cS)))%Z by lia.
    reflexivity.
Qed.

Lemma same_lengths_true h :
  same_lengths h = true <->
  length (h_E h) = length (h_S h) /\ length (h_I h) = length (h_S h) /\
  length (h_R h) = length (h_S h) /\ length (h_Q h) = length (h_S h) /\
  length (h_V h) = length (h_S h) /\ length (h_infected h) = length (h_S h).
Proof.
  unfold same_lengths. rewrite !andb_true_iff, !Nat.eqb_eq. tauto.
Qed.

Lemma rows_of_length h :
  same_lengths h = true -> length (rows_of h) = length (h_S h).
Proof.
  intros H. apply same_lengths_true in H. unfold rows_of.
  apply rows_from_length; tauto.
Qed.

(** Recording a day appends one row, numbered by the rows before it. *)
Lemma rows_of_record_day h sts vac qua :
  same_lengths h = true ->
  same_lengths (record_day h sts vac qua) = true /\
  length (h_S (record_day h sts vac qua)) = S (length (h_S h)) /\
  rows_of (record_day h sts vac qua)
  = rows_of h ++ [row_of_counts (Z.of_nat (length (h_S h))) sts vac qua].
Proof.
  intros H. apply same_lengths_true in H.
  destruct H as (H1 & H2 & H3 & H4 & H5 & H6).
  split; [|split].
  - apply same_lengths_true. cbn. rewrite !length_app. cbn. lia.
  - cbn. rewrite length_app. cbn. lia.
  - unfold rows_of, record_day. cbn [h_S h_E h_I h_R h_Q h_V h_infected].
    rewrite rows_from_snoc by assumption. reflexivity.
Qed.

(** ** The day loop *)

Lemma day_loop_app g m ds1 : forall ds2 s t,
  day_loop g m (ds1 ++ ds2) s t
  = match day_loop g m ds1 s t with
    | Ok (s1, t1) => day_loop g m ds2 s1 t1
    | Raise e => Raise e
    end.
Proof.
  induction ds1 as [|d ds1 IH]; intros ds2 s t; cbn [app day_loop].
  - reflexivity.
  - unfold bind. destruct (sim_day g m d s t) as [[s1 t1]|e]; [|reflexivity].
    apply IH.
Qed.

(** [d + 1] iterations are [d] iterations followed by the iteration of
    day [d]. *)
Lemma sim_upto_S g m d t :
  sim_upto g m (S d) t
  = match sim_upto g m d t with
    | Ok (s, t1) => sim_day g m d s t1
    | Raise e => Raise e
    end.
Proof.
  unfold sim_upto, bind.
  destruct (sim_init g m t) as [[s0 t0]|e]; [|reflexivity].
  rewrite seq_S, day_loop_app. cbn [Nat.add].
  destruct (day_loop g m (seq 0 d) s0 t0) as [[s1 t1]|e]; [|reflexivity].
  cbn [day_loop]. unfold bind.
  destruct (sim_day g m d s1 t1) as [[s2 t2]|e]; reflexivity.
Qed.

Lemma sim_upto_0 g m t : sim_upto g m 0 t = sim_init g m t.
Proof.
  unfold sim_upto, bind. cbn [seq day_loop].
  destruct (sim_init g m t) as [[s0 t0]|e]; reflexivity.
Qed.

(** Induction along a run: a property of [(d, self)] that holds after the
    setup and is kept by every day holds after any number of days. *)
Lemma sim_upto_ind g m (P : nat -> Sim -> Prop) :
  (forall t s t', sim_init g m t = Ok (s, t') -> P 0 s) ->
  (forall d s t s' t', P d s -> sim_day g m d s t = Ok (s', t') -> P (S d) s') ->
  forall d t s t', sim_upto g m d t = Ok (s, t') -> P d s.
Proof.
  intros Hinit Hstep. induction d as [|d IH]; intros t s t' H.
  - rewrite sim_upto_0 in H. eauto.
  - rewrite sim_upto_S in H.
    destruct (sim_upto g m d t) as [[s1 t1]|e] eqn:E; [|discriminate].
    eauto.
Qed.

(** ** What every day keeps *)

Lemma update_agent_t_S g m day self c p i st acc t acc' t' :
  update_agent g m day self c p i st acc t = Ok (acc', t') ->
  t_S (acc_totals acc') = t_S (acc_totals acc).
Proof.
  intros H. unfold update_agent in H. monad_inv H; reflexivity.
Qed.

Lemma agents_loop_t_S g m day self c p sts :
  forall i0 acc t acc' t',
  agents_loop g m day self c p i0 sts acc t = Ok (acc', t') ->
  t_S (acc_totals acc') = t_S (acc_totals acc).
Proof.
  induction sts as [|s rest IH]; intros i0 acc t acc' t' H; cbn [agents_loop] in H.
  - apply ret_Ok in H. destruct H as [-> ->]. reflexivity.
  - apply bind_Ok in H. destruct H as (a & t1 & Hstep & Hrest).
    rewrite (IH _ _ _ _ _ Hrest). eapply update_agent_t_S; eauto.
Qed.

(** One day moves every agent along [agent_trans]. *)
Lemma sim_day_trans g m day self t self' t' :
  sim_day g m day self t = Ok (self', t') ->
  forall i st q,
    states self !! i = Some st -> quarantined self !! i = Some q ->
    exists st' q',
      states self' !! i = Some st' /\ quarantined self' !! i = Some q' /\
      agent_trans st q st' q'.
Proof.
  intros H i st q Hst Hq.
  destruct (sim_day_agent _ _ _ _ _ _ _ H) as (c & p & _ & _ & _ & _ & Hag).
  destruct (Hag i st Hst) as (a1 & t1 & a2 & t2 & Hu & _ & E1 & E2 & E3 & E4).
  rewrite Hq in E2.
  destruct (update_agent_trans _ _ _ _ _ _ _ _ _ _ _ _ _ Hu E1 E2)
    as (st' & q' & F1 & F2 & Htr).
  exists st', q'. split; [congruence|]. split; [congruence|]. exact Htr.
Qed.

Lemma agent_trans_code st q st' q' :
  agent_trans st q st' q' -> st <= 3 -> st' <= 3.
Proof. destruct 1; unfold EXPOSED, INFECTIOUS, RECOVERED; lia. Qed.

Lemma agent_trans_quarantined st q st' q' :
  agent_trans st q st' q' ->
  (q = QUARANTINED -> st = INFECTIOUS) ->
  q' = QUARANTINED -> st' = INFECTIOUS.
Proof. destruct 1; intros Hq Hq'; auto; try discriminate; specialize (Hq Hq'); discriminate. Qed.

Lemma agent_trans_recovered st q st' q' :
  agent_trans st q st' q' -> st = RECOVERED -> st' = RECOVERED.
Proof. destruct 1; intros; auto; discriminate. Qed.

(** ** The invariant of a run *)

Lemma initial_block_codes m : Forall (fun x => x <= 3) (initial_block m).
Proof.
  unfold initial_block. apply Forall_forall. intros x Hx.
  apply list_elem_of_In, in_map_iff in Hx. destruct Hx as (k & <- & _).
  destruct (Nat.ltb k (init_exposed m)); [unfold EXPOSED; lia|].
  destruct (Nat.ltb k (init_exposed m + init_infected m));
    [unfold INFECTIOUS; lia|unfold SUSCEPTIBLE; lia].
Qed.

Lemma initial_block_length m : length (initial_block m) = N m.
Proof. unfold initial_block. rewrite length_map, length_seq. reflexivity. Qed.

Lemma sim_init_inv g m t s t' :
  rng_wf g -> sim_init g m t = Ok (s, t') -> run_inv m 0 s.
Proof.
  intros Hg H. unfold sim_init in H. monad_inv H.
  pose proof (shuffle_perm g Hg t (initial_block m)) as Hperm.
  constructor; cbn.
  - rewrite (Permutation_length Hperm). apply initial_block_length.
  - apply length_replicate.
  - apply length_replicate.
  - eapply Permutation_Forall; [symmetry; exact Hperm|]. apply initial_block_codes.
  - intros i Hi. apply lookup_replicate in Hi. destruct Hi as [Hi _]. discriminate.
  - reflexivity.
  - reflexivity.
  - reflexivity.
  - intros [|j] r Hj; [|discriminate]. injection Hj as <-. reflexivity.
  - intros r Hr. apply list_elem_of_singleton in Hr. subst r. cbn. lia.
  - intros j r1 r2 H1 H2. destruct j; discriminate.
  - eexists. split; [reflexivity|]. cbn. split; apply count_eq_nonneg.
  - reflexivity.
  - intros _. split.
    + apply count_eq_replicate_ne. discriminate.
    + intros r Hr. apply list_elem_of_singleton in Hr. subst r. reflexivity.
Qed.

Lemma sim_day_inv_step g m d s t s' t' :
  run_inv m d s -> sim_day g m d s t = Ok (s', t') -> run_inv m (S d) s'.
Proof.
  intros I H.
  pose proof (sim_day_trans _ _ _ _ _ _ _ H) as Htr.
  destruct (sim_day_agent _ _ _ _ _ _ _ H) as (c & p & _ & _ & Hl1 & Hl2 & _).
  destruct (sim_day_inv _ _ _ _ _ _ _ H)
    as (c' & p' & nv & tv & t0 & acc & _ & _ & Hv & Hloop & Hs').
  destruct (vaccination_module_spec _ _ _ _ _ _ _ _ Hv)
    as (Hvl & Hvkeep & HvS & Hvoff).
  pose proof (agents_loop_t_S _ _ _ _ _ _ _ _ _ _ _ _ Hloop) as HtS.
  assert (Hvac : vaccinated s' = nv) by (subst s'; reflexivity).
  assert (Hhist : history s'
                  = record_day (history s) (states s') (vaccinated s') (quarantined s'))
    by (subst s'; reflexivity).
  assert (Htot : t_S (totals s') = t_S (totals s))
    by (subst s'; cbn in *; congruence).
  clear Hs' Hloop.
  destruct I as [L1 L2 L3 Hcodes Hq Hsame Hrows Hfirst Hdays Hcons Hmono Hlast HS Hoff].
  assert (Hpair : forall i, i < N m -> exists st q st' q',
             states s !! i = Some st /\ quarantined s !! i = Some q /\
             states s' !! i = Some st' /\ quarantined s' !! i = Some q' /\
             agent_trans st q st' q').
  { intros i Hi.
    destruct (lookup_lt_is_Some_2 (states s) i ltac:(lia)) as [st Hst].
    destruct (lookup_lt_is_Some_2 (quarantined s) i ltac:(lia)) as [q Hq0].
    destruct (Htr i st q Hst Hq0) as (st' & q' & A & B & C).
    exists st, q, st', q'. auto. }
  assert (HR : (count_eq RECOVERED (states s) <= count_eq RECOVERED (states s'))%Z).
  { apply count_eq_mono; [congruence|]. intros i Hi.
    destruct (Hpair i) as (st & q & st' & q' & A & B & C & D & E).
    { rewrite <- L1. eapply lookup_lt_Some; eauto. }
    rewrite C. f_equal. eapply agent_trans_recovered; eauto. congruence. }
  assert (HV : (count_eq VACCINATED (vaccinated s) <= count_eq VACCINATED (vaccinated s'))%Z).
  { apply count_eq_mono; [congruence|]. intros i Hi. rewrite Hvac. auto. }
  destruct (rows_of_record_day (history s) (states s') (vaccinated s')
              (quarantined s') Hsame) as (Hsame' & Hlen' & Hrows').
  rewrite <- Hhist in Hsame', Hlen', Hrows'.
  assert (Hcodes' : Forall (fun x => x <= 3) (states s')).
  { apply Forall_lookup_2. intros i x Hx.
    destruct (Hpair i) as (st & q & st' & q' & A & B & C & D & E).
    { rewrite <- L1, <- Hl1. eapply lookup_lt_Some; eauto. }
    assert (x = st') by congruence. subst x.
    eapply agent_trans_code; eauto.
    eapply (proj1 (Forall_lookup _ _) Hcodes); eauto. }
  constructor.
  - congruence.
  - congruence.
  - congruence.
  - exact Hcodes'.
  - intros i Hi.
    destruct (Hpair i) as (st & q & st' & q' & A & B & C & D & E).
    { rewrite <- L2, <- Hl2. eapply lookup_lt_Some; eauto. }
    rewrite C. f_equal. eapply agent_trans_quarantined; eauto.
    + intros ->. apply Hq in B. congruence.
    + congruence.
  - exact Hsame'.
  - lia.
  - rewrite Hrows'. rewrite lookup_app_l; [exact Hfirst|].
    rewrite rows_of_length by assumption. lia.
  - intros j r Hj. rewrite Hrows' in Hj.
    apply lookup_snoc_Some in Hj. destruct Hj as [[Hj Hr]|[Hj Hr]]; [eauto|].
    subst r. cbn. rewrite Hj, rows_of_length by assumption. reflexivity.
  - intros r Hr. rewrite Hrows' in Hr. apply elem_of_app in Hr.
    destruct Hr as [Hr|Hr]; [auto|].
    apply list_elem_of_singleton in Hr. subst r. cbn.
    rewrite count_eq_partition by assumption. congruence.
  - intros j r1 r2 H1 H2. rewrite Hrows' in H1, H2.
    apply lookup_snoc_Some in H2. destruct H2 as [[Hj H2]|[Hj H2]].
    + rewrite lookup_app_l in H1 by lia. eauto.
    + rewrite lookup_app_l in H1 by lia.
      destruct Hlast as (r & Hr & HrR & HrV).
      rewrite last_lookup, <- Hj in Hr. cbn in Hr.
      assert (r = r1) by congruence. subst r r2. cbn. lia.
  - eexists. rewrite Hrows', last_snoc. split; [reflexivity|]. cbn. lia.
  - congruence.
  - intros Hdis. destruct (Hoff Hdis) as [Hz Hall].
    assert (Hz' : count_eq VACCINATED (vaccinated s') = 0%Z).
    { rewrite Hvac, (Hvoff Hdis). exact Hz. }
    split; [exact Hz'|].
    intros r Hr. rewrite Hrows' in Hr. apply elem_of_app in Hr.
    destruct Hr as [Hr|Hr]; [auto|].
    apply list_elem_of_singleton in Hr. subst r. cbn. exact Hz'.
Qed.

(** The invariant holds all along a run. *)
Lemma sim_upto_inv g m d t s t' :
  rng_wf g -> sim_upto g m d t = Ok (s, t') -> run_inv m d s.
Proof.
  intros Hg. revert d t s t'.
  apply (sim_upto_ind g m (run_inv m)).
  - intros t s t' H. eapply sim_init_inv; eauto.
  - intros d s t s' t' I H. eapply sim_day_inv_step; eauto.
Qed.

(** ** The sample generators meet the contract *)

Lemma take_sample {A} (l : list A) k :
  k <= length l ->
  length (take k l) = k /\ exists rest, Permutation (take k l ++ rest) l.
Proof.
  intros Hk. split.
  - rewrite length_take. lia.
  - exists (drop k l). rewrite take_drop. reflexivity.
Qed.

Lemma rng_demo_wf : rng_wf rng_demo.
Proof.
  constructor; cbn.
  - intros t. pose proof (Nat.mod_upper_bound t 4 ltac:(lia)) as Hb.
    unfold Qle, Qlt. cbn. lia.
  - intros t pool k Hk. destruct (Nat.even t).
    + apply take_sample. exact Hk.
    + destruct (take_sample (reverse pool) k) as [Hl [rest Hp]].
      { rewrite length_reverse. exact Hk. }
      split; [exact Hl|]. exists rest. rewrite Hp. apply reverse_Permutation.
  - intros _ n p. destruct (Qle_bool 1 p); lia.
  - intros _ n p Hp. destruct (Qle_bool 1 p) eqn:E; [reflexivity|].
    assert (Hle : (1 <= p)%Q) by (rewrite Hp; apply Qle_refl).
    apply Qle_bool_iff in Hle. congruence.
  - intros _ l. apply reverse_Permutation.
Qed.

Lemma rng_zero_wf : rng_wf rng_zero.
Proof.
  constructor; cbn.
  - intros _. split; [apply Qle_refl|reflexivity].
  - intros _ pool k Hk. apply take_sample. exact Hk.
  - intros _ n p. destruct (Qle_bool 1 p); lia.
  - intros _ n p Hp. destruct (Qle_bool 1 p) eqn:E; [reflexivity|].
    assert (Hle : (1 <= p)%Q) by (rewrite Hp; apply Qle_refl).
    apply Qle_bool_iff in Hle. congruence.
  - intros _ l. reflexivity.
Qed.

Lemma Qpower_unit q k :
  (0 <= q <= 1)%Q -> (0 <= q ^ Z.of_nat k <= 1)%Q.
Proof.
  intros [H0 H1]. induction k as [|k IH].
  - cbn. split; [discriminate|apply Qle_refl].
  - replace (Z.of_nat (S k)) with (1 + Z.of_nat k)%Z by lia.
    rewrite Qpower_plus' by lia. rewrite Qpower_1_r. split.
    + apply Qmult_le_0_compat; [exact H0|apply IH].
    + apply Qle_trans with (1 * 1)%Q; [|unfold Qle; cbn; lia].
      apply Qmult_le_compat_nonneg; split; try assumption; apply IH.
Qed.

Lemma Qminus_unit x : (0 <= x <= 1)%Q -> (0 <= 1 - x <= 1)%Q.
Proof.
  intros [H0 H1]. split.
  - apply (proj1 (Qle_minus_iff x 1)). exact H1.
  - apply (proj2 (Qle_minus_iff (1 - x) 1)).
    assert (E : (1 + - (1 - x) == x)%Q) by ring.
    rewrite E. exact H0.
Qed.

(** Exact arithmetic meets the contract of the float operations. *)
Lemma exact_float_ok g : exact_arithmetic g -> float_ok g.
Proof.
  intros (Es & Em & Ep). constructor; rewrite ?Es, ?Em, ?Ep.
  - intros x Hx. rewrite Hx. reflexivity.
  - intros x Hx. rewrite Hx. reflexivity.
  - apply Qminus_unit.
  - intros x y Hx. rewrite Hx. ring.
  - intros x y Hx [Hy0 Hy1]. split.
    + apply Qmult_le_0_compat; assumption.
    + apply Qle_trans with (x * 1)%Q.
      * apply Qmult_le_compat_nonneg; split;
          [exact Hx|apply Qle_refl|exact Hy0|exact Hy1].
      * rewrite Qmult_1_r. apply Qle_refl.
  - intros x. reflexivity.
  - intros x k Hx. rewrite Hx. apply Qpower_1.
  - intros x k Hx Hk. rewrite <- (Z2Nat.id k Hk). apply Qpower_unit. exact Hx.
Qed.

Lemma rng_demo_float_ok : float_ok rng_demo.
Proof. apply exact_float_ok. repeat split. Qed.

Lemma rng_zero_float_ok : float_ok rng_zero.
Proof. apply exact_float_ok. repeat split. Qed.

(** ** The end of a run *)

Lemma sim_inv g m t rows tot t' :
  sim g m t = Ok (rows, tot, t') ->
  exists s,
    sim_upto g m (days m) t = Ok (s, t') /\
    rows = rows_of (history s) /\
    length (h_S (history s)) = days m + 1 /\
    t_S tot = t_S (totals s).
Proof.
  intros H. unfold sim in H.
  apply bind_Ok in H. destruct H as (s & t1 & Hs & H).
  apply lift_Ok in H. destruct H as [H ->].
  exists s. split; [exact Hs|].
  unfold finalize in H.
  destruct (history_df m (history s)) as [df|e] eqn:Hdf; [|discriminate].
  unfold history_df in Hdf.
  destruct (negb (same_lengths (history s))); [discriminate|].
  destruct (Nat.eqb_spec (length (h_S (history s))) (days m + 1)) as [Hlen|];
    [|discriminate].
  cbn in Hdf. injection Hdf as <-.
  destruct (np_max (map r_infected (rows_of (history s)))); [|discriminate].
  destruct (np_max (map r_E (rows_of (history s))));
    [|destruct (np_max (map r_Q (rows_of (history s))));
      destruct (np_max (map r_V (rows_of (history s)))); discriminate].
  destruct (np_max (map r_Q (rows_of (history s))));
    [|destruct (np_max (map r_V (rows_of (history s)))); discriminate].
  destruct (np_max (map r_V (rows_of (history s)))); [|discriminate].
  injection H as <- <-. auto.
Qed.

(** * The claims *)

(** C1 (conservation). Every run that returns a history returns [days + 1]
    rows, the row at index [d] is the record of day [d], and in every row
    the susceptible, exposed, infectious and recovered counts add up to the
    population size [N]. *)
Theorem conservation_every_recorded_day g m t rows tot t' :
  rng_wf g ->
  sim g m t = Ok (rows, tot, t') ->
  length rows = days m + 1 /\
  forall d r, rows !! d = Some r ->
    r_Day r = Z.of_nat d /\
    (r_S r + r_E r + r_I r + r_R r = Z.of_nat (N m))%Z.
Proof.
  intros Hg H.
  destruct (sim_inv _ _ _ _ _ _ H) as (s & Hs & -> & Hlen & _).
  pose proof (sim_upto_inv _ _ _ _ _ _ Hg Hs) as I.
  split.
  - rewrite rows_of_length by apply I. exact Hlen.
  - intros d r Hr. split.
    + eapply inv_days; eauto.
    + eapply inv_conserved; eauto. apply list_elem_of_lookup. eauto.
Qed.

Lemma conservation_every_recorded_day_witness :
  rng_wf rng_demo /\
  sim rng_demo demo 0 = Ok (demo_rows, demo_totals, 25) /\
  length demo_rows = 4 /\
  forall d r, demo_rows !! d = Some r ->
    r_Day r = Z.of_nat d /\ (r_S r + r_E r + r_I r + r_R r = 6)%Z.
Proof.
  split; [exact rng_demo_wf|].
  split; [vm_compute; reflexivity|].
  apply (conservation_every_recorded_day rng_demo demo 0 demo_rows demo_totals 25).
  - exact rng_demo_wf.
  - vm_compute; reflexivity.
Defined.

(** C8 (monotone terminal states). In the history of every run, from each
    recorded day to the next the recovered count does not decrease and the
    vaccinated count does not decrease; and from one day of the run to the
    next, an agent that is Recovered stays Recovered and an agent that is
    vaccinated stays vaccinated. *)
Theorem recovered_vaccinated_monotone g m t rows tot t' :
  rng_wf g ->
  sim g m t = Ok (rows, tot, t') ->
  (forall d r1 r2, rows !! d = Some r1 -> rows !! (S d) = Some r2 ->
     (r_R r1 <= r_R r2)%Z /\ (r_V r1 <= r_V r2)%Z) /\
  (forall d s t1 s' t2 i,
     sim_upto g m d t = Ok (s, t1) -> sim_day g m d s t1 = Ok (s', t2) ->
     (states s !! i = Some RECOVERED -> states s' !! i = Some RECOVERED) /\
     (vaccinated s !! i = Some VACCINATED -> vaccinated s' !! i = Some VACCINATED)).
Proof.
  intros Hg H.
  destruct (sim_inv _ _ _ _ _ _ H) as (s & Hs & -> & Hlen & _).
  pose proof (sim_upto_inv _ _ _ _ _ _ Hg Hs) as I.
  split.
  - intros d r1 r2 H1 H2. eapply inv_mono; eauto.
  - intros d s0 t1 s' t2 i Hs0 Hday.
    pose proof (sim_upto_inv _ _ _ _ _ _ Hg Hs0) as I0. split.
    + intros Hi.
      destruct (lookup_lt_is_Some_2 (quarantined s0) i) as [q Hq].
      { rewrite (inv_len_quarantined _ _ _ I0), <- (inv_len_states _ _ _ I0).
        eapply lookup_lt_Some; eauto. }
      destruct (sim_day_trans _ _ _ _ _ _ _ Hday i _ _ Hi Hq)
        as (st' & q' & A & B & C).
      rewrite A. f_equal. eapply agent_trans_recovered; eauto.
    + intros Hi.
      destruct (sim_day_inv _ _ _ _ _ _ _ Hday)
        as (c & p & nv & tv & t0 & acc & _ & _ & Hv & _ & ->).
      destruct (vaccination_module_spec _ _ _ _ _ _ _ _ Hv) as (_ & Hkeep & _).
      cbn. auto.
Qed.

Lemma recovered_vaccinated_monotone_witness :
  rng_wf rng_demo /\
  sim rng_demo demo 0 = Ok (demo_rows, demo_totals, 25) /\
  forall d r1 r2, demo_rows !! d = Some r1 -> demo_rows !! (S d) = Some r2 ->
    (r_R r1 <= r_R r2)%Z /\ (r_V r1 <= r_V r2)%Z.
Proof.
  split; [exact rng_demo_wf|].
  split; [vm_compute; reflexivity|].
  apply (recovered_vaccinated_monotone rng_demo demo 0 demo_rows demo_totals 25).
  - exact rng_demo_wf.
  - vm_compute; reflexivity.
Defined.

(** C10 (quarantined agents are infectious). After the setup every flag is
    cleared; after the setup and after every day of a run, an agent whose
    quarantined flag is set is Infectious; and over one day the flag is newly
    set only on an agent that is Infectious before and after the day, and an
    agent that recovers ends the day with its flag cleared. *)
Theorem quarantined_flag_only_on_infectious g m d t s t' :
  rng_wf g ->
  d <= days m ->
  sim_upto g m d t = Ok (s, t') ->
  (d = 0 -> quarantined s = replicate (N m) 0) /\
  (forall i, quarantined s !! i = Some QUARANTINED ->
             states s !! i = Some INFECTIOUS) /\
  (forall s' t2 i st q st' q',
     sim_day g m d s t' = Ok (s', t2) ->
     states s !! i = Some st -> quarantined s !! i = Some q ->
     states s' !! i = Some st' -> quarantined s' !! i = Some q' ->
     (q <> QUARANTINED -> q' = QUARANTINED ->
      st = INFECTIOUS /\ st' = INFECTIOUS) /\
     (st = INFECTIOUS -> st' = RECOVERED -> q' = 0)).
Proof.
  intros Hg Hd Hs.
  pose proof (sim_upto_inv _ _ _ _ _ _ Hg Hs) as I.
  split; [|split].
  - intros ->. rewrite sim_upto_0 in Hs. unfold sim_init in Hs.
    monad_inv Hs. reflexivity.
  - apply I.
  - intros s' t2 i st q st' q' Hday Hst Hq Hst' Hq'.
    destruct (sim_day_trans _ _ _ _ _ _ _ Hday i st q Hst Hq)
      as (st1 & q1 & A & B & C).
    assert (st1 = st') by congruence. assert (q1 = q') by congruence.
    subst st1 q1. clear A B.
    split.
    + intros Hne Hset. destruct C; try contradiction; try discriminate; auto.
    + intros H1 H2. destruct C; try discriminate; try reflexivity.
      subst st. discriminate.
Qed.

Lemma quarantined_flag_only_on_infectious_witness :
  rng_wf rng_demo /\
  1 <= days demo /\
  sim_upto rng_demo demo 1 0 = Ok (demo_day1, 11) /\
  quarantined demo_day1 !! 3 = Some QUARANTINED /\
  states demo_day1 !! 3 = Some INFECTIOUS.
Proof.
  split; [exact rng_demo_wf|].
  split; [vm_compute; lia|].
  split; [vm_compute; reflexivity|].
  split; [reflexivity|].
  refine (proj1 (proj2 (quarantined_flag_only_on_infectious
                          rng_demo demo 1 0 demo_day1 11 rng_demo_wf _ _)) 3 _).
  - vm_compute; lia.
  - vm_compute; reflexivity.
  - reflexivity.
Defined.

(** ** The trigger test and the words of the specification *)

(** When the test of the code returns, it returns [true] exactly when the
    day trigger or the threshold trigger is met. *)
Lemma triggered_spec ed start et thr day sts b :
  triggered ed start et thr day sts = Ok b ->
  (b = true <-> day_trigger_met ed start day \/ threshold_trigger_met et thr sts).
Proof.
  unfold triggered, day_trigger_met, threshold_trigger_met, py_ge.
  destruct ed, start as [z|]; try discriminate.
  - destruct (Z.leb_spec z (Z.of_nat day)) as [Hz|Hz].
    + intros H. injection H as <-. split; [|reflexivity].
      intros _. left. split; [reflexivity|]. exists z. split; [reflexivity|exact Hz].
    + destruct et, thr as [y|]; try discriminate; intros H; injection H as <-.
      * split.
        -- intros Hy. apply Z.leb_le in Hy. right. split; [reflexivity|].
           exists y. split; [reflexivity|exact Hy].
        -- intros [(_ & z' & E & Hz')|(_ & y' & E & Hy')];
             injection E as <-; [lia|apply Z.leb_le; exact Hy'].
      * split; [discriminate|].
        intros [(_ & z' & E & Hz')|(H & _)]; [injection E as <-; lia|discriminate].
      * split; [discriminate|].
        intros [(_ & z' & E & Hz')|(H & _)]; [injection E as <-; lia|discriminate].
  - destruct et, thr as [y|]; try discriminate; intros H; injection H as <-.
    + split.
      * intros Hy. apply Z.leb_le in Hy. right. split; [reflexivity|].
        exists y. split; [reflexivity|exact Hy].
      * intros [(H & _)|(_ & y' & E & Hy')]; [discriminate|].
        injection E as <-. apply Z.leb_le; exact Hy'.
    + split; [discriminate|]. intros [(H & _)|(H & _)]; discriminate.
    + split; [discriminate|]. intros [(H & _)|(H & _)]; discriminate.
  - destruct et, thr as [y|]; try discriminate; intros H; injection H as <-.
    + split.
      * intros Hy. apply Z.leb_le in Hy. right. split; [reflexivity|].
        exists y. split; [reflexivity|exact Hy].
      * intros [(H & _)|(_ & y' & E & Hy')]; [discriminate|].
        injection E as <-. apply Z.leb_le; exact Hy'.
    + split; [discriminate|]. intros [(H & _)|(H & _)]; discriminate.
    + split; [discriminate|]. intros [(H & _)|(H & _)]; discriminate.
Qed.

Lemma quarantine_active_spec m day sts b :
  quarantine_active m day sts = Ok b ->
  (b = true <-> quarantine_is_active m day sts).
Proof.
  unfold quarantine_active, quarantine_is_active.
  destruct (quarantine_enabled (quarantine m)).
  - intros H. rewrite (triggered_spec _ _ _ _ _ _ _ H). tauto.
  - intros H. injection H as <-. split; [discriminate|]. intros [H _]. discriminate.
Qed.

Lemma masking_active_spec m day sts b :
  masking_active m day sts = Ok b ->
  (b = true <-> masking_is_active m day sts).
Proof.
  unfold masking_active, masking_is_active.
  destruct (masking_enabled (masking m)).
  - intros H. rewrite (triggered_spec _ _ _ _ _ _ _ H). tauto.
  - intros H. injection H as <-. split; [discriminate|]. intros [H _]. discriminate.
Qed.

Lemma distancing_active_spec m day sts b :
  distancing_active m day sts = Ok b ->
  (b = true <-> distancing_is_active m day sts).
Proof.
  unfold distancing_active, distancing_is_active.
  destruct (distancing_enabled (distancing m)).
  - intros H. rewrite (triggered_spec _ _ _ _ _ _ _ H). tauto.
  - intros H. injection H as <-. split; [discriminate|]. intros [H _]. discriminate.
Qed.

(** The probability and the contact count of a day, by whether masking and
    distancing are Active. *)
Lemma current_beta_spec g m day sts p :
  current_beta g m day sts = Ok p ->
  (masking_is_active m day sts ->
   p = fmul g (beta m) (fsub g 1 (mask_effectiveness (masking m)))) /\
  (~ masking_is_active m day sts -> p = beta m).
Proof.
  unfold current_beta. intros H.
  destruct (masking_active m day sts) as [b|e] eqn:Ha; [|discriminate].
  pose proof (masking_active_spec _ _ _ _ Ha) as Hb.
  destruct b; injection H as <-.
  - split; [reflexivity|]. intros Hn. exfalso. apply Hn, Hb. reflexivity.
  - split; [|reflexivity]. intros Hy. apply Hb in Hy. discriminate.
Qed.

Lemma current_contacts_spec m day sts c :
  current_contacts m day sts = Ok c ->
  (distancing_is_active m day sts ->
   forall r, reduced_contacts (distancing m) = Some r -> c = r) /\
  (~ distancing_is_active m day sts -> c = act_rate m).
Proof.
  unfold current_contacts. intros H.
  destruct (distancing_active m day sts) as [b|e] eqn:Ha; [|discriminate].
  pose proof (distancing_active_spec _ _ _ _ Ha) as Hb.
  destruct b; injection H as <-.
  - split; [|intros Hn; exfalso; apply Hn, Hb; reflexivity].
    intros _ r ->. reflexivity.
  - split; [|reflexivity]. intros Hy. apply Hb in Hy. discriminate.
Qed.

(** The loop body on an infectious agent, by the draws it reads. *)
Lemma update_agent_infectious g m day self c p i acc t acc' t' :
  update_agent g m day self c p i INFECTIOUS acc t = Ok (acc', t') ->
  i < length (new_states acc) ->
  i < length (new_quarantined acc) ->
  ((rand g t < gamma m)%Q ->
     new_states acc' !! i = Some RECOVERED /\
     new_quarantined acc' !! i = Some 0) /\
  (~ (rand g t < gamma m)%Q ->
     new_states acc' !! i = new_states acc !! i /\
     exists active,
       quarantine_active m day (states self) = Ok active /\
       (active = true ->
          ((rand g (S t) < quarantine_prob (quarantine m))%Q ->
             new_quarantined acc' !! i = Some QUARANTINED) /\
          (~ (rand g (S t) < quarantine_prob (quarantine m))%Q ->
             new_quarantined acc' !! i = new_quarantined acc !! i)) /\
       (active = false ->
          new_quarantined acc' !! i = new_quarantined acc !! i)).
Proof.
  intros H Hi Hi'. unfold update_agent in H.
  change (Nat.eqb INFECTIOUS SUSCEPTIBLE) with false in H.
  change (Nat.eqb INFECTIOUS EXPOSED) with false in H.
  change (Nat.eqb INFECTIOUS INFECTIOUS) with true in H.
  cbv iota in H.
  apply bind_Ok in H. destruct H as (u & t1 & Hu & H).
  apply np_rand_Ok in Hu. destruct Hu as [-> ->].
  destruct (Qlt_bool (rand g t) (gamma m)) eqn:Hrec.
  - apply Qlt_bool_iff in Hrec. apply ret_Ok in H. destruct H as [-> ->]. cbn.
    split; [|intros Hn; contradiction].
    intros _. split; apply list_lookup_insert_eq; assumption.
  - apply Qlt_bool_false_iff in Hrec.
    split; [intros Hlt; exfalso; exact (Qlt_not_le _ _ Hlt Hrec)|].
    intros _.
    apply bind_Ok in H. destruct H as (active & t1 & Hact & H).
    apply lift_Ok in Hact. destruct Hact as [Hact ->].
    destruct active.
    + apply bind_Ok in H. destruct H as (u2 & t2 & Hu2 & H).
      apply np_rand_Ok in Hu2. destruct Hu2 as [-> ->].
      destruct (Qlt_bool (rand g (S t)) (quarantine_prob (quarantine m))) eqn:Hq.
      * apply Qlt_bool_iff in Hq. apply ret_Ok in H. destruct H as [-> ->]. cbn.
        split; [reflexivity|]. exists true. split; [exact Hact|].
        split; [|discriminate]. intros _. split.
        -- intros _. apply list_lookup_insert_eq. assumption.
        -- intros Hn. contradiction.
      * apply Qlt_bool_false_iff in Hq. apply ret_Ok in H. destruct H as [-> ->].
        split; [reflexivity|]. exists true. split; [exact Hact|].
        split; [|discriminate]. intros _. split.
        -- intros Hlt. exfalso. exact (Qlt_not_le _ _ Hlt Hq).
        -- intros _. reflexivity.
    + apply ret_Ok in H. destruct H as [-> ->].
      split; [reflexivity|]. exists false. split; [exact Hact|].
      split; [discriminate|]. intros _. reflexivity.
Qed.

(** C7 (infectious agent). On every day [d] of a run, an agent [i] that is
    Infectious at the start of the day reads a uniform draw [u]: if
    [u < gamma] it ends the day Recovered with its quarantine flag cleared;
    otherwise it stays Infectious, and its flag is set exactly when
    quarantine is Active for the day (it is enabled, and its start day has
    come or the infectious count at the start of the day has reached its
    threshold) and a second uniform draw [u2] has [u2 < quarantine_prob];
    in all other cases the flag keeps its value. *)
Theorem infectious_agent_recovers_or_is_quarantined g m d t s t1 s' t2 i :
  rng_wf g ->
  d < days m ->
  sim_upto g m d t = Ok (s, t1) ->
  sim_day g m d s t1 = Ok (s', t2) ->
  states s !! i = Some INFECTIOUS ->
  exists tc,
    t1 <= tc /\
    (0 <= rand g tc < 1)%Q /\ (0 <= rand g (S tc) < 1)%Q /\
    ((rand g tc < gamma m)%Q ->
       states s' !! i = Some RECOVERED /\ quarantined s' !! i = Some 0) /\
    (~ (rand g tc < gamma m)%Q ->
       states s' !! i = Some INFECTIOUS /\
       (quarantine_is_active m d (states s) ->
          ((rand g (S tc) < quarantine_prob (quarantine m))%Q ->
             quarantined s' !! i = Some QUARANTINED) /\
          (~ (rand g (S tc) < quarantine_prob (quarantine m))%Q ->
             quarantined s' !! i = quarantined s !! i)) /\
       (~ quarantine_is_active m d (states s) ->
          quarantined s' !! i = quarantined s !! i)).
Proof.
  intros Hg Hd Hs Hday Hi.
  pose proof (sim_upto_inv _ _ _ _ _ _ Hg Hs) as I.
  destruct (sim_day_agent _ _ _ _ _ _ _ Hday) as (c & p & _ & _ & _ & _ & Hag).
  destruct (Hag i _ Hi) as (a1 & tc & a2 & t3 & Hu & Hle & E1 & E2 & E3 & E4).
  assert (Hi1 : i < length (new_states a1)) by (eapply lookup_lt_Some; eauto).
  assert (Hi2 : i < length (new_quarantined a1)).
  { apply lookup_lt_is_Some. rewrite E2. apply lookup_lt_is_Some.
    rewrite (inv_len_quarantined _ _ _ I), <- (inv_len_states _ _ _ I).
    eapply lookup_lt_Some; eauto. }
  destruct (update_agent_infectious _ _ _ _ _ _ _ _ _ _ _ Hu Hi1 Hi2) as [Hrec Hstay].
  exists tc. split; [exact Hle|].
  split; [apply (rand_range g Hg)|]. split; [apply (rand_range g Hg)|].
  split.
  - intros Hlt. destruct (Hrec Hlt) as [A B]. split; congruence.
  - intros Hn. destruct (Hstay Hn) as (A & active & Hact & Hon & Hoff).
    split; [congruence|].
    pose proof (quarantine_active_spec _ _ _ _ Hact) as Hspec. split.
    + intros Ha. apply Hspec in Ha. destruct (Hon Ha) as [B C]. split.
      * intros Hlt. rewrite E4. auto.
      * intros Hn2. rewrite E4, <- E2. auto.
    + intros Ha. rewrite E4, <- E2. apply Hoff.
      destruct active; [|reflexivity]. exfalso. apply Ha, Hspec. reflexivity.
Qed.

Lemma infectious_agent_recovers_or_is_quarantined_witness :
  rng_wf rng_demo /\
  0 < days demo /\
  sim_upto rng_demo demo 0 0 = Ok (demo_day0, 1) /\
  sim_day rng_demo demo 0 demo_day0 1 = Ok (demo_day1, 11) /\
  states demo_day0 !! 3 = Some INFECTIOUS /\
  exists tc, 1 <= tc /\ (0 <= rand rng_demo tc < 1)%Q.
Proof.
  split; [exact rng_demo_wf|].
  split; [vm_compute; lia|].
  split; [vm_compute; reflexivity|].
  split; [vm_compute; reflexivity|].
  split; [reflexivity|].
  destruct (infectious_agent_recovers_or_is_quarantined
              rng_demo demo 0 0 demo_day0 1 demo_day1 11 3)
    as (tc & Hle & Hr & _).
  - exact rng_demo_wf.
  - vm_compute; lia.
  - vm_compute; reflexivity.
  - vm_compute; reflexivity.
  - reflexivity.
  - exists tc. split; assumption.
Defined.

(** ** Contacts that transmit *)

Lemma take_at_cons a j idx r :
  take_at a (j :: idx) = Ok r ->
  exists x xs, a !! j = Some x /\ take_at a idx = Ok xs /\ r = x :: xs.
Proof.
  cbn [take_at]. destruct (a !! j) as [x|]; [|discriminate].
  destruct (take_at a idx) as [xs|]; [|discriminate].
  intros H. injection H as <-. eauto.
Qed.

(** The exponent the code computes, infectious contacts minus quarantined
    contacts, is the number of contacts that are infectious and not
    quarantined, because a quarantined agent is infectious. *)
Lemma exponent_is_transmitting s contacts :
  (forall i, quarantined s !! i = Some QUARANTINED ->
             states s !! i = Some INFECTIOUS) ->
  forall cs qs,
  take_at (states s) contacts = Ok cs ->
  take_at (quarantined s) contacts = Ok qs ->
  (count_eq INFECTIOUS cs - count_eq QUARANTINED qs)%Z
  = Z.of_nat (transmitting s contacts).
Proof.
  intros Hinv. induction contacts as [|j rest IH]; intros cs qs Hc Hq.
  - cbn in Hc, Hq. injection Hc as <-. injection Hq as <-. reflexivity.
  - apply take_at_cons in Hc. destruct Hc as (st & cs' & Hst & Hc & ->).
    apply take_at_cons in Hq. destruct Hq as (q & qs' & Hq0 & Hq & ->).
    specialize (IH _ _ Hc Hq).
    cbn [count_eq transmitting]. unfold transmits. rewrite Hst, Hq0.
    destruct (Nat.eqb_spec q QUARANTINED) as [->|Hnq].
    + rewrite (Hinv j Hq0) in Hst. injection Hst as <-.
      cbn. lia.
    + destruct (Nat.eqb st INFECTIOUS); cbn; lia.
Qed.

Lemma transmitting_0_without_infectious s contacts :
  forall cs,
  take_at (states s) contacts = Ok cs ->
  any_eq INFECTIOUS cs = false ->
  transmitting s contacts = 0.
Proof.
  induction contacts as [|j rest IH]; intros cs Hc Hany; [reflexivity|].
  apply take_at_cons in Hc. destruct Hc as (st & cs' & Hst & Hc & ->).
  cbn in Hany. apply orb_false_iff in Hany. destruct Hany as [Hj Hany].
  cbn [transmitting]. rewrite (IH _ Hc Hany).
  unfold transmits. rewrite Hst. destruct (quarantined s !! j); [|reflexivity].
  rewrite Hj. reflexivity.
Qed.

(** The loop body on a susceptible agent, by the draws it reads. *)
Lemma update_agent_susceptible g m day self c p i acc t acc' t' :
  update_agent g m day self c p i SUSCEPTIBLE acc t = Ok (acc', t') ->
  i < length (new_states acc) ->
  exists cs,
    take_at (states self) (choice g t (seq 0 (N m)) c) = Ok cs /\
    (any_eq INFECTIOUS cs = false ->
       new_states acc' !! i = new_states acc !! i) /\
    (any_eq INFECTIOUS cs = true ->
       exists qs,
         take_at (quarantined self) (choice g t (seq 0 (N m)) c) = Ok qs /\
         let k := (count_eq INFECTIOUS cs - count_eq QUARANTINED qs)%Z in
         ((rand g (S t) < fsub g 1 (fpow g (fsub g 1 p) k))%Q ->
            new_states acc' !! i = Some EXPOSED) /\
         (~ (rand g (S t) < fsub g 1 (fpow g (fsub g 1 p) k))%Q ->
            new_states acc' !! i = new_states acc !! i)).
Proof.
  intros H Hi. unfold update_agent in H.
  change (Nat.eqb SUSCEPTIBLE SUSCEPTIBLE) with true in H. cbv iota in H.
  apply bind_Ok in H. destruct H as (contacts & t1 & Hch & H).
  apply np_choice_Ok in Hch. destruct Hch as (_ & -> & ->).
  apply bind_Ok in H. destruct H as (cs & t1 & Hcs & H).
  apply lift_Ok in Hcs. destruct Hcs as [Hcs ->].
  exists cs. split; [exact Hcs|].
  destruct (any_eq INFECTIOUS cs).
  - split; [discriminate|]. intros _.
    apply bind_Ok in H. destruct H as (u & t1 & Hu & H).
    apply np_rand_Ok in Hu. destruct Hu as [-> ->].
    apply bind_Ok in H. destruct H as (qs & t1 & Hqs & H).
    apply lift_Ok in Hqs. destruct Hqs as [Hqs ->].
    exists qs. split; [exact Hqs|]. cbv zeta.
    destruct (Qlt_bool (rand g (S t))
                (fsub g 1 (fpow g (fsub g 1 p)
                             (count_eq INFECTIOUS cs - count_eq QUARANTINED qs))))
      eqn:Hlt.
    + apply Qlt_bool_iff in Hlt. apply ret_Ok in H. destruct H as [-> ->]. cbn.
      split; [|intros Hn; contradiction].
      intros _. apply list_lookup_insert_eq. exact Hi.
    + apply Qlt_bool_false_iff in Hlt. apply ret_Ok in H. destruct H as [-> ->].
      split; [|reflexivity].
      intros Hlt'. exfalso. exact (Qlt_not_le _ _ Hlt' Hlt).
  - apply ret_Ok in H. destruct H as [-> ->].
    split; [reflexivity|discriminate].
Qed.

(** C2 (susceptible agent), as the code has it. On every day [d] of a run,
    an agent [i] that is Susceptible at the start of the day samples the
    day's number of contacts [c] from the whole population: the reduced
    count when distancing is Active, the base rate otherwise. With [k] the
    number of sampled contacts that are Infectious and not quarantined and
    [p] the day's transmission probability ([beta * (1 - mask_effectiveness)]
    as a float when masking is Active, [beta] otherwise), the agent stays
    Susceptible when [k = 0], and when [k > 0] it becomes Exposed exactly
    when its uniform draw [u] is below the float that the platform computes
    for [1 - (1 - p) ** k]. *)
Theorem susceptible_agent_exposure g m d t s t1 s' t2 i :
  rng_wf g ->
  float_ok g ->
  d < days m ->
  sim_upto g m d t = Ok (s, t1) ->
  sim_day g m d s t1 = Ok (s', t2) ->
  states s !! i = Some SUSCEPTIBLE ->
  exists c p tc,
    (distancing_is_active m d (states s) ->
     forall r, reduced_contacts (distancing m) = Some r -> c = r) /\
    (~ distancing_is_active m d (states s) -> c = act_rate m) /\
    (masking_is_active m d (states s) ->
     p = fmul g (beta m) (fsub g 1 (mask_effectiveness (masking m)))) /\
    (~ masking_is_active m d (states s) -> p = beta m) /\
    t1 <= tc /\
    (0 <= rand g (S tc) < 1)%Q /\
    let contacts := choice g tc (seq 0 (N m)) c in
    let k := transmitting s contacts in
    (k = 0 -> states s' !! i = Some SUSCEPTIBLE) /\
    (0 < k ->
       ((rand g (S tc) < fsub g 1 (fpow g (fsub g 1 p) (Z.of_nat k)))%Q ->
          states s' !! i = Some EXPOSED) /\
       (~ (rand g (S tc) < fsub g 1 (fpow g (fsub g 1 p) (Z.of_nat k)))%Q ->
          states s' !! i = Some SUSCEPTIBLE)).
Proof.
  intros Hg Hf Hd Hs Hday Hi.
  pose proof (sim_upto_inv _ _ _ _ _ _ Hg Hs) as I.
  destruct (sim_day_agent _ _ _ _ _ _ _ Hday) as (c & p & Hc & Hp & _ & _ & Hag).
  destruct (Hag i _ Hi) as (a1 & tc & a2 & t3 & Hu & Hle & E1 & E2 & E3 & E4).
  assert (Hi1 : i < length (new_states a1)) by (eapply lookup_lt_Some; eauto).
  destruct (update_agent_susceptible _ _ _ _ _ _ _ _ _ _ _ Hu Hi1)
    as (cs & Hcs & Hnone & Hsome).
  exists c, p, tc.
  split; [exact (proj1 (current_contacts_spec _ _ _ _ Hc))|].
  split; [exact (proj2 (current_contacts_spec _ _ _ _ Hc))|].
  split; [exact (proj1 (current_beta_spec _ _ _ _ _ Hp))|].
  split; [exact (proj2 (current_beta_spec _ _ _ _ _ Hp))|].
  split; [exact Hle|].
  split; [apply (rand_range g Hg)|]. cbv zeta.
  destruct (any_eq INFECTIOUS cs) eqn:Hany.
  - destruct (Hsome eq_refl) as (qs & Hqs & Hexp & Hstay). cbv zeta in Hexp, Hstay.
    rewrite (exponent_is_transmitting s _ (inv_quarantined _ _ _ I) _ _ Hcs Hqs)
      in Hexp, Hstay.
    split.
    + intros Hk. rewrite Hk in Hstay. rewrite E3, Hstay, E1; [reflexivity|].
      intros Hlt. destruct (rand_range g Hg (S tc)) as [H0 _].
      apply (Qlt_not_le _ _ Hlt).
      change (Z.of_nat 0) with 0%Z.
      rewrite (fsub_1_1 g Hf _ (fpow_0 g Hf _)). exact H0.
    + intros _. split.
      * intros Hlt. rewrite E3. auto.
      * intros Hn. rewrite E3, Hstay, E1; auto.
  - rewrite (transmitting_0_without_infectious _ _ _ Hcs Hany).
    split; [|intros Hk; inversion Hk].
    intros _. rewrite E3, Hnone, E1; reflexivity.
Qed.

Lemma susceptible_agent_exposure_witness :
  rng_wf rng_demo /\
  float_ok rng_demo /\
  0 < days demo /\
  sim_upto rng_demo demo 0 0 = Ok (demo_day0, 1) /\
  sim_day rng_demo demo 0 demo_day0 1 = Ok (demo_day1, 11) /\
  states demo_day0 !! 0 = Some SUSCEPTIBLE /\
  exists c p,
    (~ distancing_is_active demo 0 (states demo_day0) -> c = act_rate demo) /\
    (~ masking_is_active demo 0 (states demo_day0) -> p = beta demo).
Proof.
  split; [exact rng_demo_wf|].
  split; [exact rng_demo_float_ok|].
  split; [vm_compute; lia|].
  split; [vm_compute; reflexivity|].
  split; [vm_compute; reflexivity|].
  split; [reflexivity|].
  destruct (susceptible_agent_exposure
              rng_demo demo 0 0 demo_day0 1 demo_day1 11 0)
    as (c & p & tc & _ & Hc & _ & Hp & _).
  - exact rng_demo_wf.
  - exact rng_demo_float_ok.
  - vm_compute; lia.
  - vm_compute; reflexivity.
  - vm_compute; reflexivity.
  - reflexivity.
  - exists c, p. split; assumption.
Defined.

(** The formula of the bound is rounded. In the run of [rounding_model]
    with binary64 arithmetic the susceptible agent meets one infectious
    contact who is not quarantined ([k = 1]) with [p = 0.1], and its draw
    [0.09999999999999998] is below [1 - (1 - p)^k = 0.1]; the code compares
    the draw with the float [1 - (1 - 0.1) ** 1 = 0.09999999999999998], and
    the agent stays Susceptible. *)
Lemma exposure_bound_is_rounded :
  sim_upto rng_b64 rounding_model 0 0 = Ok (rounding_day0, 1) /\
  sim_day rng_b64 rounding_model 0 rounding_day0 1 = Ok (rounding_day1, 4) /\
  states rounding_day0 !! 1 = Some SUSCEPTIBLE /\
  ~ masking_is_active rounding_model 0 (states rounding_day0) /\
  ~ distancing_is_active rounding_model 0 (states rounding_day0) /\
  transmitting rounding_day0
    (choice rng_b64 2 (seq 0 (N rounding_model)) (act_rate rounding_model)) = 1 /\
  rand rng_b64 3 = float_below_0_1 /\
  (float_below_0_1 < 1 - (1 - beta rounding_model) ^ 1)%Q /\
  fsub rng_b64 1 (fpow rng_b64 (fsub rng_b64 1 (beta rounding_model)) 1)
  = float_below_0_1 /\
  states rounding_day1 !! 1 = Some SUSCEPTIBLE.
Proof.
  split; [vm_compute; reflexivity|]. split; [vm_compute; reflexivity|].
  split; [reflexivity|].
  split; [intros [H _]; discriminate|]. split; [intros [H _]; discriminate|].
  split; [reflexivity|]. split; [reflexivity|].
  split; [vm_compute; reflexivity|]. split; [vm_compute; reflexivity|].
  reflexivity.
Qed.

(** ** Configuration keeps the model well-configured *)

Lemma model_ok_init n ii ie dd b sg gm ar :
  ar <= n -> ie + ii <= n -> model_ok (init n ii ie dd b sg gm ar) = true.
Proof.
  intros H1 H2. unfold model_ok, init. cbn.
  apply Nat.leb_le in H1. apply Nat.leb_le in H2. rewrite H1, H2. reflexivity.
Qed.

Lemma truthy_is_set o : truthy o = true -> is_set o = true.
Proof. destruct o; [reflexivity|discriminate]. Qed.

Ltac split_ok H :=
  unfold model_ok, trigger_ok in H;
  repeat match goal with
         | H' : _ && _ = true |- _ =>
             apply andb_true_iff in H'; destruct H' as [? ?]
         end.

Ltac prove_ok :=
  unfold model_ok, trigger_ok; cbn;
  repeat match goal with
         | H : truthy _ = true |- _ => apply truthy_is_set in H
         end;
  repeat match goal with
         | H : _ = true |- _ => rewrite H
         end;
  cbn; rewrite ?andb_true_r; reflexivity.

Lemma apply_quarantine_ok m q dy th m' :
  model_ok m = true -> apply_quarantine m q dy th = Ok m' -> model_ok m' = true.
Proof.
  intros Hok H. unfold apply_quarantine in H. split_ok Hok.
  destruct (negb (in_unit q)); [discriminate|].
  destruct (truthy dy) eqn:Hd; destruct (truthy th) eqn:Ht; cbn in H;
    try discriminate; injection H as <-; prove_ok.
Qed.

Lemma apply_masking_ok m e dy th m' :
  model_ok m = true -> apply_masking m e dy th = Ok m' -> model_ok m' = true.
Proof.
  intros Hok H. unfold apply_masking in H. split_ok Hok.
  destruct (negb (in_unit e)); [discriminate|].
  destruct (truthy dy) eqn:Hd; destruct (truthy th) eqn:Ht; cbn in H;
    try discriminate; injection H as <-; prove_ok.
Qed.

Lemma apply_distancing_ok m r dy th m' :
  model_ok m = true -> apply_distancing m r dy th = Ok m' -> model_ok m' = true.
Proof.
  intros Hok H. unfold apply_distancing in H. split_ok Hok.
  destruct (Nat.ltb 0 r && Nat.ltb r (act_rate m)) eqn:Hr; [|discriminate].
  apply andb_true_iff in Hr. destruct Hr as [_ Hr].
  assert (Hle : Nat.leb r (N m) = true).
  { apply Nat.leb_le. apply Nat.ltb_lt in Hr.
    match goal with
    | Ha : Nat.leb (act_rate m) (N m) = true |- _ => apply Nat.leb_le in Ha; lia
    end. }
  destruct (truthy dy) eqn:Hd; destruct (truthy th) eqn:Ht; cbn in H;
    try discriminate; injection H as <-; prove_ok.
Qed.

Lemma apply_vaccination_ok m r dy dev m' :
  model_ok m = true -> apply_vaccination m r dy dev = Ok m' -> model_ok m' = true.
Proof.
  intros Hok H. unfold apply_vaccination in H.
  destruct (in_unit r) eqn:Hr; [|discriminate]. cbn in H.
  destruct (truthy dy) eqn:Hd.
  - injection H as <-. split_ok Hok.
    assert (Hs : is_set (if truthy dev
                         then match dy, dev with
                              | Some d, Some b => Some (d + b)%Z
                              | _, _ => dy
                              end
                         else dy) = true).
    { destruct dy; [|discriminate]. destruct (truthy dev); [|reflexivity].
      destruct dev; reflexivity. }
    prove_ok.
  - cbn in H. rewrite andb_true_r in H.
    destruct (truthy dev); [discriminate|]. injection H as <-. exact Hok.
Qed.

(** Every model the interface builds within the preconditions of the
    constructor is well-configured. *)
Lemma configured_model_ok m : configured m -> model_ok m = true.
Proof.
  induction 1.
  - apply model_ok_init; assumption.
  - eapply apply_quarantine_ok; eauto.
  - eapply apply_vaccination_ok; eauto.
  - eapply apply_masking_ok; eauto.
  - eapply apply_distancing_ok; eauto.
Qed.

(** ** A well-configured run raises nothing *)

Lemma triggered_total ed start et thr day sts :
  trigger_ok ed start et thr = true ->
  exists b, triggered ed start et thr day sts = Ok b.
Proof.
  unfold trigger_ok, triggered. intros H.
  apply andb_true_iff in H. destruct H as [H1 H2].
  destruct ed, start as [z|]; try discriminate; cbn.
  - destruct (Z.leb z (Z.of_nat day)); [eauto|].
    destruct et, thr; try discriminate; cbn; eauto.
  - destruct et, thr; try discriminate; cbn; eauto.
  - destruct et, thr; try discriminate; cbn; eauto.
Qed.

Lemma current_contacts_total m day sts :
  model_ok m = true ->
  exists c, current_contacts m day sts = Ok c /\ c <= N m.
Proof.
  intros Hok. unfold model_ok in Hok.
  repeat (apply andb_true_iff in Hok; destruct Hok as [Hok ?]).
  apply Nat.leb_le in Hok.
  unfold current_contacts, distancing_active.
  destruct (distancing_enabled (distancing m)); [|eauto].
  destruct (triggered_total _ _ _ _ day sts H2) as [b Hb]. rewrite Hb.
  destruct b; [|eauto].
  destruct (reduced_contacts (distancing m)) as [c|] eqn:Hc.
  - apply Nat.leb_le in H1. eauto.
  - exfalso. unfold triggered in Hb.
    apply andb_true_iff in H1. destruct H1 as [A B].
    apply negb_true_iff in A. apply negb_true_iff in B.
    rewrite A, B in Hb. discriminate.
Qed.

Lemma current_beta_total g m day sts :
  model_ok m = true -> exists p, current_beta g m day sts = Ok p.
Proof.
  intros Hok. unfold model_ok in Hok.
  repeat (apply andb_true_iff in Hok; destruct Hok as [Hok ?]).
  unfold current_beta, masking_active.
  destruct (masking_enabled (masking m)); [|eauto].
  destruct (triggered_total _ _ _ _ day sts H3) as [b Hb]. rewrite Hb.
  destruct b; eauto.
Qed.

Lemma quarantine_active_total m day sts :
  model_ok m = true -> exists b, quarantine_active m day sts = Ok b.
Proof.
  intros Hok. unfold model_ok in Hok.
  repeat (apply andb_true_iff in Hok; destruct Hok as [Hok ?]).
  unfold quarantine_active. destruct (quarantine_enabled (quarantine m)); [|eauto].
  apply triggered_total. assumption.
Qed.

Lemma take_at_total a idx :
  (forall j, j ∈ idx -> j < length a) -> exists r, take_at a idx = Ok r.
Proof.
  induction idx as [|j idx IH]; intros Hin; cbn [take_at]; [eauto|].
  destruct (lookup_lt_is_Some_2 a j) as [x Hx].
  { apply Hin. left. }
  rewrite Hx. destruct IH as [r Hr].
  { intros k Hk. apply Hin. right. exact Hk. }
  rewrite Hr. eauto.
Qed.

Lemma put_at_total v idx :
  forall a, (forall j, j ∈ idx -> j < length a) -> exists r, put_at a idx v = Ok r.
Proof.
  induction idx as [|j idx IH]; intros a Hin; cbn [put_at]; [eauto|].
  destruct (Nat.ltb_spec j (length a)) as [Hj|Hj].
  - apply IH. intros k Hk. rewrite length_insert. apply Hin. right. exact Hk.
  - exfalso. specialize (Hin j ltac:(left)). lia.
Qed.

(** A sample without replacement is drawn from the pool. *)
Lemma choice_in_pool g t pool k j :
  rng_wf g -> k <= length pool -> j ∈ choice g t pool k -> j ∈ pool.
Proof.
  intros Hg Hk Hj.
  destruct (choice_sample g Hg t pool k Hk) as [_ [rest Hp]].
  rewrite <- Hp. apply elem_of_app. left. exact Hj.
Qed.

Lemma where_ne_from_bound v l : forall i j,
  j ∈ where_ne_from i v l -> i <= j < i + length l.
Proof.
  induction l as [|x l IH]; intros i j Hj; cbn [where_ne_from] in Hj.
  - inversion Hj.
  - cbn [length]. destruct (Nat.eqb x v).
    + specialize (IH _ _ Hj). lia.
    + apply elem_of_cons in Hj. destruct Hj as [->|Hj]; [lia|].
      specialize (IH _ _ Hj). lia.
Qed.

Lemma update_agent_total g m day self c p i st acc t :
  rng_wf g ->
  model_ok m = true ->
  c <= N m ->
  length (states self) = N m ->
  length (quarantined self) = N m ->
  exists acc' t', update_agent g m day self c p i st acc t = Ok (acc', t').
Proof.
  intros Hg Hok Hc L1 L2.
  destruct (quarantine_active_total m day (states self) Hok) as [act Hact].
  assert (Hpool : forall j, j ∈ choice g t (seq 0 (N m)) c -> j < N m).
  { intros j Hj. apply choice_in_pool in Hj; [|exact Hg|rewrite length_seq; exact Hc].
    apply elem_of_seq in Hj. lia. }
  destruct (take_at_total (states self) (choice g t (seq 0 (N m)) c)) as [cs Hcs].
  { intros j Hj. rewrite L1. auto. }
  destruct (take_at_total (quarantined self) (choice g t (seq 0 (N m)) c)) as [qs Hqs].
  { intros j Hj. rewrite L2. auto. }
  apply Nat.leb_le in Hc.
  unfold update_agent, bind, lift, ret, np_choice, np_rand.
  destruct (Nat.eqb st SUSCEPTIBLE).
  { rewrite length_seq, Hc, Hcs.
    destruct (any_eq INFECTIOUS cs); [|eauto].
    rewrite Hqs. destruct (Qlt_bool _ _); eauto. }
  destruct (Nat.eqb st EXPOSED).
  { destruct (Qlt_bool _ _); eauto. }
  destruct (Nat.eqb st INFECTIOUS); [|eauto].
  destruct (Qlt_bool _ _); [eauto|].
  rewrite Hact. destruct act; [|eauto].
  destruct (Qlt_bool _ _); eauto.
Qed.

Lemma agents_loop_total g m day self c p sts :
  rng_wf g ->
  model_ok m = true ->
  c <= N m ->
  length (states self) = N m ->
  length (quarantined self) = N m ->
  forall i acc t,
  exists acc' t', agents_loop g m day self c p i sts acc t = Ok (acc', t').
Proof.
  intros Hg Hok Hc L1 L2.
  induction sts as [|st rest IH]; intros i acc t; cbn [agents_loop].
  - unfold ret. eauto.
  - destruct (update_agent_total g m day self c p i st acc t Hg Hok Hc L1 L2)
      as (acc1 & t1 & H1).
    rewrite (bind_Ok_intro _ _ _ _ _ H1). apply IH.
Qed.

Lemma vaccination_module_total g m day self t :
  rng_wf g ->
  model_ok m = true ->
  exists r t', vaccination_module g m day self t = Ok (r, t').
Proof.
  intros Hg Hok. unfold model_ok in Hok.
  repeat (apply andb_true_iff in Hok; destruct Hok as [Hok ?]).
  unfold vaccination_module, bind, lift, ret, np_binomial, np_choice.
  destruct (vaccination_enabled (vaccination m)); [|eauto].
  destruct (vaccine_start (vaccination m)) as [z|]; [|discriminate]. cbn [py_ge].
  destruct (Z.leb z (Z.of_nat day)); [|eauto].
  destruct (Nat.ltb 0 (length (where_ne VACCINATED (vaccinated self)))); [|eauto].
  rewrite H.
  set (pool := where_ne VACCINATED (vaccinated self)).
  set (num := binomial g t (length pool) (vaccine_rate (vaccination m))).
  destruct (Nat.ltb 0 num); [|eauto].
  assert (Hnum : num <= length pool) by apply (binomial_le g Hg).
  destruct (Nat.leb_spec num (length pool)) as [_|Hbad]; [|lia].
  destruct (put_at_total VACCINATED (choice g (S t) pool num) (vaccinated self))
    as [nv Hnv].
  { intros j Hj. apply choice_in_pool in Hj; [|exact Hg|exact Hnum].
    apply where_ne_from_bound in Hj. lia. }
  rewrite Hnv. eauto.
Qed.

Lemma sim_day_total g m d s t :
  rng_wf g ->
  model_ok m = true ->
  length (states s) = N m ->
  length (quarantined s) = N m ->
  exists s' t', sim_day g m d s t = Ok (s', t').
Proof.
  intros Hg Hok L1 L2.
  destruct (current_contacts_total m d (states s) Hok) as (c & Hc & Hle).
  destruct (current_beta_total g m d (states s) Hok) as (p & Hp).
  destruct (vaccination_module_total g m d s t Hg Hok) as (vt & t0 & Hv).
  destruct (agents_loop_total g m d s c p (states s) Hg Hok Hle L1 L2 0
              {| new_states := states s; new_quarantined := quarantined s;
                 acc_totals := snd vt |} t0) as (acc & t1 & Hloop).
  unfold sim_day, bind, lift, ret. rewrite Hc, Hp, Hv, Hloop. eauto.
Qed.

Lemma sim_upto_total g m t :
  rng_wf g -> model_ok m = true ->
  forall d, exists s t', sim_upto g m d t = Ok (s, t').
Proof.
  intros Hg Hok. induction d as [|d IH].
  - rewrite sim_upto_0. unfold sim_init, bind, np_shuffle, ret. eauto.
  - destruct IH as (s & t1 & Hs). rewrite sim_upto_S, Hs.
    pose proof (sim_upto_inv _ _ _ _ _ _ Hg Hs) as I.
    apply sim_day_total; auto; apply I.
Qed.

Lemma np_max_total l : l <> [] -> exists z, np_max l = Ok z.
Proof. destruct l; [contradiction|]. cbn. eauto. Qed.

Lemma finalize_total m s :
  run_inv m (days m) s -> exists tot, finalize m s = Ok (rows_of (history s), tot).
Proof.
  intros I. unfold finalize, history_df.
  rewrite (inv_same_lengths _ _ _ I), (inv_rows _ _ _ I), Nat.eqb_refl. cbn [negb].
  assert (Hne : rows_of (history s) <> []).
  { intros E. pose proof (inv_first _ _ _ I) as F. rewrite E in F. discriminate. }
  assert (Hmap : forall f : Row -> Z, map f (rows_of (history s)) <> []).
  { intros f E. apply Hne. destruct (rows_of (history s)); [reflexivity|discriminate]. }
  destruct (np_max_total _ (Hmap r_infected)) as [mi ->].
  destruct (np_max_total _ (Hmap r_E)) as [me ->].
  destruct (np_max_total _ (Hmap r_Q)) as [mq ->].
  destruct (np_max_total _ (Hmap r_V)) as [mv ->].
  eauto.
Qed.

(** A well-configured model run with a generator that meets the contract
    returns a history and totals. *)
Lemma sim_total g m t :
  rng_wf g -> model_ok m = true ->
  exists s tot t',
    sim_upto g m (days m) t = Ok (s, t') /\
    sim g m t = Ok (rows_of (history s), tot, t').
Proof.
  intros Hg Hok.
  destruct (sim_upto_total g m t Hg Hok (days m)) as (s & t' & Hs).
  pose proof (sim_upto_inv _ _ _ _ _ _ Hg Hs) as I.
  destruct (finalize_total m s I) as [tot Hf].
  exists s, tot, t'. split; [exact Hs|].
  unfold sim, bind, lift. rewrite Hs, Hf. reflexivity.
Qed.

(** ** The initial population *)

Lemma initial_counts_from ie ii n : forall a,
  let l := map (fun k =>
                  if Nat.ltb k ie then EXPOSED
                  else if Nat.ltb k (ie + ii) then INFECTIOUS
                  else SUSCEPTIBLE) (seq a n) in
  count_eq EXPOSED l = Z.of_nat (Nat.min (a + n) ie - Nat.min a ie) /\
  count_eq INFECTIOUS l
  = Z.of_nat ((Nat.min (a + n) (ie + ii) - Nat.min a (ie + ii))
              - (Nat.min (a + n) ie - Nat.min a ie)) /\
  count_eq SUSCEPTIBLE l
  = Z.of_nat (n - (Nat.min (a + n) (ie + ii) - Nat.min a (ie + ii))) /\
  count_eq RECOVERED l = 0%Z.
Proof.
  induction n as [|n IH]; intros a; cbv zeta.
  - cbn. repeat split; lia.
  - cbn [seq map count_eq].
    destruct (IH (S a)) as (E1 & E2 & E3 & E4). cbv zeta in E1, E2, E3, E4.
    rewrite E1, E2, E3, E4.
    destruct (Nat.ltb_spec a ie) as [H1|H1];
      [|destruct (Nat.ltb_spec a (ie + ii)) as [H2|H2]];
      unfold EXPOSED, INFECTIOUS, SUSCEPTIBLE, RECOVERED; cbn [Nat.eqb];
      repeat split; lia.
Qed.

(** With blocks that fit, the population after the setup has the counts the
    day-0 record is built from. *)
Lemma sim_init_counts g m t s t' :
  rng_wf g ->
  init_exposed m + init_infected m <= N m ->
  sim_init g m t = Ok (s, t') ->
  row_of_counts 0 (states s) (vaccinated s) (quarantined s) = day0_row m.
Proof.
  intros Hg Hfit H. unfold sim_init in H. monad_inv H.
  pose proof (shuffle_perm g Hg t (initial_block m)) as Hperm.
  unfold row_of_counts, day0_row. cbn [states vaccinated quarantined].
  rewrite !(count_eq_Permutation _ _ _ Hperm).
  rewrite !count_eq_replicate_ne by discriminate.
  destruct (initial_counts_from (init_exposed m) (init_infected m) (N m) 0)
    as (E1 & E2 & E3 & E4).
  cbv zeta in E1, E2, E3, E4. unfold initial_block.
  rewrite E1, E2, E3, E4. f_equal; lia.
Qed.

(** C9 (the history of a run). A well-configured model, run with a generator
    that meets the contract, returns a history of exactly [days + 1] rows
    whose first row holds the counts of the population as set up, before any
    day is simulated; for the parameters of Scenario A the history is the
    single row [(0, 995, 0, 5, 0, 0, 0, 5)]. *)
Theorem run_produces_history g m t :
  rng_wf g ->
  model_ok m = true ->
  exists s0 t0 rows tot t',
    sim_init g m t = Ok (s0, t0) /\
    sim g m t = Ok (rows, tot, t') /\
    length rows = days m + 1 /\
    rows !! 0 = Some (row_of_counts 0 (states s0) (vaccinated s0) (quarantined s0)) /\
    (m = scenario_A ->
     rows = [{| r_Day := 0; r_S := 995; r_E := 0; r_I := 5; r_R := 0;
                r_Q := 0; r_V := 0; r_infected := 5 |}]).
Proof.
  intros Hg Hok.
  destruct (sim_total g m t Hg Hok) as (s & tot & t' & Hs & Hsim).
  pose proof (sim_upto_inv _ _ _ _ _ _ Hg Hs) as I.
  destruct (sim_upto_total g m t Hg Hok 0) as (s0 & t0 & Hs0).
  rewrite sim_upto_0 in Hs0.
  assert (Hfit : init_exposed m + init_infected m <= N m).
  { unfold model_ok in Hok.
    repeat (apply andb_true_iff in Hok; destruct Hok as [Hok ?]).
    apply Nat.leb_le. assumption. }
  assert (Hlen : length (rows_of (history s)) = days m + 1).
  { rewrite rows_of_length by apply I. apply I. }
  exists s0, t0, (rows_of (history s)), tot, t'.
  split; [exact Hs0|]. split; [exact Hsim|]. split; [exact Hlen|]. split.
  - rewrite (sim_init_counts _ _ _ _ _ Hg Hfit Hs0). apply I.
  - intros ->. pose proof (inv_first _ _ _ I) as F.
    destruct (rows_of (history s)) as [|r [|r' rest]]; try discriminate.
    cbn in F. injection F as ->. reflexivity.
Qed.

Lemma run_produces_history_witness :
  rng_wf rng_demo /\
  model_ok scenario_A = true /\
  exists tot t',
    sim rng_demo scenario_A 0
    = Ok ([{| r_Day := 0; r_S := 995; r_E := 0; r_I := 5; r_R := 0;
              r_Q := 0; r_V := 0; r_infected := 5 |}], tot, t').
Proof.
  split; [exact rng_demo_wf|].
  split; [vm_compute; reflexivity|].
  destruct (run_produces_history rng_demo scenario_A 0)
    as (s0 & t0 & rows & tot & t' & _ & Hsim & _ & _ & HA).
  - exact rng_demo_wf.
  - vm_compute; reflexivity.
  - exists tot, t'. rewrite <- (HA eq_refl). exact Hsim.
Defined.

(** ** Threshold triggers *)




(** ** The susceptible total *)

(** The susceptible total is not the final susceptible count: in the run
    of [exposure_model] the last recorded day has no susceptible agent left
    while the totals report one. *)
Lemma totals_S_is_not_final_count :
  exists rows tot t' r,
    sim rng_zero exposure_model 0 = Ok (rows, tot, t') /\
    last rows = Some r /\
    r_S r = 0%Z /\ t_S tot = 1%Z.
Proof.
  do 4 eexists. split; [vm_compute; reflexivity|]. repeat split.
Qed.

(** C5, as the code has it. The susceptible field of the totals a run
    returns is the initial susceptible count
    [N - init_exposed - init_infected], the [S] of the day-0 row; no day
    updates it. *)
Theorem totals_S_is_initial_count g m t rows tot t' :
  rng_wf g ->
  sim g m t = Ok (rows, tot, t') ->
  t_S tot = (Z.of_nat (N m) - Z.of_nat (init_exposed m) - Z.of_nat (init_infected m))%Z /\
  exists r0, rows !! 0 = Some r0 /\ t_S tot = r_S r0.
Proof.
  intros Hg H.
  destruct (sim_inv _ _ _ _ _ _ H) as (s & Hs & -> & _ & HS).
  pose proof (sim_upto_inv _ _ _ _ _ _ Hg Hs) as I.
  rewrite HS, (inv_t_S _ _ _ I). split; [reflexivity|].
  exists (day0_row m). split; [apply I|reflexivity].
Qed.

Lemma totals_S_is_initial_count_witness :
  rng_wf rng_demo /\
  sim rng_demo demo 0 = Ok (demo_rows, demo_totals, 25) /\
  t_S demo_totals = 3%Z.
Proof.
  split; [exact rng_demo_wf|].
  split; [vm_compute; reflexivity|].
  exact (proj1 (totals_S_is_initial_count rng_demo demo 0 demo_rows demo_totals 25
                  rng_demo_wf eq_refl)).
Defined.

(** ** Optional arguments equal to zero *)

(** When both triggers are given and neither is 0 the configuration call
    raises: the exclusivity check works for nonzero values. *)
Lemma both_triggers_nonzero_raise m q r dy th :
  dy <> 0%Z -> th <> 0%Z ->
  is_ValueError (apply_quarantine m q (Some dy) (Some th)) = true /\
  is_ValueError (apply_masking m q (Some dy) (Some th)) = true /\
  is_ValueError (apply_distancing m r (Some dy) (Some th)) = true.
Proof.
  intros Hd Ht.
  assert (Td : truthy (Some dy) = true).
  { cbn. apply negb_true_iff. apply Z.eqb_neq. exact Hd. }
  assert (Tt : truthy (Some th) = true).
  { cbn. apply negb_true_iff. apply Z.eqb_neq. exact Ht. }
  unfold apply_quarantine, apply_masking, apply_distancing.
  rewrite Td, Tt. cbn [andb].
  destruct (negb (in_unit q));
    destruct (negb (Nat.ltb 0 r && Nat.ltb r (act_rate m))); auto.
Qed.

(** C6 at the failing input. A configuration call that is given the day
    trigger 0 together with a nonzero threshold trigger, and a valid
    magnitude, raises nothing: it returns normally and configures the
    threshold trigger alone. *)
Theorem both_triggers_with_day_zero_accepted m q r thr :
  in_unit q = true ->
  thr <> 0%Z ->
  (exists m', apply_quarantine m q (Some 0%Z) (Some thr) = Ok m' /\
     quarantine_enabled_threshold (quarantine m') = true /\
     quarantine_threshold (quarantine m') = Some thr /\
     quarantine_enabled_day (quarantine m') = quarantine_enabled_day (quarantine m)) /\
  (exists m', apply_masking m q (Some 0%Z) (Some thr) = Ok m' /\
     mask_enabled_threshold (masking m') = true /\
     mask_threshold (masking m') = Some thr /\
     mask_enabled_day (masking m') = mask_enabled_day (masking m)) /\
  (0 < r < act_rate m ->
   exists m', apply_distancing m r (Some 0%Z) (Some thr) = Ok m' /\
     distancing_enabled_threshold (distancing m') = true /\
     distancing_threshold (distancing m') = Some thr /\
     distancing_enabled_day (distancing m') = distancing_enabled_day (distancing m)).
Proof.
  intros Hq Hthr.
  assert (Tt : truthy (Some thr) = true).
  { cbn. apply negb_true_iff. apply Z.eqb_neq. exact Hthr. }
  split; [|split].
  - unfold apply_quarantine. rewrite Hq, Tt. cbn.
    eexists. split; [reflexivity|]. cbn. auto.
  - unfold apply_masking. rewrite Hq, Tt. cbn.
    eexists. split; [reflexivity|]. cbn. auto.
  - intros [H0 Hr]. unfold apply_distancing.
    apply Nat.ltb_lt in H0. apply Nat.ltb_lt in Hr. rewrite H0, Hr, Tt. cbn.
    eexists. split; [reflexivity|]. cbn. auto.
Qed.

Lemma both_triggers_with_day_zero_accepted_witness :
  in_unit (1 # 2) = true /\
  10%Z <> 0%Z /\
  is_Ok (apply_quarantine scenario_D_base (1 # 2) (Some 0%Z) (Some 10%Z)) = true.
Proof.
  split; [reflexivity|].
  split; [lia|].
  destruct (proj1 (both_triggers_with_day_zero_accepted scenario_D_base (1 # 2) 2 10%Z
                     eq_refl ltac:(lia))) as (m' & Hm' & _).
  rewrite Hm'. reflexivity.
Defined.

(** C4 at the failing input. A call [apply_vaccination(v_rate, 0)] changes
    nothing: vaccination stays as it was. On a model fresh from the
    constructor it stays disabled, and every row of every run has the
    vaccinated count 0, whatever the population size. *)
Theorem vaccination_day_zero_vaccinates_nobody g n ii ie dd b sg gm ar m' t rows tot t' :
  rng_wf g ->
  apply_vaccination (init n ii ie dd b sg gm ar) 1 (Some 0%Z) None = Ok m' ->
  sim g m' t = Ok (rows, tot, t') ->
  m' = init n ii ie dd b sg gm ar /\
  vaccination_enabled (vaccination m') = false /\
  forall r, r ∈ rows -> r_V r = 0%Z.
Proof.
  intros Hg Hcfg H.
  unfold apply_vaccination in Hcfg. cbn in Hcfg. injection Hcfg as <-.
  split; [reflexivity|]. split; [reflexivity|].
  destruct (sim_inv _ _ _ _ _ _ H) as (s & Hs & -> & _ & _).
  pose proof (sim_upto_inv _ _ _ _ _ _ Hg Hs) as I.
  apply (inv_no_vaccination _ _ _ I). reflexivity.
Qed.

Lemma vaccination_day_zero_vaccinates_nobody_witness :
  rng_wf rng_demo /\
  apply_vaccination scenario_D_base 1 (Some 0%Z) None = Ok scenario_D /\
  N scenario_D = 10 /\
  exists tot t',
    sim rng_demo scenario_D 0 = Ok (scenario_D_rows, tot, t') /\
    forall r, r ∈ scenario_D_rows -> r_V r = 0%Z.
Proof.
  split; [exact rng_demo_wf|].
  split; [reflexivity|].
  split; [reflexivity|].
  do 2 eexists. split; [vm_compute; reflexivity|].
  refine (proj2 (proj2 (vaccination_day_zero_vaccinates_nobody
                          rng_demo 10 1 0 2 (1 # 2) (1 # 2) (1 # 2) 3
                          scenario_D 0 scenario_D_rows _ _
                          rng_demo_wf eq_refl _))).
  vm_compute; reflexivity.
Defined.

(** ** Vaccination with rate 1 from a nonzero day *)

Lemma put_at_sets v idx :
  forall a a', put_at a idx v = Ok a' ->
  forall i, i ∈ idx -> a' !! i = Some v.
Proof.
  induction idx as [|j idx IH]; intros a a' H i Hi; cbn [put_at] in H.
  - inversion Hi.
  - destruct (Nat.ltb_spec j (length a)) as [Hj|Hj]; [|discriminate].
    apply elem_of_cons in Hi. destruct Hi as [->|Hi].
    + destruct (put_at_spec _ _ _ _ H) as (_ & _ & Hkeep).
      apply Hkeep. apply list_lookup_insert_eq. exact Hj.
    + eapply IH; eauto.
Qed.

Lemma where_ne_from_complete v l : forall i0 k x,
  l !! k = Some x -> x <> v -> (i0 + k) ∈ where_ne_from i0 v l.
Proof.
  induction l as [|y l IH]; intros i0 k x Hk Hx; [discriminate|].
  cbn [where_ne_from]. destruct k as [|k]; cbn in Hk.
  - injection Hk as ->. rewrite Nat.add_0_r.
    destruct (Nat.eqb_spec x v); [contradiction|]. left.
  - replace (i0 + S k) with (S i0 + k) by lia.
    destruct (Nat.eqb y v); [|right]; eapply IH; eauto.
Qed.

(** A sample of the size of the pool is a permutation of the pool. *)
Lemma full_choice_perm g t pool :
  rng_wf g -> Permutation (choice g t pool (length pool)) pool.
Proof.
  intros Hg.
  destruct (choice_sample g Hg t pool (length pool) (Nat.le_refl _))
    as [Hlen [rest Hp]].
  pose proof (Permutation_length Hp) as Hl. rewrite length_app, Hlen in Hl.
  assert (rest = []) by (apply nil_length_inv; lia). subst rest.
  rewrite app_nil_r in Hp. exact Hp.
Qed.

Lemma count_eq_all v l :
  (forall i, i < length l -> l !! i = Some v) ->
  count_eq v l = Z.of_nat (length l).
Proof.
  induction l as [|x l IH]; intros H; [reflexivity|].
  cbn [count_eq length].
  pose proof (H 0 ltac:(cbn; lia)) as H0. cbn in H0. injection H0 as ->.
  rewrite Nat.eqb_refl, IH; [lia|].
  intros i Hi. exact (H (S i) ltac:(cbn; lia)).
Qed.

(** Once started, a vaccination of rate 1 marks every agent on the same
    day. *)
Lemma vaccination_module_rate_one g m day self t nv tv t' z :
  rng_wf g ->
  vaccination_enabled (vaccination m) = true ->
  vaccine_start (vaccination m) = Some z ->
  (z <= Z.of_nat day)%Z ->
  (vaccine_rate (vaccination m) == 1)%Q ->
  vaccination_module g m day self t = Ok (nv, tv, t') ->
  count_eq VACCINATED nv = Z.of_nat (length (vaccinated self)).
Proof.
  intros Hg Hen Hst Hz Hrate H.
  destruct (vaccination_module_spec _ _ _ _ _ _ _ _ H) as (Hlen & Hkeep & _).
  rewrite <- Hlen. apply count_eq_all. intros i Hi.
  rewrite Hlen in Hi.
  destruct (lookup_lt_is_Some_2 (vaccinated self) i Hi) as [x Hx].
  destruct (Nat.eq_dec x VACCINATED) as [->|Hne]; [auto|].
  pose proof (where_ne_from_complete VACCINATED _ 0 i x Hx Hne) as Hin.
  cbn [Nat.add] in Hin. fold (where_ne VACCINATED (vaccinated self)) in Hin.
  unfold vaccination_module in H. rewrite Hen, Hst in H.
  apply bind_Ok in H. destruct H as (started & t1 & Hs & H).
  apply lift_Ok in Hs. destruct Hs as [Hs ->]. cbn in Hs.
  apply Z.leb_le in Hz. rewrite Hz in Hs. injection Hs as <-.
  set (pool := where_ne VACCINATED (vaccinated self)) in *.
  assert (Hpos : 0 < length pool).
  { destruct pool; [inversion Hin|cbn; lia]. }
  apply Nat.ltb_lt in Hpos. rewrite Hpos in H.
  apply bind_Ok in H. destruct H as (num & t1 & Hb & H).
  apply np_binomial_Ok in Hb. destruct Hb as (_ & -> & ->).
  rewrite (binomial_one g Hg t (length pool) _ Hrate) in H.
  rewrite Hpos in H.
  apply bind_Ok in H. destruct H as (chosen & t1 & Hch & H).
  apply np_choice_Ok in Hch. destruct Hch as (_ & -> & ->).
  apply bind_Ok in H. destruct H as (nv' & t1 & Hput & H).
  apply lift_Ok in Hput. destruct Hput as [Hput ->].
  apply ret_Ok in H. destruct H as [H _]. injection H as -> _.
  eapply put_at_sets; [exact Hput|].
  rewrite (full_choice_perm g (S t) pool Hg). exact Hin.
Qed.

(** X9 (rate one). The sibling of Scenario D with a nonzero day: with
    vaccination enabled from a start day [z] and rate 1, every recorded day
    after the day [z] has the vaccinated count [N]. *)
Lemma vaccination_rate_one_reaches_everybody g m t rows tot t' z :
  rng_wf g ->
  vaccination_enabled (vaccination m) = true ->
  vaccine_start (vaccination m) = Some z ->
  (vaccine_rate (vaccination m) == 1)%Q ->
  sim g m t = Ok (rows, tot, t') ->
  forall d r, (z <= Z.of_nat d)%Z -> rows !! (S d) = Some r ->
    r_V r = Z.of_nat (N m).
Proof.
  intros Hg Hen Hst Hrate H.
  destruct (sim_inv _ _ _ _ _ _ H) as (s & Hs & -> & _ & _).
  assert (Hall : forall n t s t', sim_upto g m n t = Ok (s, t') ->
            run_inv m n s /\
            forall d r, (z <= Z.of_nat d)%Z ->
              rows_of (history s) !! (S d) = Some r ->
              r_V r = Z.of_nat (N m));
    [|exact (proj2 (Hall _ _ _ _ Hs))].
  clear H Hs.
  apply (sim_upto_ind g m
           (fun n s => run_inv m n s /\
              forall d r, (z <= Z.of_nat d)%Z ->
                rows_of (history s) !! (S d) = Some r ->
                r_V r = Z.of_nat (N m))).
  - intros u s0 u' H0. split; [eapply sim_init_inv; eauto|].
    intros d r _ Hr. unfold sim_init in H0. monad_inv H0; discriminate.
  - intros n s0 u s' u' [I IH] Hday.
    split; [eapply sim_day_inv_step; eauto|].
    destruct (sim_day_inv _ _ _ _ _ _ _ Hday)
      as (c & p & nv & tv & t0 & acc & _ & _ & Hv & _ & ->).
    cbn [history].
    destruct (rows_of_record_day (history s0) (new_states acc) nv
                (new_quarantined acc) (inv_same_lengths _ _ _ I))
      as (_ & _ & ->).
    intros d r Hz Hr. apply lookup_snoc_Some in Hr.
    destruct Hr as [[_ Hr]|[Hd Hr]]; [eauto|].
    subst r. cbn.
    rewrite rows_of_length, (inv_rows _ _ _ I) in Hd by apply I.
    assert (d = n) by lia. subst d.
    rewrite (vaccination_module_rate_one _ _ _ _ _ _ _ _ _ Hg Hen Hst Hz Hrate Hv).
    f_equal. apply I.
Qed.

(** ** Events and probabilities *)

(** The bound an exposure draw is compared with is a probability when the
    transmission probability is one. *)
Lemma exposure_threshold_is_probability g p k :
  float_ok g -> in_unit p = true ->
  (0 <= fsub g 1 (fpow g (fsub g 1 p) (Z.of_nat k)) <= 1)%Q.
Proof.
  unfold in_unit. intros Hf H. apply andb_true_iff in H. destruct H as [H0 H1].
  apply Qle_bool_iff in H0. apply Qle_bool_iff in H1.
  apply (fsub_unit g Hf). apply (fpow_unit g Hf); [|lia].
  apply (fsub_unit g Hf). split; assumption.
Qed.

(** Under exact arithmetic the bound is [1 - (1 - p)^k]. *)
Lemma exposure_bound_exact g p k :
  exact_arithmetic g ->
  fsub g 1 (fpow g (fsub g 1 p) k) = (1 - (1 - p) ^ k)%Q.
Proof. intros (-> & _ & ->). reflexivity. Qed.

Lemma filter_below_length a M : forall start,
  length (List.filter (fun j => Nat.ltb j a) (seq start M))
  = Nat.min (start + M) a - Nat.min start a.
Proof.
  induction M as [|M IH]; intros start; cbn [seq List.filter].
  - rewrite Nat.add_0_r. cbn [length]. lia.
  - destruct (Nat.ltb_spec start a); cbn [length]; rewrite IH; lia.
Qed.

(** On a grid of [M] equally likely outcomes, the event [u < a / M] consists
    of exactly [a] outcomes: its probability is the bound it compares
    with. *)
Lemma outcomes_below_bound a M :
  0 < M -> a <= M ->
  outcomes_below (Z.of_nat a # Pos.of_nat M) M = a.
Proof.
  intros HM Ha. unfold outcomes_below.
  rewrite (List.filter_ext _ (fun j => Nat.ltb j a)).
  - rewrite filter_below_length. lia.
  - intros j. destruct (Nat.ltb_spec j a) as [Hj|Hj].
    + apply Qlt_bool_iff. unfold Qlt. cbn. nia.
    + apply Qlt_bool_false_iff. unfold Qle. cbn. nia.
Qed.

(** * Further properties of the simulation *)

(** ** One agent, with the totals *)

Lemma update_agent_step g m day self c p i st acc t acc' t' q :
  update_agent g m day self c p i st acc t = Ok (acc', t') ->
  new_states acc !! i = Some st ->
  new_quarantined acc !! i = Some q ->
  exists st' q',
    new_states acc' = <[i:=st']> (new_states acc) /\
    new_quarantined acc' = <[i:=q']> (new_quarantined acc) /\
    agent_step st q (acc_totals acc) st' q' (acc_totals acc').
Proof.
  intros H Hst Hq.
  pose proof (list_insert_id _ _ _ Hst) as Est.
  pose proof (list_insert_id _ _ _ Hq) as Eq.
  unfold update_agent in H. monad_inv H; cbn;
    try (exists st, q; rewrite Est, Eq;
         split; [reflexivity|split; [reflexivity|constructor]]).
  - apply Nat.eqb_eq in Hif. subst st.
    exists EXPOSED, q. rewrite Eq. repeat split. constructor.
  - apply Nat.eqb_eq in Hif0. subst st.
    exists INFECTIOUS, q. rewrite Eq. repeat split. constructor.
  - apply Nat.eqb_eq in Hif1. subst st.
    exists RECOVERED, 0. repeat split. constructor.
  - apply Nat.eqb_eq in Hif1. subst st.
    exists INFECTIOUS, QUARANTINED. rewrite Est. repeat split. constructor.
Qed.

(** A property of the buffers that every iteration keeps, when run on
    buffers that still hold the agent's old state, is kept by the loop. *)
Lemma agents_loop_keeps g m day self c p (P : DayAcc -> Prop) :
  (forall i st acc t acc' t',
     P acc ->
     new_states acc !! i = Some st ->
     i < length (new_quarantined acc) ->
     update_agent g m day self c p i st acc t = Ok (acc', t') ->
     P acc') ->
  forall sts i0 acc t acc' t',
  agents_loop g m day self c p i0 sts acc t = Ok (acc', t') ->
  (forall k st, sts !! k = Some st -> new_states acc !! (i0 + k) = Some st) ->
  length (new_quarantined acc) = length (new_states acc) ->
  P acc -> P acc'.
Proof.
  intros Hstep. induction sts as [|s rest IH];
    intros i0 acc t acc' t' H Hagree Hlen HP; cbn [agents_loop] in H.
  - apply ret_Ok in H. destruct H as [-> ->]. exact HP.
  - apply bind_Ok in H. destruct H as (a & t1 & Hs & Hrest).
    pose proof (Hagree 0 s eq_refl) as H0. rewrite Nat.add_0_r in H0.
    destruct (update_agent_frame _ _ _ _ _ _ _ _ _ _ _ _ Hs)
      as (Hl1 & Hl2 & _ & Hframe).
    apply (IH _ _ _ _ _ Hrest).
    + intros k st Hk. destruct (Hframe (S i0 + k) ltac:(lia)) as [E _].
      rewrite E. replace (S i0 + k) with (i0 + S k) by lia.
      apply Hagree. exact Hk.
    + congruence.
    + eapply Hstep; eauto. rewrite Hlen. eapply lookup_lt_Some; eauto.
Qed.

(** ** Counting after an update *)

Lemma count_eq_insert v l : forall i x y,
  l !! i = Some x ->
  count_eq v (<[i:=y]> l)
  = (count_eq v l - (if Nat.eqb x v then 1 else 0)
     + (if Nat.eqb y v then 1 else 0))%Z.
Proof.
  induction l as [|a l IH]; intros [|i] x y Hi; try discriminate.
  - cbn in Hi. injection Hi as ->. cbn. lia.
  - cbn in Hi. cbn. rewrite (IH _ _ _ Hi). lia.
Qed.

(** A flag array whose set entries sit on entries [w] of another array has
    no more set entries than that array has entries [w]. *)
Lemma count_eq_le_pointwise v w (a : list nat) : forall b : list nat,
  length a = length b ->
  (forall i, a !! i = Some v -> b !! i = Some w) ->
  (count_eq v a <= count_eq w b)%Z.
Proof.
  induction a as [|x a IH]; intros [|y b] Hlen Hp; simpl in *; try lia.
  assert (IH' : (count_eq v a <= count_eq w b)%Z).
  { apply IH; [lia|]. intros i Hi. exact (Hp (S i) Hi). }
  destruct (Nat.eqb_spec x v) as [->|Hne].
  - specialize (Hp 0 eq_refl). simpl in Hp. injection Hp as ->.
    rewrite Nat.eqb_refl. lia.
  - destruct (Nat.eqb y w); lia.
Qed.

(** ** The rows of a run, day by day *)

(** A day appends the row of the counts of the state it produces. *)
Lemma sim_day_rows g m d s t s' t' :
  run_inv m d s ->
  sim_day g m d s t = Ok (s', t') ->
  rows_of (history s')
  = rows_of (history s)
    ++ [row_of_counts (Z.of_nat (S d)) (states s') (vaccinated s') (quarantined s')].
Proof.
  intros I H.
  destruct (sim_day_inv _ _ _ _ _ _ _ H)
    as (c & p & nv & tv & t0 & acc & _ & _ & _ & _ & ->).
  cbn [history states vaccinated quarantined].
  destruct (rows_of_record_day (history s) (new_states acc) nv
              (new_quarantined acc) (inv_same_lengths _ _ _ I)) as (_ & _ & ->).
  rewrite (inv_rows _ _ _ I). do 3 f_equal. lia.
Qed.

(** Induction along a run on the state together with the rows recorded so
    far. *)
Lemma run_rows_ind g m (P : nat -> Sim -> list Row -> Prop) :
  rng_wf g ->
  (forall t s t', sim_init g m t = Ok (s, t') -> P 0 s [day0_row m]) ->
  (forall d s t s' t' rows,
     run_inv m d s -> run_inv m (S d) s' -> P d s rows ->
     sim_day g m d s t = Ok (s', t') ->
     P (S d) s'
       (rows ++ [row_of_counts (Z.of_nat (S d)) (states s') (vaccinated s')
                   (quarantined s')])) ->
  forall d t s t', sim_upto g m d t = Ok (s, t') -> P d s (rows_of (history s)).
Proof.
  intros Hg Hinit Hstep.
  assert (Hall : forall d t s t', sim_upto g m d t = Ok (s, t') ->
            run_inv m d s /\ P d s (rows_of (history s)));
    [|intros d t s t' H; exact (proj2 (Hall _ _ _ _ H))].
  apply (sim_upto_ind g m (fun d s => run_inv m d s /\ P d s (rows_of (history s)))).
  - intros t s t' H. split; [eapply sim_init_inv; eauto|].
    pose proof (Hinit _ _ _ H) as HP.
    unfold sim_init in H. monad_inv H. exact HP.
  - intros d s t s' t' [I HP] H.
    pose proof (sim_day_inv_step _ _ _ _ _ _ _ I H) as I'.
    split; [exact I'|].
    rewrite (sim_day_rows _ _ _ _ _ _ _ I H). eapply Hstep; eauto.
Qed.

(** The totals a run returns are the running totals of the last day, with
    the four maxima taken over the returned columns. *)
Lemma sim_inv_totals g m t rows tot t' :
  sim g m t = Ok (rows, tot, t') ->
  exists s,
    sim_upto g m (days m) t = Ok (s, t') /\
    rows = rows_of (history s) /\
    t_S tot = t_S (totals s) /\ t_E tot = t_E (totals s) /\
    t_I tot = t_I (totals s) /\ t_R tot = t_R (totals s) /\
    t_V tot = t_V (totals s) /\ t_Q tot = t_Q (totals s) /\
    t_infected tot = t_infected (totals s) /\
    np_max (map r_infected rows) = Ok (t_max_infected tot) /\
    np_max (map r_E rows) = Ok (t_max_exposed tot) /\
    np_max (map r_Q rows) = Ok (t_max_quarantined tot) /\
    np_max (map r_V rows) = Ok (t_max_vaccinated tot).
Proof.
  intros H. unfold sim in H.
  apply bind_Ok in H. destruct H as (s & t1 & Hs & H).
  apply lift_Ok in H. destruct H as [H ->].
  exists s. split; [exact Hs|].
  unfold finalize in H.
  destruct (history_df m (history s)) as [df|e] eqn:Hdf; [|discriminate].
  unfold history_df in Hdf.
  destruct (negb (same_lengths (history s))); [discriminate|].
  destruct (negb (Nat.eqb (length (h_S (history s))) (days m + 1)));
    [discriminate|].
  injection Hdf as <-.
  destruct (np_max (map r_infected (rows_of (history s)))) as [mi|] eqn:Hmi;
    [|discriminate].
  destruct (np_max (map r_E (rows_of (history s)))) as [me|] eqn:Hme;
    [|destruct (np_max (map r_Q (rows_of (history s))));
      destruct (np_max (map r_V (rows_of (history s)))); discriminate].
  destruct (np_max (map r_Q (rows_of (history s)))) as [mq|] eqn:Hmq;
    [|destruct (np_max (map r_V (rows_of (history s)))); discriminate].
  destruct (np_max (map r_V (rows_of (history s)))) as [mv|] eqn:Hmv;
    [|discriminate].
  injection H as <- <-. cbn. repeat split; assumption || reflexivity.
Qed.

(** Along a run the last recorded row is the row of the counts of the
    current state: always after the first day, and already for the day-0
    row when the initial blocks fit the population. *)
Lemma last_row_is_current_counts g m d t s t' :
  rng_wf g ->
  sim_upto g m d t = Ok (s, t') ->
  0 < d \/ blocks_fit m ->
  last (rows_of (history s))
  = Some (row_of_counts (Z.of_nat d) (states s) (vaccinated s) (quarantined s)).
Proof.
  intros Hg H. revert d t s t' H.
  apply (run_rows_ind g m
           (fun d s rows =>
              0 < d \/ blocks_fit m ->
              last rows
              = Some (row_of_counts (Z.of_nat d) (states s) (vaccinated s)
                        (quarantined s))) Hg).
  - intros t s t' H [Hd|Hfit]; [lia|]. change (Z.of_nat 0) with 0%Z.
    rewrite (sim_init_counts _ _ _ _ _ Hg Hfit H). reflexivity.
  - intros d s t s' t' rows _ _ _ _ _. apply last_snoc.
Qed.

(** X1 (one step forward). Over one day of a run the health state of an
    agent either stays or moves to the next compartment of
    Susceptible, Exposed, Infectious, Recovered: no agent moves backwards
    and none skips a compartment within a day. *)
Theorem health_state_moves_one_step_forward g m d t s t1 s' t2 i st :
  rng_wf g ->
  sim_upto g m d t = Ok (s, t1) ->
  sim_day g m d s t1 = Ok (s', t2) ->
  states s !! i = Some st ->
  st <= RECOVERED /\
  exists st', states s' !! i = Some st' /\
    (st' = st \/ (st' = S st /\ st < RECOVERED)).
Proof.
  intros Hg Hs Hday Hst.
  pose proof (sim_upto_inv _ _ _ _ _ _ Hg Hs) as I.
  split.
  { eapply (proj1 (Forall_lookup _ _) (inv_codes _ _ _ I)); eauto. }
  destruct (lookup_lt_is_Some_2 (quarantined s) i) as [q Hq].
  { rewrite (inv_len_quarantined _ _ _ I), <- (inv_len_states _ _ _ I).
    eapply lookup_lt_Some; eauto. }
  destruct (sim_day_trans _ _ _ _ _ _ _ Hday i st q Hst Hq)
    as (st' & q' & A & _ & C).
  exists st'. split; [exact A|].
  destruct C; unfold SUSCEPTIBLE, EXPOSED, INFECTIOUS, RECOVERED; auto; right; lia.
Qed.

Lemma health_state_moves_one_step_forward_witness :
  rng_wf rng_demo /\
  sim_upto rng_demo demo 0 0 = Ok (demo_day0, 1) /\
  sim_day rng_demo demo 0 demo_day0 1 = Ok (demo_day1, 11) /\
  states demo_day0 !! 0 = Some SUSCEPTIBLE /\
  states demo_day1 !! 0 = Some EXPOSED /\
  SUSCEPTIBLE <= RECOVERED.
Proof.
  split; [exact rng_demo_wf|].
  split; [vm_compute; reflexivity|].
  split; [vm_compute; reflexivity|].
  split; [reflexivity|]. split; [reflexivity|].
  exact (proj1 (health_state_moves_one_step_forward
                  rng_demo demo 0 0 demo_day0 1 demo_day1 11 0 SUSCEPTIBLE
                  rng_demo_wf ltac:(vm_compute; reflexivity)
                  ltac:(vm_compute; reflexivity) eq_refl)).
Defined.

(** X2 (bounds of the recorded counts). In every row of every history the
    infected count is the sum of the exposed and infectious counts, the
    quarantined count lies between 0 and the infectious count, and the
    vaccinated and recovered counts lie between 0 and [N]. Every row after
    day 0, and the day-0 row too when the initial blocks fit the population,
    has all its counts between 0 and [N]. *)
Theorem recorded_counts_are_bounded g m t rows tot t' :
  rng_wf g ->
  sim g m t = Ok (rows, tot, t') ->
  forall r, r ∈ rows ->
    (r_infected r = r_E r + r_I r /\
     0 <= r_Q r <= r_I r /\
     0 <= r_V r <= Z.of_nat (N m) /\
     0 <= r_R r <= Z.of_nat (N m) /\
     0 <= r_E r /\ 0 <= r_I r /\
     (0 < r_Day r \/ blocks_fit m ->
      0 <= r_S r <= Z.of_nat (N m) /\
      r_E r <= Z.of_nat (N m) /\ r_I r <= Z.of_nat (N m) /\
      r_infected r <= Z.of_nat (N m)))%Z.
Proof.
  intros Hg H.
  destruct (sim_inv _ _ _ _ _ _ H) as (s & Hs & -> & _ & _). clear H.
  revert Hs. generalize (days m). intros n Hs. revert n t s t' Hs.
  apply (run_rows_ind g m
           (fun _ _ rows => forall r, r ∈ rows -> _) Hg).
  - intros t s t' _ r Hr. apply list_elem_of_singleton in Hr. subst r.
    unfold blocks_fit. cbn. repeat split; try lia.
  - intros d s t s' t' rows _ I' IH _ r Hr.
    apply elem_of_app in Hr. destruct Hr as [Hr|Hr]; [auto|].
    apply list_elem_of_singleton in Hr. subst r. cbn -[Z.of_nat].
    pose proof (count_eq_partition _ (inv_codes _ _ _ I')) as Hsum.
    rewrite (inv_len_states _ _ _ I') in Hsum.
    pose proof (count_eq_nonneg SUSCEPTIBLE (states s')).
    pose proof (count_eq_nonneg EXPOSED (states s')).
    pose proof (count_eq_nonneg INFECTIOUS (states s')).
    pose proof (count_eq_nonneg RECOVERED (states s')).
    pose proof (count_eq_nonneg QUARANTINED (quarantined s')).
    pose proof (count_eq_nonneg VACCINATED (vaccinated s')).
    pose proof (count_eq_le_length VACCINATED (vaccinated s')) as HV.
    rewrite (inv_len_vaccinated _ _ _ I') in HV.
    assert (HQ : (count_eq QUARANTINED (quarantined s')
                  <= count_eq INFECTIOUS (states s'))%Z).
    { apply count_eq_le_pointwise.
      - rewrite (inv_len_quarantined _ _ _ I'), (inv_len_states _ _ _ I').
        reflexivity.
      - apply I'. }
    repeat split; lia.
Qed.

Lemma recorded_counts_are_bounded_witness :
  rng_wf rng_demo /\
  sim rng_demo demo 0 = Ok (demo_rows, demo_totals, 25) /\
  forall r, r ∈ demo_rows -> (0 <= r_Q r <= r_I r)%Z.
Proof.
  split; [exact rng_demo_wf|].
  split; [vm_compute; reflexivity|].
  intros r Hr.
  exact (proj1 (proj2 (recorded_counts_are_bounded rng_demo demo 0 demo_rows
                         demo_totals 25 rng_demo_wf
                         ltac:(vm_compute; reflexivity) r Hr))).
Defined.

(** X3 (susceptibles only leave). From each recorded day to the next the
    susceptible count does not increase: for every pair of rows after
    day 0, and from the day-0 row on when the initial blocks fit the
    population. *)
Theorem susceptible_count_never_increases g m t rows tot t' :
  rng_wf g ->
  sim g m t = Ok (rows, tot, t') ->
  forall d r1 r2,
    rows !! d = Some r1 -> rows !! (S d) = Some r2 ->
    0 < d \/ blocks_fit m ->
    (r_S r2 <= r_S r1)%Z.
Proof.
  intros Hg H.
  destruct (sim_inv _ _ _ _ _ _ H) as (s & Hs & -> & _ & _). clear H.
  revert Hs. generalize (days m). intros n Hs.
  assert (Hall :
    (forall j r1 r2,
       rows_of (history s) !! j = Some r1 ->
       rows_of (history s) !! (S j) = Some r2 ->
       0 < j \/ blocks_fit m -> (r_S r2 <= r_S r1)%Z) /\
    length (rows_of (history s)) = S n /\
    (0 < n \/ blocks_fit m ->
     exists r, last (rows_of (history s)) = Some r /\
               r_S r = count_eq SUSCEPTIBLE (states s)));
    [|exact (proj1 Hall)].
  revert n t s t' Hs.
  apply (run_rows_ind g m
           (fun d s rows =>
              (forall j r1 r2, rows !! j = Some r1 -> rows !! (S j) = Some r2 ->
                 0 < j \/ blocks_fit m -> (r_S r2 <= r_S r1)%Z) /\
              length rows = S d /\
              (0 < d \/ blocks_fit m ->
               exists r, last rows = Some r /\
                         r_S r = count_eq SUSCEPTIBLE (states s))) Hg).
  - intros t s t' H0. split; [intros j r1 r2 _ Hj; discriminate|].
    split; [reflexivity|].
    intros [Hd|Hfit]; [lia|]. eexists. split; [reflexivity|].
    rewrite <- (sim_init_counts _ _ _ _ _ Hg Hfit H0). reflexivity.
  - intros d s t s' t' rows I I' (Hmono & Hlen & Hlast) Hday.
    split; [|split].
    + intros j r1 r2 H1 H2 Hj.
      apply lookup_snoc_Some in H2. destruct H2 as [[Hlt H2]|[Heq H2]].
      * rewrite lookup_app_l in H1 by lia. eauto.
      * rewrite lookup_app_l in H1 by lia.
        assert (j = d) by lia. subst j.
        destruct (Hlast Hj) as (r & Hr & HS).
        rewrite last_lookup, Hlen in Hr. cbn in Hr.
        assert (r = r1) by congruence. subst r r2. cbn. rewrite HS.
        apply count_eq_mono.
        { rewrite (inv_len_states _ _ _ I), (inv_len_states _ _ _ I').
          reflexivity. }
        intros i Hi.
        destruct (lookup_lt_is_Some_2 (states s) i) as [st Hst].
        { rewrite (inv_len_states _ _ _ I), <- (inv_len_states _ _ _ I').
          eapply lookup_lt_Some; eauto. }
        destruct (lookup_lt_is_Some_2 (quarantined s) i) as [q Hq].
        { rewrite (inv_len_quarantined _ _ _ I), <- (inv_len_states _ _ _ I).
          eapply lookup_lt_Some; eauto. }
        destruct (sim_day_trans _ _ _ _ _ _ _ Hday i st q Hst Hq)
          as (st' & q' & A & _ & C).
        assert (st' = SUSCEPTIBLE) by congruence. subst st'.
        rewrite Hst. f_equal. inversion C; reflexivity.
    + rewrite length_app. cbn. lia.
    + intros _. eexists. split; [apply last_snoc|]. reflexivity.
Qed.

Lemma susceptible_count_never_increases_witness :
  rng_wf rng_demo /\
  sim rng_demo demo 0 = Ok (demo_rows, demo_totals, 25) /\
  blocks_fit demo /\
  forall r1 r2, demo_rows !! 0 = Some r1 -> demo_rows !! 1 = Some r2 ->
    (r_S r2 <= r_S r1)%Z.
Proof.
  split; [exact rng_demo_wf|].
  split; [vm_compute; reflexivity|].
  split; [unfold blocks_fit; vm_compute; lia|].
  intros r1 r2 H1 H2.
  apply (susceptible_count_never_increases rng_demo demo 0 demo_rows
           demo_totals 25 rng_demo_wf ltac:(vm_compute; reflexivity)
           0 r1 r2 H1 H2).
  right. unfold blocks_fit. vm_compute. lia.
Defined.

(** ** Peaks *)

Lemma fold_max_spec l : forall a,
  let z := fold_left Z.max l a in
  (z = a \/ z ∈ l) /\ (a <= z)%Z /\ forall x, x ∈ l -> (x <= z)%Z.
Proof.
  induction l as [|y l IH]; intros a; cbn [fold_left].
  - split; [left; reflexivity|]. split; [lia|]. intros x Hx. inversion Hx.
  - destruct (IH (Z.max a y)) as (Hin & Hle & Hall). cbv zeta in *.
    split; [|split].
    + destruct Hin as [E|Hin]; [|right; right; exact Hin].
      destruct (Z.max_spec a y) as [[_ E']|[_ E']].
      * right. rewrite E, E'. left.
      * left. rewrite E, E'. reflexivity.
    + lia.
    + intros x Hx. apply elem_of_cons in Hx. destruct Hx as [->|Hx]; [lia|auto].
Qed.

Lemma np_max_spec l z :
  np_max l = Ok z -> z ∈ l /\ forall x, x ∈ l -> (x <= z)%Z.
Proof.
  destruct l as [|a l]; [discriminate|]. cbn [np_max]. intros H.
  injection H as <-. destruct (fold_max_spec l a) as (Hin & Hle & Hall).
  cbv zeta in *. split.
  - destruct Hin as [->|Hin]; [left|right; exact Hin].
  - intros x Hx. apply elem_of_cons in Hx. destruct Hx as [->|Hx]; auto.
Qed.

Lemma column_max_spec (f : Row -> Z) rows z :
  np_max (map f rows) = Ok z ->
  (exists r, r ∈ rows /\ f r = z) /\ forall r, r ∈ rows -> (f r <= z)%Z.
Proof.
  intros H. destruct (np_max_spec _ _ H) as [Hin Hall]. split.
  - apply list_elem_of_In, in_map_iff in Hin. destruct Hin as (r & E & Hr).
    exists r. split; [apply list_elem_of_In; exact Hr|exact E].
  - intros r Hr. apply Hall. apply list_elem_of_In, in_map.
    apply list_elem_of_In. exact Hr.
Qed.

(** X6 (peaks). The four peak totals of a run are the maxima of their
    columns over all recorded days, day 0 included: each is reached on some
    recorded day and exceeded on none. The infected peak is the peak of the
    exposed-plus-infectious column. *)
Theorem peak_totals_are_column_maxima g m t rows tot t' :
  sim g m t = Ok (rows, tot, t') ->
  ((exists r, r ∈ rows /\ r_infected r = t_max_infected tot) /\
   forall r, r ∈ rows -> (r_infected r <= t_max_infected tot)%Z) /\
  ((exists r, r ∈ rows /\ r_E r = t_max_exposed tot) /\
   forall r, r ∈ rows -> (r_E r <= t_max_exposed tot)%Z) /\
  ((exists r, r ∈ rows /\ r_Q r = t_max_quarantined tot) /\
   forall r, r ∈ rows -> (r_Q r <= t_max_quarantined tot)%Z) /\
  ((exists r, r ∈ rows /\ r_V r = t_max_vaccinated tot) /\
   forall r, r ∈ rows -> (r_V r <= t_max_vaccinated tot)%Z).
Proof.
  intros H.
  destruct (sim_inv_totals _ _ _ _ _ _ H)
    as (s & _ & _ & _ & _ & _ & _ & _ & _ & _ & H1 & H2 & H3 & H4).
  repeat split; eapply column_max_spec; eauto.
Qed.

Lemma peak_totals_are_column_maxima_witness :
  sim rng_demo demo 0 = Ok (demo_rows, demo_totals, 25) /\
  t_max_infected demo_totals = 5%Z /\
  forall r, r ∈ demo_rows -> (r_infected r <= t_max_infected demo_totals)%Z.
Proof.
  split; [vm_compute; reflexivity|]. split; [reflexivity|].
  exact (proj2 (proj1 (peak_totals_are_column_maxima rng_demo demo 0 demo_rows
                         demo_totals 25 ltac:(vm_compute; reflexivity)))).
Defined.

(** ** Totals and final counts *)

Lemma vaccination_module_other_totals g m day self t nv tv t' :
  vaccination_module g m day self t = Ok (nv, tv, t') ->
  t_S tv = t_S (totals self) /\ t_E tv = t_E (totals self) /\
  t_I tv = t_I (totals self) /\ t_R tv = t_R (totals self) /\
  t_Q tv = t_Q (totals self) /\ t_infected tv = t_infected (totals self).
Proof.
  intros H. unfold vaccination_module in H. monad_inv H; repeat split.
Qed.

Lemma agent_step_balanced m l i st q tot st' q' tot' :
  l !! i = Some st ->
  agent_step st q tot st' q' tot' ->
  balanced m l tot -> balanced m (<[i:=st']> l) tot'.
Proof.
  intros Hi Hstep (B1 & B2 & B3 & B4 & B5). unfold balanced.
  rewrite !(count_eq_insert _ _ _ _ _ Hi).
  destruct Hstep; cbn; repeat split; try lia;
    destruct st as [|[|[|[|?]]]]; cbn; lia.
Qed.

Lemma sim_day_balanced g m d s t s' t' :
  run_inv m d s ->
  sim_day g m d s t = Ok (s', t') ->
  balanced m (states s) (totals s) -> balanced m (states s') (totals s').
Proof.
  intros I H B.
  destruct (sim_day_inv _ _ _ _ _ _ _ H)
    as (c & p & nv & tv & t0 & acc & _ & _ & Hv & Hloop & ->).
  cbn [states totals].
  destruct (vaccination_module_other_totals _ _ _ _ _ _ _ _ Hv)
    as (E1 & E2 & E3 & E4 & E5 & E6).
  assert (Hstep : forall i st a u a' u',
            balanced m (new_states a) (acc_totals a) ->
            new_states a !! i = Some st ->
            i < length (new_quarantined a) ->
            update_agent g m d s c p i st a u = Ok (a', u') ->
            balanced m (new_states a') (acc_totals a')).
  { intros i st a u a' u' HP Hst Hi Hu.
    destruct (lookup_lt_is_Some_2 _ _ Hi) as [q Hq].
    destruct (update_agent_step _ _ _ _ _ _ _ _ _ _ _ _ _ Hu Hst Hq)
      as (st' & q' & -> & _ & Hagent).
    eapply agent_step_balanced; eauto. }
  apply (agents_loop_keeps g m d s c p
           (fun a => balanced m (new_states a) (acc_totals a))
           Hstep _ _ _ _ _ _ Hloop); cbn.
  - intros k st Hk. exact Hk.
  - rewrite (inv_len_quarantined _ _ _ I), (inv_len_states _ _ _ I). reflexivity.
  - unfold balanced in *. rewrite E1, E2, E3, E4, E6. exact B.
Qed.

(** With initial blocks that fit, the totals account for the population all
    along a run. *)
Lemma sim_upto_balanced g m d t s t' :
  rng_wf g -> blocks_fit m ->
  sim_upto g m d t = Ok (s, t') ->
  balanced m (states s) (totals s).
Proof.
  intros Hg Hfit H.
  assert (Hall : forall d t s t', sim_upto g m d t = Ok (s, t') ->
            run_inv m d s /\ balanced m (states s) (totals s));
    [|exact (proj2 (Hall _ _ _ _ H))].
  clear H. apply (sim_upto_ind g m
           (fun d s => run_inv m d s /\ balanced m (states s) (totals s))).
  - intros u s0 u' H. split; [eapply sim_init_inv; eauto|].
    pose proof (sim_init_counts _ _ _ _ _ Hg Hfit H) as E.
    unfold row_of_counts, day0_row in E.
    injection E as ES EE EI ER _ _ _.
    unfold sim_init in H. monad_inv H. unfold balanced. cbn in *.
    repeat split; lia.
  - intros n s0 u s1 u' [I B] Hday.
    split; [eapply sim_day_inv_step; eauto|eapply sim_day_balanced; eauto].
Qed.

(** X4 (the totals balance). When the initial blocks fit the population,
    the counts of the last recorded day follow from the totals of the run:
    recovered is the [R] total, infectious is the [I] total minus the [R]
    total, exposed is the [E] total minus the onsets, susceptible is the [S]
    total minus the exposures counted in [infected]; and the [E] total is
    the initial exposed count plus those exposures. *)
Theorem totals_balance_with_final_counts g m t rows tot t' :
  rng_wf g ->
  blocks_fit m ->
  sim g m t = Ok (rows, tot, t') ->
  exists r,
    last rows = Some r /\
    (r_R r = t_R tot /\
     r_I r = t_I tot - t_R tot /\
     r_E r = t_E tot - (t_I tot - Z.of_nat (init_infected m)) /\
     r_S r = t_S tot - t_infected tot /\
     t_E tot = Z.of_nat (init_exposed m) + t_infected tot)%Z.
Proof.
  intros Hg Hfit H.
  destruct (sim_inv_totals _ _ _ _ _ _ H)
    as (s & Hs & -> & ES & EE & EI & ER & _ & _ & Einf & _).
  destruct (sim_upto_balanced _ _ _ _ _ _ Hg Hfit Hs) as (B1 & B2 & B3 & B4 & B5).
  eexists. split.
  { apply (last_row_is_current_counts _ _ _ _ _ _ Hg Hs). right. exact Hfit. }
  cbn. rewrite ES, EE, EI, ER, Einf. repeat split; lia.
Qed.

Lemma totals_balance_with_final_counts_witness :
  rng_wf rng_demo /\
  blocks_fit demo /\
  sim rng_demo demo 0 = Ok (demo_rows, demo_totals, 25) /\
  exists r, last demo_rows = Some r /\ r_R r = t_R demo_totals.
Proof.
  split; [exact rng_demo_wf|].
  split; [unfold blocks_fit; vm_compute; lia|].
  split; [vm_compute; reflexivity|].
  destruct (totals_balance_with_final_counts rng_demo demo 0 demo_rows
              demo_totals 25 rng_demo_wf
              ltac:(unfold blocks_fit; vm_compute; lia)
              ltac:(vm_compute; reflexivity)) as (r & Hr & HR & _).
  exists r. split; assumption.
Defined.

(** ** The vaccinated total *)

Lemma where_ne_from_value v l : forall i0 j,
  j ∈ where_ne_from i0 v l ->
  exists x, l !! (j - i0) = Some x /\ x <> v.
Proof.
  induction l as [|y l IH]; intros i0 j Hj; cbn [where_ne_from] in Hj.
  - inversion Hj.
  - destruct (Nat.eqb_spec y v) as [->|Hne].
    + pose proof (where_ne_from_bound _ _ _ _ Hj) as Hb.
      destruct (IH _ _ Hj) as (x & Hx & Hxv).
      exists x. split; [|exact Hxv].
      replace (j - i0) with (S (j - S i0)) by lia. exact Hx.
    + apply elem_of_cons in Hj. destruct Hj as [->|Hj].
      * exists y. rewrite Nat.sub_diag. split; [reflexivity|exact Hne].
      * pose proof (where_ne_from_bound _ _ _ _ Hj) as Hb.
        destruct (IH _ _ Hj) as (x & Hx & Hxv).
        exists x. split; [|exact Hxv].
        replace (j - i0) with (S (j - S i0)) by lia. exact Hx.
Qed.

Lemma where_ne_from_NoDup v l : forall i0, NoDup (where_ne_from i0 v l).
Proof.
  induction l as [|y l IH]; intros i0; cbn [where_ne_from].
  - constructor.
  - destruct (Nat.eqb y v); [apply IH|].
    apply NoDup_cons. split; [|apply IH].
    intros Hin. apply where_ne_from_bound in Hin. lia.
Qed.

Lemma choice_NoDup g t pool k :
  rng_wf g -> NoDup pool -> k <= length pool -> NoDup (choice g t pool k).
Proof.
  intros Hg Hnd Hk.
  destruct (choice_sample g Hg t pool k Hk) as [_ [rest Hp]].
  rewrite <- Hp in Hnd. apply NoDup_app in Hnd. apply Hnd.
Qed.

(** Setting distinct entries that are not yet [v] raises the count of [v]
    by their number. *)
Lemma put_at_count v idx :
  forall a a',
  NoDup idx ->
  (forall j, j ∈ idx -> exists x, a !! j = Some x /\ x <> v) ->
  put_at a idx v = Ok a' ->
  count_eq v a' = (count_eq v a + Z.of_nat (length idx))%Z.
Proof.
  induction idx as [|j idx IH]; intros a a' Hnd Hval H; cbn [put_at] in H.
  - injection H as <-. cbn. lia.
  - destruct (Nat.ltb_spec j (length a)) as [Hj|Hj]; [|discriminate].
    apply NoDup_cons in Hnd. destruct Hnd as [Hnotin Hnd].
    destruct (Hval j ltac:(left)) as (x & Hx & Hxv).
    assert (Hrest : forall k, k ∈ idx ->
              exists y, <[j:=v]> a !! k = Some y /\ y <> v).
    { intros k Hk. destruct (Hval k ltac:(right; exact Hk)) as (y & Hy & Hyv).
      exists y. split; [|exact Hyv].
      rewrite list_lookup_insert_ne; [exact Hy|].
      intros ->. contradiction. }
    rewrite (IH _ _ Hnd Hrest H), (count_eq_insert _ _ _ _ _ Hx).
    destruct (Nat.eqb_spec x v); [contradiction|].
    rewrite Nat.eqb_refl. cbn [length]. lia.
Qed.

(** The vaccination module adds to the [V] total exactly the number of
    agents it newly marks. *)
Lemma vaccination_module_count g m day self t nv tv t' :
  rng_wf g ->
  vaccination_module g m day self t = Ok (nv, tv, t') ->
  exists k : nat,
    t_V tv = (t_V (totals self) + Z.of_nat k)%Z /\
    count_eq VACCINATED nv
    = (count_eq VACCINATED (vaccinated self) + Z.of_nat k)%Z.
Proof.
  intros Hg H. unfold vaccination_module in H. monad_inv H;
    try (exists 0; cbn; split; lia).
  match goal with
  | Hput : put_at _ (choice g ?u ?pool ?k) _ = Ok _, Hle : ?k <= length ?pool |- _ =>
      exists k; split; [cbn; lia|];
      assert (Hnd : NoDup (choice g u pool k))
        by (apply choice_NoDup; [exact Hg|apply where_ne_from_NoDup|exact Hle]);
      assert (Hval : forall j, j ∈ choice g u pool k ->
                exists x, vaccinated self !! j = Some x /\ x <> VACCINATED);
      [|rewrite (put_at_count _ _ _ _ Hnd Hval Hput),
          (proj1 (choice_sample g Hg u pool k Hle)); reflexivity]
  end.
  intros j Hj. apply choice_in_pool in Hj; [|exact Hg|assumption].
  destruct (where_ne_from_value _ _ _ _ Hj) as (x & Hx & Hxv).
  rewrite Nat.sub_0_r in Hx. eauto.
Qed.

Lemma update_agent_t_V g m day self c p i st acc t acc' t' :
  update_agent g m day self c p i st acc t = Ok (acc', t') ->
  t_V (acc_totals acc') = t_V (acc_totals acc).
Proof.
  intros H. unfold update_agent in H. monad_inv H; reflexivity.
Qed.

Lemma agents_loop_t_V g m day self c p sts :
  forall i0 acc t acc' t',
  agents_loop g m day self c p i0 sts acc t = Ok (acc', t') ->
  t_V (acc_totals acc') = t_V (acc_totals acc).
Proof.
  induction sts as [|s rest IH]; intros i0 acc t acc' t' H; cbn [agents_loop] in H.
  - apply ret_Ok in H. destruct H as [-> ->]. reflexivity.
  - apply bind_Ok in H. destruct H as (a & t1 & Hstep & Hrest).
    rewrite (IH _ _ _ _ _ Hrest). eapply update_agent_t_V; eauto.
Qed.

(** The [V] total is the current vaccinated count all along a run, the last
    row records it, and no earlier row exceeds it. *)
Lemma run_vaccinated_total g m d t s t' :
  rng_wf g ->
  sim_upto g m d t = Ok (s, t') ->
  t_V (totals s) = count_eq VACCINATED (vaccinated s) /\
  (exists r, last (rows_of (history s)) = Some r /\
             r_V r = count_eq VACCINATED (vaccinated s)) /\
  (forall r, r ∈ rows_of (history s) ->
             (r_V r <= count_eq VACCINATED (vaccinated s))%Z).
Proof.
  intros Hg. revert d t s t'.
  apply (run_rows_ind g m
           (fun _ s rows =>
              t_V (totals s) = count_eq VACCINATED (vaccinated s) /\
              (exists r, last rows = Some r /\
                         r_V r = count_eq VACCINATED (vaccinated s)) /\
              (forall r, r ∈ rows ->
                         (r_V r <= count_eq VACCINATED (vaccinated s))%Z)) Hg).
  - intros u s0 u' H0. unfold sim_init in H0. monad_inv H0. cbn.
    rewrite count_eq_replicate_ne by discriminate.
    split; [reflexivity|]. split; [eexists; split; reflexivity|].
    intros r Hr. apply list_elem_of_singleton in Hr. subst r. cbn. lia.
  - intros d s0 u s1 u' rows _ _ (HV & _ & Hle) Hday.
    destruct (sim_day_inv _ _ _ _ _ _ _ Hday)
      as (c & p & nv & tv & u0 & acc & _ & _ & Hv & Hloop & ->).
    cbn [totals vaccinated states quarantined].
    destruct (vaccination_module_count _ _ _ _ _ _ _ _ Hg Hv) as (k & Hk1 & Hk2).
    pose proof (agents_loop_t_V _ _ _ _ _ _ _ _ _ _ _ _ Hloop) as HtV.
    cbn in HtV. split; [lia|]. split.
    + eexists. split; [apply last_snoc|]. reflexivity.
    + intros r Hr. apply elem_of_app in Hr. destruct Hr as [Hr|Hr].
      * specialize (Hle r Hr). lia.
      * apply list_elem_of_singleton in Hr. subst r. cbn. lia.
Qed.

(** X5 (the vaccinated total). The [V] total of a run is the vaccinated
    count of the last recorded day, and it is also the vaccinated peak: the
    total counts every vaccinated agent once. *)
Theorem vaccinated_total_is_final_count g m t rows tot t' :
  rng_wf g ->
  sim g m t = Ok (rows, tot, t') ->
  exists r,
    last rows = Some r /\ r_V r = t_V tot /\ t_max_vaccinated tot = t_V tot.
Proof.
  intros Hg H.
  destruct (sim_inv_totals _ _ _ _ _ _ H)
    as (s & Hs & -> & _ & _ & _ & _ & EV & _ & _ & _ & _ & _ & Hmax).
  destruct (run_vaccinated_total _ _ _ _ _ _ Hg Hs) as (HV & (r & Hr & HrV) & Hle).
  exists r. split; [exact Hr|]. split; [congruence|].
  destruct (column_max_spec r_V _ _ Hmax) as [(r' & Hr' & E) Hub].
  assert (Hin : r ∈ rows_of (history s)).
  { rewrite last_lookup in Hr. apply list_elem_of_lookup. eauto. }
  specialize (Hub r Hin). specialize (Hle r' Hr'). lia.
Qed.

Lemma vaccinated_total_is_final_count_witness :
  rng_wf rng_demo /\
  sim rng_demo demo 0 = Ok (demo_rows, demo_totals, 25) /\
  t_max_vaccinated demo_totals = t_V demo_totals /\
  t_V demo_totals = 6%Z.
Proof.
  split; [exact rng_demo_wf|].
  split; [vm_compute; reflexivity|].
  split; [|reflexivity].
  destruct (vaccinated_total_is_final_count rng_demo demo 0 demo_rows
              demo_totals 25 rng_demo_wf ltac:(vm_compute; reflexivity))
    as (r & _ & _ & E).
  exact E.
Defined.

(** ** Runs without quarantine or without vaccination *)

Lemma no_trigger_inactive m day sts :
  no_quarantine_trigger m -> quarantine_active m day sts = Ok false.
Proof.
  unfold no_quarantine_trigger, quarantine_active.
  intros [->|[H1 H2]]; [reflexivity|].
  rewrite H1, H2. destruct (quarantine_enabled (quarantine m)); reflexivity.
Qed.

Lemma count_eq_none v l :
  (forall j, l !! j <> Some v) -> count_eq v l = 0%Z.
Proof.
  induction l as [|x l IH]; intros H; [reflexivity|]. cbn [count_eq].
  destruct (Nat.eqb_spec x v) as [->|_].
  - exfalso. exact (H 0 eq_refl).
  - rewrite IH; [reflexivity|]. intros j. exact (H (S j)).
Qed.

Lemma update_agent_no_quarantine g m day self c p i st acc t acc' t' :
  quarantine_active m day (states self) = Ok false ->
  update_agent g m day self c p i st acc t = Ok (acc', t') ->
  t_Q (acc_totals acc') = t_Q (acc_totals acc) /\
  forall j, new_quarantined acc' !! j = Some QUARANTINED ->
            new_quarantined acc !! j = Some QUARANTINED.
Proof.
  intros Hoff H. unfold update_agent in H. monad_inv H;
    try congruence; cbn; (split; [reflexivity|]); try (intros j Hj; exact Hj).
  intros j Hj. rewrite list_lookup_insert in Hj.
  destruct (decide (i = j /\ i < length (new_quarantined acc)));
    [discriminate|exact Hj].
Qed.

Lemma sim_day_no_quarantine g m d s t s' t' :
  run_inv m d s ->
  no_quarantine_trigger m ->
  sim_day g m d s t = Ok (s', t') ->
  t_Q (totals s) = 0%Z ->
  (forall j, quarantined s !! j <> Some QUARANTINED) ->
  t_Q (totals s') = 0%Z /\
  forall j, quarantined s' !! j <> Some QUARANTINED.
Proof.
  intros I Hno H HQ Hflags.
  destruct (sim_day_inv _ _ _ _ _ _ _ H)
    as (c & p & nv & tv & t0 & acc & _ & _ & Hv & Hloop & ->).
  cbn [totals quarantined].
  destruct (vaccination_module_other_totals _ _ _ _ _ _ _ _ Hv)
    as (_ & _ & _ & _ & E5 & _).
  assert (Hstep : forall i st a u a' u',
            (t_Q (acc_totals a) = 0%Z /\
             forall j, new_quarantined a !! j <> Some QUARANTINED) ->
            new_states a !! i = Some st ->
            i < length (new_quarantined a) ->
            update_agent g m d s c p i st a u = Ok (a', u') ->
            t_Q (acc_totals a') = 0%Z /\
            forall j, new_quarantined a' !! j <> Some QUARANTINED).
  { intros i st a u a' u' [A B] _ _ Hu.
    destruct (update_agent_no_quarantine _ _ _ _ _ _ _ _ _ _ _ _
                (no_trigger_inactive m d (states s) Hno) Hu) as [E F].
    split; [congruence|]. intros j Hj. exact (B j (F j Hj)). }
  apply (agents_loop_keeps g m d s c p _ Hstep _ _ _ _ _ _ Hloop); cbn.
  - intros k st Hk. exact Hk.
  - rewrite (inv_len_quarantined _ _ _ I), (inv_len_states _ _ _ I). reflexivity.
  - split; [congruence|exact Hflags].
Qed.

Lemma run_no_quarantine g m d t s t' :
  rng_wf g ->
  no_quarantine_trigger m ->
  sim_upto g m d t = Ok (s, t') ->
  t_Q (totals s) = 0%Z /\
  (forall j, quarantined s !! j <> Some QUARANTINED) /\
  forall r, r ∈ rows_of (history s) -> r_Q r = 0%Z.
Proof.
  intros Hg Hno. revert d t s t'.
  apply (run_rows_ind g m
           (fun _ s rows =>
              t_Q (totals s) = 0%Z /\
              (forall j, quarantined s !! j <> Some QUARANTINED) /\
              forall r, r ∈ rows -> r_Q r = 0%Z) Hg).
  - intros u s0 u' H0. unfold sim_init in H0. monad_inv H0. cbn.
    split; [reflexivity|]. split.
    + intros j Hj. apply lookup_replicate in Hj. destruct Hj as [Hj _].
      discriminate.
    + intros r Hr. apply list_elem_of_singleton in Hr. subst r. reflexivity.
  - intros d s0 u s1 u' rows I _ (HQ & Hflags & Hrows) Hday.
    destruct (sim_day_no_quarantine _ _ _ _ _ _ _ I Hno Hday HQ Hflags) as [A B].
    split; [exact A|]. split; [exact B|].
    intros r Hr. apply elem_of_app in Hr. destruct Hr as [Hr|Hr]; [auto|].
    apply list_elem_of_singleton in Hr. subst r. cbn.
    apply count_eq_none. exact B.
Qed.

(** X7 (baseline). In a run of a model without a quarantine trigger
    (quarantine never enabled, or enabled by a call that named no day and no
    threshold), the quarantined count of every recorded day, the [Q] total
    and the quarantined peak are 0: no agent is ever quarantined. In a run
    of a model without vaccination the same holds of the vaccinated count,
    the [V] total and the vaccinated peak. *)
Theorem no_intervention_baseline g m t rows tot t' :
  rng_wf g ->
  sim g m t = Ok (rows, tot, t') ->
  (no_quarantine_trigger m ->
   (forall r, r ∈ rows -> r_Q r = 0%Z) /\
   t_Q tot = 0%Z /\ t_max_quarantined tot = 0%Z) /\
  (vaccination_enabled (vaccination m) = false ->
   (forall r, r ∈ rows -> r_V r = 0%Z) /\
   t_V tot = 0%Z /\ t_max_vaccinated tot = 0%Z).
Proof.
  intros Hg H.
  destruct (sim_inv_totals _ _ _ _ _ _ H)
    as (s & Hs & -> & _ & _ & _ & _ & EV & EQ & _ & _ & _ & HmQ & HmV).
  split.
  - intros Hno.
    destruct (run_no_quarantine _ _ _ _ _ _ Hg Hno Hs) as (A & _ & C).
    split; [exact C|]. split; [congruence|].
    destruct (column_max_spec r_Q _ _ HmQ) as [(r & Hr & E) _].
    rewrite <- E. auto.
  - intros Hoff.
    pose proof (sim_upto_inv _ _ _ _ _ _ Hg Hs) as I.
    destruct (inv_no_vaccination _ _ _ I Hoff) as [Hz Hrows].
    destruct (run_vaccinated_total _ _ _ _ _ _ Hg Hs) as (HV & _ & _).
    split; [exact Hrows|]. split; [congruence|].
    destruct (column_max_spec r_V _ _ HmV) as [(r & Hr & E) _].
    rewrite <- E. auto.
Qed.

Lemma no_intervention_baseline_witness :
  rng_wf rng_demo /\
  no_quarantine_trigger scenario_D /\
  vaccination_enabled (vaccination scenario_D) = false /\
  exists tot t',
    sim rng_demo scenario_D 0 = Ok (scenario_D_rows, tot, t') /\
    t_Q tot = 0%Z /\ t_V tot = 0%Z.
Proof.
  split; [exact rng_demo_wf|].
  split; [left; reflexivity|]. split; [reflexivity|].
  do 2 eexists. split; [vm_compute; reflexivity|].
  destruct (no_intervention_baseline rng_demo scenario_D 0 scenario_D_rows _ _
              rng_demo_wf ltac:(vm_compute; reflexivity)) as [HQ HV].
  split.
  - exact (proj1 (proj2 (HQ (or_introl eq_refl)))).
  - exact (proj1 (proj2 (HV eq_refl))).
Defined.

(** ** No transmission *)

Lemma current_beta_zero g m day sts p :
  float_ok g ->
  (beta m == 0)%Q -> current_beta g m day sts = Ok p -> (p == 0)%Q.
Proof.
  intros Hf Hb H. unfold current_beta in H.
  destruct (masking_active m day sts) as [[|]|]; try discriminate;
    injection H as <-; [|exact Hb].
  apply (fmul_0 g Hf). exact Hb.
Qed.

Lemma exposure_bound_zero g p k :
  float_ok g -> (p == 0)%Q -> (fsub g 1 (fpow g (fsub g 1 p) k) == 0)%Q.
Proof.
  intros Hf Hp.
  apply (fsub_1_1 g Hf), (fpow_1 g Hf), (fsub_1_0 g Hf). exact Hp.
Qed.

(** With transmission probability 0 the loop body leaves the susceptible
    count and the exposure totals alone. *)
Lemma update_agent_beta_zero g m day self c p i st acc t acc' t' :
  rng_wf g ->
  float_ok g ->
  (p == 0)%Q ->
  new_states acc !! i = Some st ->
  update_agent g m day self c p i st acc t = Ok (acc', t') ->
  count_eq SUSCEPTIBLE (new_states acc') = count_eq SUSCEPTIBLE (new_states acc) /\
  t_infected (acc_totals acc') = t_infected (acc_totals acc) /\
  t_E (acc_totals acc') = t_E (acc_totals acc).
Proof.
  intros Hg Hf Hp Hst H. unfold update_agent in H. monad_inv H;
    cbn; rewrite ?(count_eq_insert _ _ _ _ _ Hst); try (repeat split; fail).
  - exfalso.
    match goal with
    | Hlt : Qlt_bool _ _ = true |- _ => apply Qlt_bool_iff in Hlt;
        rewrite (exposure_bound_zero g _ _ Hf Hp) in Hlt;
        apply (Qlt_not_le _ _ Hlt); apply (rand_range g Hg)
    end.
  - apply Nat.eqb_eq in Hif0. subst st. cbn. repeat split; lia.
  - apply Nat.eqb_eq in Hif1. subst st. cbn. repeat split; lia.
Qed.

(** X8 (no transmission). With [beta = 0] and initial blocks that fit,
    nobody is ever exposed: every recorded day has the initial susceptible
    count [N - init_exposed - init_infected], the [infected] total is 0 and
    the [E] total stays at the initial exposed count, whatever masking is
    configured. The float operations keep the bound of the exposure test at
    0: a product with 0 is 0, [1 - 0] is 1, a power of 1 is 1 and [1 - 1]
    is 0. *)
Theorem zero_beta_exposes_nobody g m t rows tot t' :
  rng_wf g ->
  float_ok g ->
  blocks_fit m ->
  (beta m == 0)%Q ->
  sim g m t = Ok (rows, tot, t') ->
  (forall r, r ∈ rows ->
     r_S r = (Z.of_nat (N m) - Z.of_nat (init_exposed m)
              - Z.of_nat (init_infected m))%Z) /\
  t_infected tot = 0%Z /\
  t_E tot = Z.of_nat (init_exposed m).
Proof.
  intros Hg Hf Hfit Hb H.
  destruct (sim_inv_totals _ _ _ _ _ _ H)
    as (s & Hs & -> & _ & EE & _ & _ & _ & _ & Einf & _).
  rewrite EE, Einf. clear H EE Einf tot.
  revert Hs. generalize (days m). intros n Hs.
  set (s0 := (Z.of_nat (N m) - Z.of_nat (init_exposed m)
              - Z.of_nat (init_infected m))%Z).
  assert (Hall :
    (count_eq SUSCEPTIBLE (states s) = s0 /\
     t_infected (totals s) = 0%Z /\
     t_E (totals s) = Z.of_nat (init_exposed m)) /\
    forall r, r ∈ rows_of (history s) -> r_S r = s0);
    [|destruct Hall as [(_ & A & B) C]; auto].
  revert n t s t' Hs.
  apply (run_rows_ind g m
           (fun _ s rows =>
              (count_eq SUSCEPTIBLE (states s) = s0 /\
               t_infected (totals s) = 0%Z /\
               t_E (totals s) = Z.of_nat (init_exposed m)) /\
              forall r, r ∈ rows -> r_S r = s0) Hg).
  - intros u a u' H0.
    pose proof (sim_init_counts _ _ _ _ _ Hg Hfit H0) as E.
    unfold row_of_counts, day0_row in E. injection E as ES _ _ _ _ _ _.
    unfold sim_init in H0. monad_inv H0. cbn in *.
    split; [repeat split; assumption|].
    intros r Hr. apply list_elem_of_singleton in Hr. subst r. reflexivity.
  - intros d a u a' u' rows I _ [(HS & Hinf & HE) Hrows] Hday.
    destruct (sim_day_inv _ _ _ _ _ _ _ Hday)
      as (c & p & nv & tv & u0 & acc & _ & Hp & Hv & Hloop & ->).
    cbn [totals states vaccinated quarantined].
    destruct (vaccination_module_other_totals _ _ _ _ _ _ _ _ Hv)
      as (_ & E2 & _ & _ & _ & E6).
    pose proof (current_beta_zero _ _ _ _ _ Hf Hb Hp) as Hp0.
    assert (Hstep : forall i st b v b' v',
              (count_eq SUSCEPTIBLE (new_states b) = s0 /\
               t_infected (acc_totals b) = 0%Z /\
               t_E (acc_totals b) = Z.of_nat (init_exposed m)) ->
              new_states b !! i = Some st ->
              i < length (new_quarantined b) ->
              update_agent g m d a c p i st b v = Ok (b', v') ->
              count_eq SUSCEPTIBLE (new_states b') = s0 /\
              t_infected (acc_totals b') = 0%Z /\
              t_E (acc_totals b') = Z.of_nat (init_exposed m)).
    { intros i st b v b' v' (A & B & C) Hst _ Hu.
      destruct (update_agent_beta_zero _ _ _ _ _ _ _ _ _ _ _ _ Hg Hf Hp0 Hst Hu)
        as (F1 & F2 & F3).
      repeat split; congruence. }
    assert (Hend : count_eq SUSCEPTIBLE (new_states acc) = s0 /\
                   t_infected (acc_totals acc) = 0%Z /\
                   t_E (acc_totals acc) = Z.of_nat (init_exposed m)).
    { apply (agents_loop_keeps g m d a c p _ Hstep _ _ _ _ _ _ Hloop); cbn.
      - intros k st Hk. exact Hk.
      - rewrite (inv_len_quarantined _ _ _ I), (inv_len_states _ _ _ I).
        reflexivity.
      - repeat split; congruence. }
    split; [exact Hend|].
    intros r Hr. apply elem_of_app in Hr. destruct Hr as [Hr|Hr]; [auto|].
    apply list_elem_of_singleton in Hr. subst r. cbn. apply Hend.
Qed.

Lemma zero_beta_exposes_nobody_witness :
  rng_wf rng_demo /\
  float_ok rng_demo /\
  blocks_fit zero_beta_model /\
  (beta zero_beta_model == 0)%Q /\
  exists rows tot t',
    sim rng_demo zero_beta_model 0 = Ok (rows, tot, t') /\
    length rows = 4 /\
    forall r, r ∈ rows -> r_S r = 5%Z.
Proof.
  split; [exact rng_demo_wf|].
  split; [exact rng_demo_float_ok|].
  split; [unfold blocks_fit; vm_compute; lia|].
  split; [reflexivity|].
  do 3 eexists. split; [vm_compute; reflexivity|]. split; [reflexivity|].
  refine (proj1 (zero_beta_exposes_nobody rng_demo zero_beta_model 0 _ _ _
                   rng_demo_wf rng_demo_float_ok _ _ _)).
  - unfold blocks_fit. vm_compute. lia.
  - reflexivity.
  - vm_compute; reflexivity.
Defined.

(** A run of the sibling of Scenario D: the row of day 2 has all ten agents
    vaccinated. *)
Lemma vaccination_rate_one_reaches_everybody_witness :
  rng_wf rng_demo /\
  vaccination_enabled (vaccination scenario_D1) = true /\
  vaccine_start (vaccination scenario_D1) = Some 1%Z /\
  (vaccine_rate (vaccination scenario_D1) == 1)%Q /\
  exists rows tot t',
    sim rng_demo scenario_D1 0 = Ok (rows, tot, t') /\
    forall r, rows !! 2 = Some r -> r_V r = 10%Z.
Proof.
  split; [exact rng_demo_wf|].
  split; [reflexivity|]. split; [reflexivity|]. split; [reflexivity|].
  do 3 eexists. split; [vm_compute; reflexivity|].
  intros r Hr.
  refine (vaccination_rate_one_reaches_everybody rng_demo scenario_D1 0 _ _ _
            1%Z rng_demo_wf eq_refl eq_refl _ _ 1 r _ Hr).
  - reflexivity.
  - vm_compute; reflexivity.
  - vm_compute. discriminate.
Defined.

(** * Further properties of the configuration *)

Lemma magnitudes_ok_init n ii ie dd b sg gm ar :
  magnitudes_ok (init n ii ie dd b sg gm ar).
Proof. unfold magnitudes_ok. cbn. repeat split; discriminate. Qed.

(** What the configuration methods keep of a model, whatever the
    constructor was given: the magnitudes they validate, and a reduced
    contact count wherever a distancing trigger is enabled. *)
Lemma built_magnitudes_ok m :
  built m ->
  magnitudes_ok m /\
  (reduced_contacts (distancing m) = None ->
   distancing_enabled_day (distancing m) = false /\
   distancing_enabled_threshold (distancing m) = false).
Proof.
  induction 1 as [| m q dy th m' _ IH H | m r dy dev m' _ IH H
                  | m e dy th m' _ IH H | m r dy th m' _ IH H].
  - split; [apply magnitudes_ok_init|]. intros _. split; reflexivity.
  - destruct IH as [(A & B & C & D) R]. unfold apply_quarantine in H.
    destruct (in_unit q) eqn:Hq; [|discriminate]. cbn in H.
    destruct (truthy dy), (truthy th); cbn in H; try discriminate;
      injection H as <-; unfold magnitudes_ok; cbn; auto.
  - destruct IH as [(A & B & C & D) R]. unfold apply_vaccination in H.
    destruct (in_unit r) eqn:Hr; [|discriminate]. cbn in H.
    destruct (truthy dy); cbn in H.
    + injection H as <-. unfold magnitudes_ok; cbn; auto.
    + rewrite andb_true_r in H. destruct (truthy dev); [discriminate|].
      injection H as <-. unfold magnitudes_ok; auto.
  - destruct IH as [(A & B & C & D) R]. unfold apply_masking in H.
    destruct (in_unit e) eqn:He; [|discriminate]. cbn in H.
    destruct (truthy dy), (truthy th); cbn in H; try discriminate;
      injection H as <-; unfold magnitudes_ok; cbn; auto.
  - destruct IH as [(A & B & C & D) R]. unfold apply_distancing in H.
    destruct (Nat.ltb 0 r && Nat.ltb r (act_rate m)) eqn:Hr; [|discriminate].
    apply andb_true_iff in Hr. destruct Hr as [H0 H1].
    apply Nat.ltb_lt in H0. apply Nat.ltb_lt in H1. cbn in H.
    destruct (truthy dy), (truthy th); cbn in H; try discriminate;
      injection H as <-; unfold magnitudes_ok; cbn;
      (split; [split; [exact A|split; [exact B|split; [exact C|]]]|]);
      try (intros c Hc; try (injection Hc as <-; lia); auto; fail);
      try discriminate; auto.
Qed.

Lemma configured_built m : configured m -> built m.
Proof.
  induction 1; [apply built_init| | | |].
  - eapply built_quarantine; eauto.
  - eapply built_vaccination; eauto.
  - eapply built_masking; eauto.
  - eapply built_distancing; eauto.
Qed.

(** X10 (interventions only reduce). In every model built by the
    constructor, whatever its arguments, and the configuration methods, the
    stored probabilities lie in [0, 1]; on every day the contact count is
    the base rate or a reduced count strictly between 0 and the base rate,
    and, for a base transmission probability that is not negative, the day's
    transmission probability lies between 0 and the base one. *)
Theorem interventions_only_reduce g m day sts :
  float_ok g ->
  built m ->
  magnitudes_ok m /\
  (forall c, current_contacts m day sts = Ok c ->
     c = act_rate m \/ 0 < c < act_rate m) /\
  (forall p, (0 <= beta m)%Q -> current_beta g m day sts = Ok p ->
     (0 <= p <= beta m)%Q).
Proof.
  intros Hf Hb.
  destruct (built_magnitudes_ok m Hb) as [Hmag Hnone].
  split; [exact Hmag|]. destruct Hmag as (_ & _ & He & Hred). split.
  - intros c Hc. unfold current_contacts in Hc.
    destruct (distancing_active m day sts) as [[|]|] eqn:Ha; try discriminate;
      injection Hc as <-; [|left; reflexivity].
    destruct (reduced_contacts (distancing m)) as [c0|] eqn:Hr;
      [right; auto|].
    exfalso. destruct (Hnone eq_refl) as [A B].
    unfold distancing_active, triggered in Ha. rewrite A, B in Ha.
    destruct (distancing_enabled (distancing m)); discriminate.
  - intros p Hbeta Hp. unfold current_beta in Hp.
    destruct (masking_active m day sts) as [[|]|]; try discriminate;
      injection Hp as <-; [|split; [exact Hbeta|apply Qle_refl]].
    unfold in_unit in He. apply andb_true_iff in He. destruct He as [E0 E1].
    apply Qle_bool_iff in E0. apply Qle_bool_iff in E1.
    apply (fmul_unit g Hf); [exact Hbeta|].
    apply (fsub_unit g Hf). split; assumption.
Qed.

Lemma demo_configured : configured demo.
Proof.
  pose (m1 := or_else (apply_quarantine demo_base 1 None (Some 1%Z)) demo_base).
  pose (m2 := or_else (apply_masking m1 (1 # 2) (Some 1%Z) None) m1).
  pose (m3 := or_else (apply_vaccination m2 1 (Some 2%Z) None) m2).
  apply (configured_distancing m3 2 None (Some 2%Z)); [|reflexivity].
  apply (configured_vaccination m2 1 (Some 2%Z) None); [|reflexivity].
  apply (configured_masking m1 (1 # 2) (Some 1%Z) None); [|reflexivity].
  apply (configured_quarantine demo_base 1 None (Some 1%Z)); [|reflexivity].
  apply configured_init; lia.
Qed.

Lemma crowded_model_built : built crowded_model.
Proof.
  apply (built_distancing (init 3 1 0 1 (1 # 2) (1 # 2) (1 # 2) 5)
           2 (Some 1%Z) None); [apply built_init|reflexivity].
Qed.

Lemma interventions_only_reduce_witness :
  float_ok rng_demo /\
  built crowded_model /\
  N crowded_model < act_rate crowded_model /\
  current_contacts crowded_model 1 [SUSCEPTIBLE; INFECTIOUS; SUSCEPTIBLE] = Ok 2 /\
  (2 = act_rate crowded_model \/ 0 < 2 < act_rate crowded_model).
Proof.
  split; [exact rng_demo_float_ok|]. split; [exact crowded_model_built|].
  split; [vm_compute; lia|]. split; [reflexivity|].
  exact (proj1 (proj2 (interventions_only_reduce rng_demo crowded_model 1
                         [SUSCEPTIBLE; INFECTIOUS; SUSCEPTIBLE]
                         rng_demo_float_ok crowded_model_built)) 2 eq_refl).
Defined.

Ltac commute_cases :=
  unfold and_then, configured_model;
  repeat match goal with
         | |- context [in_unit ?x] => destruct (in_unit x)
         | |- context [truthy ?x] => destruct (truthy x)
         end;
  cbn -[Nat.ltb];
  repeat match goal with
         | |- context [Nat.ltb 0 ?r && Nat.ltb ?r ?a] =>
             destruct (Nat.ltb 0 r && Nat.ltb r a)
         end;
  cbn -[Nat.ltb]; reflexivity.

Lemma quarantine_masking_commute m q qd qt e ed et :
  configured_model (and_then (apply_quarantine m q qd qt)
                      (fun m1 => apply_masking m1 e ed et))
  = configured_model (and_then (apply_masking m e ed et)
                        (fun m1 => apply_quarantine m1 q qd qt)).
Proof. unfold apply_quarantine, apply_masking. commute_cases. Qed.

Lemma quarantine_vaccination_commute m q qd qt v vd vdev :
  configured_model (and_then (apply_quarantine m q qd qt)
                      (fun m1 => apply_vaccination m1 v vd vdev))
  = configured_model (and_then (apply_vaccination m v vd vdev)
                        (fun m1 => apply_quarantine m1 q qd qt)).
Proof. unfold apply_quarantine, apply_vaccination. commute_cases. Qed.

Lemma quarantine_distancing_commute m q qd qt r rd rt :
  configured_model (and_then (apply_quarantine m q qd qt)
                      (fun m1 => apply_distancing m1 r rd rt))
  = configured_model (and_then (apply_distancing m r rd rt)
                        (fun m1 => apply_quarantine m1 q qd qt)).
Proof. unfold apply_quarantine, apply_distancing. commute_cases. Qed.

Lemma masking_vaccination_commute m e ed et v vd vdev :
  configured_model (and_then (apply_masking m e ed et)
                      (fun m1 => apply_vaccination m1 v vd vdev))
  = configured_model (and_then (apply_vaccination m v vd vdev)
                        (fun m1 => apply_masking m1 e ed et)).
Proof. unfold apply_masking, apply_vaccination. commute_cases. Qed.

Lemma masking_distancing_commute m e ed et r rd rt :
  configured_model (and_then (apply_masking m e ed et)
                      (fun m1 => apply_distancing m1 r rd rt))
  = configured_model (and_then (apply_distancing m r rd rt)
                        (fun m1 => apply_masking m1 e ed et)).
Proof. unfold apply_masking, apply_distancing. commute_cases. Qed.

Lemma vaccination_distancing_commute m v vd vdev r rd rt :
  configured_model (and_then (apply_vaccination m v vd vdev)
                      (fun m1 => apply_distancing m1 r rd rt))
  = configured_model (and_then (apply_distancing m r rd rt)
                        (fun m1 => apply_vaccination m1 v vd vdev)).
Proof. unfold apply_vaccination, apply_distancing. commute_cases. Qed.

(** X11 (independent interventions). Configuration calls for two different
    interventions commute: made in either order on the same model, both
    orders raise, or both return the same model. *)
Theorem configuration_calls_commute m q qd qt e ed et v vd vdev r rd rt :
  configured_model (and_then (apply_quarantine m q qd qt)
                      (fun m1 => apply_masking m1 e ed et))
  = configured_model (and_then (apply_masking m e ed et)
                        (fun m1 => apply_quarantine m1 q qd qt)) /\
  configured_model (and_then (apply_quarantine m q qd qt)
                      (fun m1 => apply_vaccination m1 v vd vdev))
  = configured_model (and_then (apply_vaccination m v vd vdev)
                        (fun m1 => apply_quarantine m1 q qd qt)) /\
  configured_model (and_then (apply_quarantine m q qd qt)
                      (fun m1 => apply_distancing m1 r rd rt))
  = configured_model (and_then (apply_distancing m r rd rt)
                        (fun m1 => apply_quarantine m1 q qd qt)) /\
  configured_model (and_then (apply_masking m e ed et)
                      (fun m1 => apply_vaccination m1 v vd vdev))
  = configured_model (and_then (apply_vaccination m v vd vdev)
                        (fun m1 => apply_masking m1 e ed et)) /\
  configured_model (and_then (apply_masking m e ed et)
                      (fun m1 => apply_distancing m1 r rd rt))
  = configured_model (and_then (apply_distancing m r rd rt)
                        (fun m1 => apply_masking m1 e ed et)) /\
  configured_model (and_then (apply_vaccination m v vd vdev)
                      (fun m1 => apply_distancing m1 r rd rt))
  = configured_model (and_then (apply_distancing m r rd rt)
                        (fun m1 => apply_vaccination m1 v vd vdev)).
Proof.
  split; [apply quarantine_masking_commute|].
  split; [apply quarantine_vaccination_commute|].
  split; [apply quarantine_distancing_commute|].
  split; [apply masking_vaccination_commute|].
  split; [apply masking_distancing_commute|].
  apply vaccination_distancing_commute.
Qed.

(** X12 (exclusivity is per call). The check that a day and a threshold are
    not both given looks at the arguments of one call only: a call with a
    day followed by a call with a threshold returns, and leaves both
    triggers of the intervention enabled, which then applies on a day when
    either test holds. *)
Theorem exclusivity_is_per_call m q1 q2 dy th :
  in_unit q1 = true -> in_unit q2 = true -> dy <> 0%Z -> th <> 0%Z ->
  (exists m',
     and_then (apply_quarantine m q1 (Some dy) None)
       (fun m1 => apply_quarantine m1 q2 None (Some th)) = Ok m' /\
     quarantine_prob (quarantine m') = q2 /\
     forall day sts,
       quarantine_active m' day sts
       = Ok (Z.leb dy (Z.of_nat day) || Z.leb th (count_eq INFECTIOUS sts))) /\
  (exists m',
     and_then (apply_masking m q1 (Some dy) None)
       (fun m1 => apply_masking m1 q2 None (Some th)) = Ok m' /\
     mask_effectiveness (masking m') = q2 /\
     forall day sts,
       masking_active m' day sts
       = Ok (Z.leb dy (Z.of_nat day) || Z.leb th (count_eq INFECTIOUS sts))).
Proof.
  intros H1 H2 Hd Ht.
  assert (Td : truthy (Some dy) = true).
  { cbn. apply negb_true_iff. apply Z.eqb_neq. exact Hd. }
  assert (Tt : truthy (Some th) = true).
  { cbn. apply negb_true_iff. apply Z.eqb_neq. exact Ht. }
  split.
  - unfold and_then, apply_quarantine. rewrite H1, H2, Td, Tt.
    cbn [negb truthy andb].
    eexists. split; [reflexivity|]. split; [reflexivity|].
    intros day sts. unfold quarantine_active, triggered. cbn.
    destruct (Z.leb dy (Z.of_nat day)); reflexivity.
  - unfold and_then, apply_masking. rewrite H1, H2, Td, Tt.
    cbn [negb truthy andb].
    eexists. split; [reflexivity|]. split; [reflexivity|].
    intros day sts. unfold masking_active, triggered. cbn.
    destruct (Z.leb dy (Z.of_nat day)); reflexivity.
Qed.

Lemma exclusivity_is_per_call_witness :
  in_unit (1 # 2) = true /\ 3%Z <> 0%Z /\ 4%Z <> 0%Z /\
  is_Ok (and_then (apply_quarantine demo_base (1 # 2) (Some 3%Z) None)
           (fun m1 => apply_quarantine m1 (1 # 2) None (Some 4%Z))) = true.
Proof.
  split; [reflexivity|]. split; [lia|]. split; [lia|].
  destruct (proj1 (exclusivity_is_per_call demo_base (1 # 2) (1 # 2) 3 4
                     eq_refl eq_refl ltac:(lia) ltac:(lia)))
    as (m' & Hm' & _).
  rewrite Hm'. reflexivity.
Defined.

(** * Further properties of the simulation: errors *)

Lemma count_eq_pos_elem v l : (0 < count_eq v l)%Z -> v ∈ l.
Proof.
  induction l as [|x l IH]; cbn [count_eq]; [lia|].
  destruct (Nat.eqb_spec x v) as [->|_]; [left|].
  intros H. right. apply IH. lia.
Qed.

Lemma update_agent_not_susceptible_total g m day self c p i st acc t :
  st <> SUSCEPTIBLE ->
  (exists b, quarantine_active m day (states self) = Ok b) ->
  exists acc' t', update_agent g m day self c p i st acc t = Ok (acc', t').
Proof.
  intros Hst [b Hb]. unfold update_agent, bind, lift, ret, np_rand.
  destruct (Nat.eqb_spec st SUSCEPTIBLE); [contradiction|].
  destruct (Nat.eqb st EXPOSED).
  { destruct (Qlt_bool _ _); eauto. }
  destruct (Nat.eqb st INFECTIOUS); [|eauto].
  destruct (Qlt_bool _ _); [eauto|].
  rewrite Hb. destruct b; [|eauto]. destruct (Qlt_bool _ _); eauto.
Qed.

(** With more contacts asked for than there are agents, the loop raises at
    the first susceptible agent. *)
Lemma agents_loop_oversized g m day self c p sts :
  N m < c ->
  (exists b, quarantine_active m day (states self) = Ok b) ->
  SUSCEPTIBLE ∈ sts ->
  forall i acc t,
    is_ValueError (agents_loop g m day self c p i sts acc t) = true.
Proof.
  intros Hc Hq. induction sts as [|st rest IH]; intros Hin i acc t.
  - inversion Hin.
  - cbn [agents_loop]. unfold bind at 1.
    destruct (Nat.eq_dec st SUSCEPTIBLE) as [->|Hne].
    + unfold update_agent.
      change (Nat.eqb SUSCEPTIBLE SUSCEPTIBLE) with true. cbv iota.
      unfold bind at 1, np_choice. rewrite length_seq.
      destruct (Nat.leb_spec c (N m)); [lia|reflexivity].
    + destruct (update_agent_not_susceptible_total g m day self c p i st acc t
                  Hne Hq) as (acc' & t' & ->).
      apply IH. apply elem_of_cons in Hin. destruct Hin as [E|Hin]; [|exact Hin].
      congruence.
Qed.

(** X13 (oversized contact rate). The constructor accepts a contact rate
    above the population size; the error shows when the model is run. With
    no intervention configured, at least one susceptible agent and at least
    one day, [sim] raises the ValueError of the contact sampling. *)
Theorem oversized_act_rate_raises g m t :
  rng_wf g ->
  quarantine_enabled (quarantine m) = false ->
  vaccination_enabled (vaccination m) = false ->
  distancing_enabled (distancing m) = false ->
  masking_enabled (masking m) = false ->
  N m < act_rate m ->
  init_exposed m + init_infected m < N m ->
  0 < days m ->
  is_ValueError (sim g m t) = true.
Proof.
  intros Hg Hq Hv Hd Hk Hrate Hsus Hdays.
  destruct (days m) as [|n] eqn:En; [lia|].
  unfold sim, bind at 1, sim_upto, bind at 1. rewrite En.
  destruct (sim_init g m t) as [[s0 t0]|e] eqn:H0.
  2:{ unfold sim_init, bind, np_shuffle, ret in H0. discriminate. }
  cbn [seq day_loop]. unfold bind at 1.
  assert (Hin : SUSCEPTIBLE ∈ states s0).
  { apply count_eq_pos_elem.
    pose proof (shuffle_perm g Hg t (initial_block m)) as Hperm.
    unfold sim_init in H0. monad_inv H0. cbn.
    rewrite (count_eq_Permutation _ _ _ Hperm).
    destruct (initial_counts_from (init_exposed m) (init_infected m) (N m) 0)
      as (_ & _ & E3 & _).
    cbv zeta in E3. unfold initial_block. rewrite E3. lia. }
  assert (Hday : is_ValueError (sim_day g m 0 s0 t0) = true).
  { unfold sim_day, bind, lift, ret, current_contacts, current_beta,
      distancing_active, masking_active, vaccination_module.
    rewrite Hd, Hk, Hv.
    pose proof (agents_loop_oversized g m 0 s0 (act_rate m) (beta m) (states s0)
                  Hrate) as Hloop.
    specialize (Hloop ltac:(exists false; unfold quarantine_active;
                            rewrite Hq; reflexivity) Hin 0
                      {| new_states := states s0;
                         new_quarantined := quarantined s0;
                         acc_totals := totals s0 |} t0).
    unfold ret. cbn [snd fst].
    destruct (agents_loop g m 0 s0 (act_rate m) (beta m) 0 (states s0) _ t0)
      as [[? ?]|[]]; try discriminate; reflexivity. }
  destruct (sim_day g m 0 s0 t0) as [[? ?]|[]]; try discriminate; reflexivity.
Qed.

Lemma oversized_act_rate_raises_witness :
  rng_wf rng_demo /\
  N (init 3 1 0 1 (1 # 2) (1 # 2) (1 # 2) 5) < 5 /\
  is_ValueError (sim rng_demo (init 3 1 0 1 (1 # 2) (1 # 2) (1 # 2) 5) 0) = true.
Proof.
  split; [exact rng_demo_wf|]. split; [cbn; lia|].
  apply (oversized_act_rate_raises rng_demo
           (init 3 1 0 1 (1 # 2) (1 # 2) (1 # 2) 5) 0 rng_demo_wf);
    try reflexivity; cbn; lia.
Defined.

(** * Properties of saving a run *)

(** ** What a run leaves for saving *)

(** Along a run the [E] total is the initial exposed count plus the
    exposures, and every recorded infected count is the sum of the exposed
    and infectious counts. *)
Lemma run_saved_columns g m d t s t' :
  rng_wf g ->
  sim_upto g m d t = Ok (s, t') ->
  t_E (totals s) = (Z.of_nat (init_exposed m) + t_infected (totals s))%Z /\
  forall r, r ∈ rows_of (history s) -> r_infected r = (r_E r + r_I r)%Z.
Proof.
  intros Hg. revert d t s t'.
  apply (run_rows_ind g m
           (fun _ s rows =>
              t_E (totals s) = (Z.of_nat (init_exposed m) + t_infected (totals s))%Z /\
              forall r, r ∈ rows -> r_infected r = (r_E r + r_I r)%Z) Hg).
  - intros u s0 u' H0. unfold sim_init in H0. monad_inv H0. cbn.
    split; [lia|].
    intros r Hr. apply list_elem_of_singleton in Hr. subst r. reflexivity.
  - intros d s0 u s1 u' rows I _ (HE & Hrows) Hday.
    destruct (sim_day_inv _ _ _ _ _ _ _ Hday)
      as (c & p & nv & tv & u0 & acc & _ & _ & Hv & Hloop & ->).
    cbn [totals vaccinated states quarantined]. split.
    + destruct (vaccination_module_other_totals _ _ _ _ _ _ _ _ Hv)
        as (_ & E2 & _ & _ & _ & E6).
      assert (Hstep : forall i st a w a' w',
                t_E (acc_totals a)
                = (Z.of_nat (init_exposed m) + t_infected (acc_totals a))%Z ->
                new_states a !! i = Some st ->
                i < length (new_quarantined a) ->
                update_agent g m d s0 c p i st a w = Ok (a', w') ->
                t_E (acc_totals a')
                = (Z.of_nat (init_exposed m) + t_infected (acc_totals a'))%Z).
      { intros i st a w a' w' HP Hst Hi Hu.
        destruct (lookup_lt_is_Some_2 _ _ Hi) as [q Hq].
        destruct (update_agent_step _ _ _ _ _ _ _ _ _ _ _ _ _ Hu Hst Hq)
          as (st' & q' & _ & _ & Hagent).
        destruct Hagent; cbn; lia. }
      apply (agents_loop_keeps g m d s0 c p
               (fun a => t_E (acc_totals a)
                         = (Z.of_nat (init_exposed m) + t_infected (acc_totals a))%Z)
               Hstep _ _ _ _ _ _ Hloop); cbn.
      * intros k st Hk. exact Hk.
      * rewrite (inv_len_quarantined _ _ _ I), (inv_len_states _ _ _ I).
        reflexivity.
      * rewrite E2, E6. exact HE.
    + intros r Hr. apply elem_of_app in Hr. destruct Hr as [Hr|Hr]; [auto|].
      apply list_elem_of_singleton in Hr. subst r. cbn. lia.
Qed.

(** What [run_sim] assigns. *)
Lemma run_sim_Ok g self t self' t' :
  run_sim g self t = Ok (self', t') ->
  exists rows tot,
    sim g (self_model self) t = Ok (rows, tot, t') /\
    self' = {| self_model := self_model self; self_history_df := Some rows;
               self_totals_df := Some [tot] |}.
Proof.
  unfold run_sim. intros H.
  destruct (sim g (self_model self) t) as [[[rows tot] u]|e]; [|discriminate].
  injection H as <- <-. eauto.
Qed.

Lemma sim_rows_not_empty g m t rows tot t' :
  sim g m t = Ok (rows, tot, t') -> rows <> [].
Proof.
  intros H.
  destruct (sim_inv_totals _ _ _ _ _ _ H)
    as (s & _ & _ & _ & _ & _ & _ & _ & _ & _ & H1 & _).
  destruct rows; [discriminate|discriminate].
Qed.

Lemma sim_rows_length g m t rows tot t' :
  rng_wf g -> sim g m t = Ok (rows, tot, t') -> length rows = days m + 1.
Proof.
  intros Hg H. destruct (sim_inv _ _ _ _ _ _ H) as (s & Hs & -> & _ & _).
  pose proof (sim_upto_inv _ _ _ _ _ _ Hg Hs) as I.
  rewrite rows_of_length by apply I. apply I.
Qed.

(** ** Inserting rows *)

Lemma insert_ok t v : table_ok t -> table_ok (fst (insert t v)).
Proof.
  intros (H0 & Hids & Hnd). unfold table_ok, insert. cbn.
  split; [lia|]. split.
  - apply Forall_app. split.
    + eapply Forall_impl; [exact Hids|]. cbn. intros r Hr. lia.
    + constructor; [cbn; lia|constructor].
  - rewrite map_app. cbn. apply NoDup_app. split; [exact Hnd|]. split.
    + intros x Hx Hx'. apply list_elem_of_singleton in Hx'. subst x.
      apply list_elem_of_In, in_map_iff in Hx. destruct Hx as (r & E & Hr).
      rewrite Forall_forall in Hids.
      specialize (Hids r (proj2 (list_elem_of_In _ _) Hr)). lia.
    + apply NoDup_singleton.
Qed.

(** One [execute] returns exactly when the values have 64 bits and the
    table has an id left. *)
Lemma execute_insert_Done t v r :
  execute_insert t v = Done r <->
  forallb fits_int64 v = true /\ (last_id t < int64_max)%Z /\ r = insert t v.
Proof.
  unfold execute_insert.
  destruct (forallb fits_int64 v); cbn [negb].
  - destruct (Z.ltb_spec (last_id t) int64_max) as [Hlt|Hge]; cbn [negb].
    + split.
      * intros E. injection E as <-. auto.
      * intros (_ & _ & ->). reflexivity.
    + split; [discriminate|]. intros (_ & Hl & _). lia.
  - split; [discriminate|]. intros (E & _). discriminate.
Qed.

Lemma execute_insert_Failed t v e :
  execute_insert t v = Failed e -> insert_error e.
Proof.
  unfold execute_insert, insert_error.
  destruct (forallb fits_int64 v); cbn [negb].
  - destruct (Z.ltb (last_id t) int64_max); cbn [negb]; [discriminate|].
    intros H. injection H as <-. right. eauto.
  - intros H. injection H as <-. left. eauto.
Qed.

(** The loop of inserts, when it returns: the rows are appended in order
    under ids above the earlier ones, every value had 64 bits and the table
    had ids for all of them. *)
Lemma insert_rows_Done msg vals : forall o o',
  insert_rows msg o vals = Done o' ->
  map snd (table_rows (tbl o')) = map snd (table_rows (tbl o)) ++ vals /\
  (table_ok (tbl o) -> table_ok (tbl o')) /\
  forallb (forallb fits_int64) vals = true /\
  (vals <> [] -> (last_id (tbl o) + Z.of_nat (length vals) <= int64_max)%Z).
Proof.
  induction vals as [|v vals IH]; intros o o' H; cbn [insert_rows] in H.
  - injection H as <-. rewrite app_nil_r.
    split; [reflexivity|]. split; [auto|]. split; [reflexivity|].
    intros Hn. contradiction.
  - destruct o as [t|]; [|discriminate].
    destruct (execute_insert t v) as [[t1 id]|e] eqn:Hx; [|discriminate].
    apply execute_insert_Done in Hx. destruct Hx as (Hfit & Hroom & Hins).
    injection Hins as -> ->.
    destruct (IH _ _ H) as (Hrows & Hok & Hfits & Hlen).
    cbn [tbl table_rows last_id] in *. split; [|split; [|split]].
    + rewrite Hrows, map_app. cbn. rewrite <- app_assoc. reflexivity.
    + intros Ht. apply Hok. apply (insert_ok t v Ht).
    + cbn [forallb]. rewrite Hfit, Hfits. reflexivity.
    + intros _. cbn [length]. destruct vals as [|v' vals'].
      * cbn [length]. lia.
      * specialize (Hlen ltac:(discriminate)). cbn [length] in *. lia.
Qed.

Lemma insert_rows_Failed msg vals : forall o e,
  insert_rows msg o vals = Failed e -> insert_error e.
Proof.
  induction vals as [|v vals IH]; intros o e H; cbn [insert_rows] in H;
    [discriminate|].
  destruct o as [t|].
  - destruct (execute_insert t v) as [[t1 id]|e1] eqn:Hx.
    + eapply IH; eauto.
    + injection H as <-. eapply execute_insert_Failed; eauto.
  - injection H as <-. right. eauto.
Qed.

(** The loop of inserts into an existing table returns when every value has
    64 bits and the table has ids for all the rows. *)
Lemma insert_rows_fits msg vals : forall t,
  forallb (forallb fits_int64) vals = true ->
  (last_id t + Z.of_nat (length vals) <= int64_max)%Z ->
  exists t', insert_rows msg (Some t) vals = Done (Some t').
Proof.
  induction vals as [|v vals IH]; intros t Hfits Hroom; cbn [insert_rows].
  - eauto.
  - cbn [forallb] in Hfits. apply andb_true_iff in Hfits.
    destruct Hfits as [Hv Hfits]. cbn [length] in Hroom.
    rewrite (proj2 (execute_insert_Done t v (insert t v)))
      by (split; [exact Hv|split; [lia|reflexivity]]).
    cbn [insert]. apply IH; [exact Hfits|]. cbn [last_id]. lia.
Qed.

Lemma frame_fits_map {A} (values : Z -> A -> list sqlval) id (df : list A) :
  forallb (forallb fits_int64) (map (values id) df) = frame_fits values id df.
Proof.
  unfold frame_fits. induction df as [|a df IH]; cbn; [reflexivity|].
  rewrite IH. reflexivity.
Qed.

Lemma filter_keyed_all {A} (f : Z -> A -> list sqlval) id (l : list A) :
  (forall a, keyed id (f id a) = true) ->
  List.filter (keyed id) (map (f id) l) = map (f id) l.
Proof.
  intros Hf. induction l as [|a l IH]; cbn; [reflexivity|].
  rewrite Hf, IH. reflexivity.
Qed.

(** Rows that carry one id are not selected by another. *)
Lemma filter_keyed_other id id' (l : list (list sqlval)) :
  Forall (fun v => head v = Some (SqlInt id)) l -> id <> id' ->
  List.filter (keyed id') l = [].
Proof.
  intros Hl Hne. induction Hl as [|v l Hv _ IH]; [reflexivity|].
  cbn [List.filter]. rewrite IH.
  destruct v as [|[|z|q] v]; try discriminate. cbn in Hv. injection Hv as ->.
  cbn. destruct (Z.eqb_spec id id'); [contradiction|reflexivity].
Qed.

Lemma Forall_keyed_map {A} (f : Z -> A -> list sqlval) id (l : list A) :
  (forall a, head (f id a) = Some (SqlInt id)) ->
  Forall (fun v => head v = Some (SqlInt id)) (map (f id) l).
Proof.
  intros Hf. induction l as [|a l IH]; cbn; constructor; auto.
Qed.

(** No row of a table that refers to [runs] carries an id that [runs] has
    not handed out yet. *)
Lemma select_fresh runs o id :
  table_ok runs -> refers_to runs (tbl o) -> (last_id runs < id)%Z ->
  select_run o id = [].
Proof.
  intros (_ & Hids & _) Href Hid. unfold select_run, refers_to in *.
  induction (map snd (table_rows (tbl o))) as [|v l IH]; [reflexivity|].
  apply Forall_cons in Href. destruct Href as [(i & Hv & Hi) Href].
  cbn [List.filter]. rewrite (IH Href).
  destruct v as [|[|z|q] v]; try discriminate. cbn in Hv. injection Hv as ->.
  apply list_elem_of_In, in_map_iff in Hi. destruct Hi as (r & E & Hr).
  rewrite Forall_forall in Hids.
  specialize (Hids r (proj2 (list_elem_of_In _ _) Hr)).
  cbn. destruct (Z.eqb_spec i id); [lia|reflexivity].
Qed.

Lemma refers_to_grow runs runs' t :
  (forall i, i ∈ map fst (table_rows runs) -> i ∈ map fst (table_rows runs')) ->
  refers_to runs t -> refers_to runs' t.
Proof.
  intros Hsub H. unfold refers_to in *.
  eapply Forall_impl; [exact H|]. cbn. intros v (i & Hv & Hi). eauto.
Qed.

Lemma select_id_fresh t id :
  table_ok t -> (last_id t < id)%Z ->
  List.filter (fun r => Z.eqb (fst r) id) (table_rows t) = [].
Proof.
  intros (_ & Hids & _) Hid.
  induction (table_rows t) as [|r l IH]; [reflexivity|].
  apply Forall_cons in Hids. destruct Hids as [Hr Hids].
  cbn [List.filter]. rewrite (IH Hids).
  destruct (Z.eqb_spec (fst r) id); [lia|reflexivity].
Qed.

Lemma new_file_ok : db_ok new_file.
Proof.
  assert (H : table_ok empty_table).
  { split; [cbn; lia|]. split; [constructor|constructor]. }
  repeat split; try exact H; try constructor; cbn; lia.
Qed.

(** ** What a save writes *)

Lemma written_nothing self db db' :
  tbl (simulation_run db') = tbl (simulation_run db) ->
  tbl (simulation_results db') = tbl (simulation_results db) ->
  tbl (totals_table db') = tbl (totals_table db) ->
  written self db db'.
Proof.
  intros E1 E2 E3. exists [], [], []. rewrite E1, E2, E3, !app_nil_r.
  split; [reflexivity|]. split; [left; reflexivity|]. split; [auto|].
  split; [reflexivity|]. split; [auto|]. split; [reflexivity|].
  split; [auto|]. split; [constructor|].
  intros Hn. exfalso. apply Hn. reflexivity.
Qed.

Lemma save_to_db_written self db : written self db (fst (save_to_db self db)).
Proof.
  unfold save_to_db.
  destruct (self_history_df self) as [rows|];
    [|apply written_nothing; reflexivity].
  destruct (df_empty rows); [apply written_nothing; reflexivity|].
  destruct (self_totals_df self) as [tots|];
    [|apply written_nothing; reflexivity].
  destruct (df_empty tots); [apply written_nothing; reflexivity|].
  unfold insert_simulation_run, create_tables. cbn [simulation_run].
  destruct (execute_insert (tbl (simulation_run db))
              (sim_run_data (self_model self))) as [[tr id]|e] eqn:Hx;
    [|apply written_nothing; reflexivity].
  apply execute_insert_Done in Hx. destruct Hx as (_ & _ & Hins).
  injection Hins as -> ->.
  set (id := (last_id (tbl (simulation_run db)) + 1)%Z).
  assert (Hrun : forall news newt rs ts,
            map snd (table_rows (tbl rs))
            = map snd (table_rows (tbl (simulation_results db))) ++ news ->
            (table_ok (tbl (simulation_results db)) -> table_ok (tbl rs)) ->
            map snd (table_rows (tbl ts))
            = map snd (table_rows (tbl (totals_table db))) ++ newt ->
            (table_ok (tbl (totals_table db)) -> table_ok (tbl ts)) ->
            Forall (fun v => head v = Some (SqlInt id)) (news ++ newt) ->
            written self db
              {| simulation_run :=
                   Some {| last_id := id;
                           table_rows :=
                             table_rows (tbl (simulation_run db))
                             ++ [(id, sim_run_data (self_model self))] |};
                 simulation_results := rs; totals_table := ts |}).
  { intros news newt rs ts H1 H2 H3 H4 H5.
    exists [(id, sim_run_data (self_model self))], news, newt.
    cbn [tbl simulation_run simulation_results totals_table table_rows].
    split; [reflexivity|]. split; [right; reflexivity|].
    split; [apply insert_ok|]. split; [exact H1|]. split; [exact H2|].
    split; [exact H3|]. split; [exact H4|]. split; [exact H5|].
    intros _. discriminate. }
  unfold insert_simulation_results. cbn [simulation_results fst snd].
  destruct (insert_rows "no such table: simulation_results"
              (Some (tbl (simulation_results db)))
              (map (result_values id) rows)) as [rs|e] eqn:Hr.
  2:{ cbn [fst]. apply (Hrun [] []); cbn [tbl]; rewrite ?app_nil_r; auto. }
  destruct (insert_rows_Done _ _ _ _ Hr) as (Hrows & Hrok & _ & _).
  cbn [tbl] in Hrows, Hrok.
  unfold insert_totals. cbn [totals_table simulation_run simulation_results].
  destruct (insert_rows "no such table: totals"
              (Some (tbl (totals_table db)))
              (map (totals_values id) tots)) as [ts|e] eqn:Ht.
  2:{ cbn [fst].
      apply (Hrun (map (result_values id) rows) []); cbn [tbl];
        rewrite ?app_nil_r; auto.
      apply Forall_keyed_map. reflexivity. }
  destruct (insert_rows_Done _ _ _ _ Ht) as (Htots & Htok & _ & _).
  cbn [tbl] in Htots, Htok. cbn [fst].
  apply (Hrun (map (result_values id) rows) (map (totals_values id) tots));
    auto.
  apply Forall_app. split; apply Forall_keyed_map; reflexivity.
Qed.

Lemma can_store_true self db rows tots :
  self_history_df self = Some rows ->
  self_totals_df self = Some tots ->
  let id := (last_id (tbl (simulation_run db)) + 1)%Z in
  can_store self db = true <->
  (forallb fits_int64 (sim_run_data (self_model self)) = true /\
   (last_id (tbl (simulation_run db)) < int64_max)%Z) /\
  (forallb (forallb fits_int64) (map (result_values id) rows) = true /\
   (last_id (tbl (simulation_results db)) + Z.of_nat (length rows)
    <= int64_max)%Z) /\
  (forallb (forallb fits_int64) (map (totals_values id) tots) = true /\
   (last_id (tbl (totals_table db)) + Z.of_nat (length tots)
    <= int64_max)%Z).
Proof.
  intros Hh Ht id. unfold can_store, has_room. rewrite Hh, Ht. fold id.
  rewrite !frame_fits_map, !andb_true_iff, !Z.leb_le.
  change (Z.of_nat 1) with 1%Z. split.
  - intros (((((A & B) & C) & D) & E) & F).
    repeat split; try assumption. lia.
  - intros ((A & B) & (C & D) & (E & F)).
    repeat split; try assumption. lia.
Qed.

Lemma insert_rows_Some msg vals : forall t o,
  insert_rows msg (Some t) vals = Done o -> exists t', o = Some t'.
Proof.
  induction vals as [|v vals IH]; intros t o H; cbn [insert_rows] in H.
  - injection H as <-. eauto.
  - destruct (execute_insert t v) as [[t1 ?]|]; [|discriminate]. eauto.
Qed.

(** When a save returns it has stored everything: the row of the run under
    the next id, and the rows of the two frames under that id. It returns
    exactly when the file can take the data. *)
Lemma save_to_db_stores self db rows tots :
  self_history_df self = Some rows -> rows <> [] ->
  self_totals_df self = Some tots -> tots <> [] ->
  let id := (last_id (tbl (simulation_run db)) + 1)%Z in
  (snd (save_to_db self db) = None <-> can_store self db = true) /\
  (forall e, snd (save_to_db self db) = Some e -> insert_error e) /\
  (can_store self db = true ->
   exists tr ts tt,
     save_to_db self db
     = ({| simulation_run := Some tr; simulation_results := Some ts;
           totals_table := Some tt |}, None) /\
     tr = fst (insert (tbl (simulation_run db)) (sim_run_data (self_model self))) /\
     map snd (table_rows ts)
     = map snd (table_rows (tbl (simulation_results db)))
       ++ map (result_values id) rows /\
     map snd (table_rows tt)
     = map snd (table_rows (tbl (totals_table db)))
       ++ map (totals_values id) tots).
Proof.
  intros Hh Hne Ht Hne' id.
  pose proof (can_store_true self db rows tots Hh Ht) as Hcan.
  cbv zeta in Hcan. fold id in Hcan.
  unfold save_to_db. rewrite Hh, Ht.
  destruct (df_empty rows) eqn:Er; [destruct rows; [contradiction|discriminate]|].
  destruct (df_empty tots) eqn:Et; [destruct tots; [contradiction|discriminate]|].
  unfold insert_simulation_run, create_tables. cbn [simulation_run].
  destruct (execute_insert (tbl (simulation_run db))
              (sim_run_data (self_model self))) as [[tr i]|e] eqn:Hx.
  2:{ cbn [snd].
      assert (Hno : can_store self db = true -> False).
      { intros Hc. apply Hcan in Hc. destruct Hc as ((A & B) & _).
        rewrite (proj2 (execute_insert_Done _ _
                          (insert (tbl (simulation_run db))
                             (sim_run_data (self_model self))))) in Hx;
          [discriminate|].
        split; [exact A|]. split; [exact B|reflexivity]. }
      split; [split; [discriminate|intros Hc; destruct (Hno Hc)]|].
      split; [|intros Hc; destruct (Hno Hc)].
      intros e' He. injection He as <-. eapply execute_insert_Failed; eauto. }
  apply execute_insert_Done in Hx. destruct Hx as (Hfit & Hroom & Hins).
  injection Hins as -> ->. fold id.
  unfold insert_simulation_results. cbn [simulation_results].
  destruct (insert_rows "no such table: simulation_results"
              (Some (tbl (simulation_results db)))
              (map (result_values id) rows)) as [rs|e] eqn:Hr.
  2:{ cbn [snd].
      assert (Hno : can_store self db = true -> False).
      { intros Hc. apply Hcan in Hc. destruct Hc as (_ & (A & B) & _).
        destruct (insert_rows_fits "no such table: simulation_results"
                    (map (result_values id) rows) (tbl (simulation_results db)))
          as (t' & Ht'); [exact A|rewrite length_map; exact B|congruence]. }
      split; [split; [discriminate|intros Hc; destruct (Hno Hc)]|].
      split; [|intros Hc; destruct (Hno Hc)].
      intros e' He. injection He as <-. eapply insert_rows_Failed; eauto. }
  destruct (insert_rows_Some _ _ _ _ Hr) as (ts' & ->).
  destruct (insert_rows_Done _ _ _ _ Hr) as (Hrows & _ & Hrfit & Hrroom).
  cbn [tbl] in Hrows, Hrroom.
  assert (Hr0 : map (result_values id) rows <> []).
  { destruct rows; [contradiction|discriminate]. }
  specialize (Hrroom Hr0). rewrite length_map in Hrroom.
  unfold insert_totals. cbn [totals_table simulation_run simulation_results].
  destruct (insert_rows "no such table: totals"
              (Some (tbl (totals_table db)))
              (map (totals_values id) tots)) as [ts|e] eqn:Htt.
  2:{ cbn [snd].
      assert (Hno : can_store self db = true -> False).
      { intros Hc. apply Hcan in Hc. destruct Hc as (_ & _ & (A & B)).
        destruct (insert_rows_fits "no such table: totals"
                    (map (totals_values id) tots) (tbl (totals_table db)))
          as (t' & Ht'); [exact A|rewrite length_map; exact B|congruence]. }
      split; [split; [discriminate|intros Hc; destruct (Hno Hc)]|].
      split; [|intros Hc; destruct (Hno Hc)].
      intros e' He. injection He as <-. eapply insert_rows_Failed; eauto. }
  destruct (insert_rows_Some _ _ _ _ Htt) as (tt' & ->).
  destruct (insert_rows_Done _ _ _ _ Htt) as (Htots & _ & Htfit & Htroom).
  cbn [tbl] in Htots, Htroom.
  assert (Ht0 : map (totals_values id) tots <> []).
  { destruct tots; [contradiction|discriminate]. }
  specialize (Htroom Ht0). rewrite length_map in Htroom.
  cbn [snd]. split; [|split; [discriminate|]].
  - split; [|reflexivity]. intros _. apply Hcan.
    split; [split; assumption|]. split; split; assumption.
  - intros _. eexists _, ts', tt'.
    split; [reflexivity|]. split; [reflexivity|]. split; assumption.
Qed.

Lemma reachable_frames self :
  reachable self ->
  (self_history_df self = None /\ self_totals_df self = None) \/
  (exists rows tot,
     self_history_df self = Some rows /\ rows <> [] /\
     self_totals_df self = Some [tot]).
Proof.
  induction 1 as [m|self m _ IH|g self t self' t' _ _ Hrun].
  - left. split; reflexivity.
  - exact IH.
  - right. destruct (run_sim_Ok _ _ _ _ _ Hrun) as (rows & tot & Hsim & ->).
    exists rows, tot. split; [reflexivity|]. split; [|reflexivity].
    eapply sim_rows_not_empty; eauto.
Qed.

(** X14 (saving needs a run). On an instance that has been constructed,
    configured and run in any order, [save_to_db] never raises its
    ValueError. Before the first completed run it raises the AttributeError
    of the missing [history_df] and leaves the file as it was. After one it
    raises nothing exactly when the file can take the data: every integer
    to store has 64 bits and the tables have ids left; otherwise it raises
    the OverflowError or the OperationalError of the [INSERT] that failed. *)
Theorem save_raises_no_value_error self db :
  reachable self ->
  match self_history_df self with
  | None => save_to_db self db = (db, Some (AttributeError "history_df"))
  | Some _ =>
      (snd (save_to_db self db) = None <-> can_store self db = true) /\
      forall e, snd (save_to_db self db) = Some e ->
        (exists msg, e = OverflowError msg) \/
        (exists msg, e = OperationalError msg)
  end.
Proof.
  intros H. destruct (reachable_frames self H)
    as [[Hh _]|(rows & tot & Hh & Hne & Ht)].
  - rewrite Hh. unfold save_to_db. rewrite Hh. reflexivity.
  - rewrite Hh.
    destruct (save_to_db_stores self db rows [tot] Hh Hne Ht ltac:(discriminate))
      as (A & B & _).
    split; [exact A|exact B].
Qed.

Lemma demo_instance_reachable : reachable demo_instance.
Proof.
  apply (reach_run rng_demo (new_instance demo) 0 demo_instance 25).
  - apply reach_new.
  - vm_compute. reflexivity.
Qed.

Lemma save_raises_no_value_error_witness :
  reachable demo_instance /\
  can_store demo_instance new_file = true /\
  snd (save_to_db demo_instance new_file) = None.
Proof.
  split; [exact demo_instance_reachable|]. split; [vm_compute; reflexivity|].
  apply (proj1 (save_raises_no_value_error demo_instance new_file
                  demo_instance_reachable)).
  vm_compute. reflexivity.
Defined.

Lemma row_of_result_values id r :
  r_infected r = (r_E r + r_I r)%Z -> row_of_values (result_values id r) = Some r.
Proof.
  intros H. destruct r. cbn in *. subst. reflexivity.
Qed.

(** X15 (a saved history reads back). After a run, saving into a file
    written by this code that can take the data raises nothing and stores
    the run under the id after the last one of [simulation_run]. The row of
    that id holds the parameters of the model, and the rows of
    [simulation_results] with that id are the rows of [history_df], one per
    day from 0 to [days], in order; the column [infected], which is not
    stored, is the sum of two that are. *)
Theorem saved_history_reads_back g self t self' t' db :
  rng_wf g ->
  db_ok db ->
  run_sim g self t = Ok (self', t') ->
  can_store self' db = true ->
  let id := (last_id (tbl (simulation_run db)) + 1)%Z in
  let db' := fst (save_to_db self' db) in
  snd (save_to_db self' db) = None /\
  exists rows,
    self_history_df self' = Some rows /\
    map row_of_values (select_run (simulation_results db') id) = map Some rows /\
    length (select_run (simulation_results db') id) = days (self_model self) + 1 /\
    select_id (simulation_run db') id = [sim_run_data (self_model self)].
Proof.
  intros Hg Hok Hrun Hcan id db'.
  destruct (run_sim_Ok _ _ _ _ _ Hrun) as (rows & tot & Hsim & ->).
  pose proof (sim_rows_not_empty _ _ _ _ _ _ Hsim) as Hne.
  destruct (save_to_db_stores
              {| self_model := self_model self; self_history_df := Some rows;
                 self_totals_df := Some [tot] |} db rows [tot]
              eq_refl Hne eq_refl ltac:(discriminate))
    as (_ & _ & Hst).
  destruct (Hst Hcan) as (tr & ts & tt & Hsave & -> & Hs & _).
  subst db'. rewrite Hsave. cbn [fst snd simulation_results simulation_run].
  split; [reflexivity|]. exists rows. split; [reflexivity|].
  destruct Hok as (O1 & _ & _ & R1 & _).
  assert (Hsel : select_run (Some ts) id = map (result_values id) rows).
  { unfold select_run. cbn [tbl]. rewrite Hs, List.filter_app.
    fold (select_run (simulation_results db) id).
    rewrite (select_fresh _ _ _ O1 R1) by (unfold id; lia).
    cbn [app]. apply filter_keyed_all. intros a. cbn. apply Z.eqb_refl. }
  rewrite Hsel. split; [|split].
  - rewrite map_map. apply map_ext_in. intros r Hr.
    apply row_of_result_values.
    destruct (sim_inv _ _ _ _ _ _ Hsim) as (s & Hs' & E & _).
    destruct (run_saved_columns _ _ _ _ _ _ Hg Hs') as [_ Hcol].
    apply Hcol. rewrite <- E. apply list_elem_of_In. exact Hr.
  - rewrite length_map. eapply sim_rows_length; eauto.
  - unfold select_id. cbn [tbl insert fst table_rows].
    rewrite List.filter_app, (select_id_fresh _ _ O1) by (unfold id; lia).
    cbn. fold id. rewrite Z.eqb_refl. reflexivity.
Qed.

Lemma saved_history_reads_back_witness :
  rng_wf rng_demo /\ db_ok new_file /\
  run_sim rng_demo (new_instance demo) 0 = Ok (demo_instance, 25) /\
  can_store demo_instance new_file = true /\
  map row_of_values (select_run (simulation_results demo_db) 1) = map Some demo_rows.
Proof.
  split; [exact rng_demo_wf|]. split; [exact new_file_ok|].
  split; [vm_compute; reflexivity|]. split; [vm_compute; reflexivity|].
  destruct (saved_history_reads_back rng_demo (new_instance demo) 0
              demo_instance 25 new_file rng_demo_wf new_file_ok
              ltac:(vm_compute; reflexivity) ltac:(vm_compute; reflexivity))
    as (_ & rows & Hrows & Hread & _).
  injection Hrows as <-. exact Hread.
Defined.

(** X16 (saved totals read back). After a run, a save into a file written
    by this code that can take the data adds one row to [totals]. It holds
    the totals of the run, the [I] total in the column [total_infected];
    the key [infected], which is not stored, is the stored [total_exposed]
    minus the [init_exposed] of the run. *)
Theorem saved_totals_read_back g self t self' t' db :
  rng_wf g ->
  db_ok db ->
  run_sim g self t = Ok (self', t') ->
  can_store self' db = true ->
  let id := (last_id (tbl (simulation_run db)) + 1)%Z in
  let db' := fst (save_to_db self' db) in
  snd (save_to_db self' db) = None /\
  exists tot,
    self_totals_df self' = Some [tot] /\
    map (totals_of_values (Z.of_nat (init_exposed (self_model self))))
      (select_run (totals_table db') id)
    = [Some tot].
Proof.
  intros Hg Hok Hrun Hcan id db'.
  destruct (run_sim_Ok _ _ _ _ _ Hrun) as (rows & tot & Hsim & ->).
  pose proof (sim_rows_not_empty _ _ _ _ _ _ Hsim) as Hne.
  destruct (save_to_db_stores
              {| self_model := self_model self; self_history_df := Some rows;
                 self_totals_df := Some [tot] |} db rows [tot]
              eq_refl Hne eq_refl ltac:(discriminate))
    as (_ & _ & Hst).
  destruct (Hst Hcan) as (tr & ts & tt & Hsave & -> & _ & Htt).
  subst db'. rewrite Hsave. cbn [fst snd totals_table].
  split; [reflexivity|]. exists tot. split; [reflexivity|].
  destruct Hok as (O1 & _ & _ & _ & R2).
  unfold select_run. cbn [tbl]. rewrite Htt, List.filter_app.
  fold (select_run (totals_table db) id).
  rewrite (select_fresh _ _ _ O1 R2) by (unfold id; lia).
  cbn [app map List.filter keyed totals_values]. rewrite Z.eqb_refl.
  cbn [map totals_of_values]. do 2 f_equal.
  destruct (sim_inv_totals _ _ _ _ _ _ Hsim)
    as (s & Hs & _ & _ & EE & _ & _ & _ & _ & Einf & _).
  destruct (run_saved_columns _ _ _ _ _ _ Hg Hs) as [HE _].
  destruct tot. cbn in *. do 2 f_equal. lia.
Qed.

Lemma saved_totals_read_back_witness :
  rng_wf rng_demo /\ db_ok new_file /\
  run_sim rng_demo (new_instance demo) 0 = Ok (demo_instance, 25) /\
  can_store demo_instance new_file = true /\
  map (totals_of_values (Z.of_nat (init_exposed demo)))
    (select_run (totals_table demo_db) 1)
  = [Some demo_totals].
Proof.
  split; [exact rng_demo_wf|]. split; [exact new_file_ok|].
  split; [vm_compute; reflexivity|]. split; [vm_compute; reflexivity|].
  destruct (saved_totals_read_back rng_demo (new_instance demo) 0
              demo_instance 25 new_file rng_demo_wf new_file_ok
              ltac:(vm_compute; reflexivity) ltac:(vm_compute; reflexivity))
    as (_ & tot & Htot & Hread).
  injection Htot as <-. exact Hread.
Defined.

(** X17 (a save keeps the earlier runs). Whatever the instance and whether
    or not the save raises, a file written by this code stays one: ids stay
    distinct and every row of [simulation_results] and [totals] carries the
    id of a row of [simulation_run]. Every id handed out before selects the
    same rows of the three tables after the save as before it. *)
Theorem save_keeps_earlier_runs self db :
  db_ok db ->
  let db' := fst (save_to_db self db) in
  db_ok db' /\
  forall id, (id <= last_id (tbl (simulation_run db)))%Z ->
    select_id (simulation_run db') id = select_id (simulation_run db) id /\
    select_run (simulation_results db') id
    = select_run (simulation_results db) id /\
    select_run (totals_table db') id = select_run (totals_table db) id.
Proof.
  intros (O1 & O2 & O3 & R1 & R2) db'.
  destruct (save_to_db_written self db)
    as (rn & news & newt & Hrun & Hrn & Hok1 & Hres & Hok2 & Htot & Hok3
        & Hkey & Hany).
  fold db' in Hrun, Hok1, Hres, Hok2, Htot, Hok3.
  set (id0 := (last_id (tbl (simulation_run db)) + 1)%Z) in *.
  apply Forall_app in Hkey. destruct Hkey as [Hkn Hkt].
  assert (Hold : forall i, i ∈ map fst (table_rows (tbl (simulation_run db))) ->
            i ∈ map fst (table_rows (tbl (simulation_run db')))).
  { intros i Hi. rewrite Hrun, map_app. apply elem_of_app. left. exact Hi. }
  assert (Hnew : news ++ newt <> [] ->
            id0 ∈ map fst (table_rows (tbl (simulation_run db')))).
  { intros Hn. destruct Hrn as [->| ->]; [destruct (Hany Hn eq_refl)|].
    rewrite Hrun, map_app. apply elem_of_app. right. cbn. left. }
  split.
  - split; [auto|]. split; [auto|]. split; [auto|]. split.
    + unfold refers_to. rewrite Hres. apply Forall_app. split.
      * apply (refers_to_grow _ _ _ Hold R1).
      * apply Forall_forall. intros v Hv. exists id0. split.
        -- rewrite Forall_forall in Hkn. apply Hkn. exact Hv.
        -- apply Hnew. intros E. apply app_eq_nil in E. destruct E as [E _].
           subst news. inversion Hv.
    + unfold refers_to. rewrite Htot. apply Forall_app. split.
      * apply (refers_to_grow _ _ _ Hold R2).
      * apply Forall_forall. intros v Hv. exists id0. split.
        -- rewrite Forall_forall in Hkt. apply Hkt. exact Hv.
        -- apply Hnew. intros E. apply app_eq_nil in E. destruct E as [_ E].
           subst newt. inversion Hv.
  - intros id Hid. split; [|split].
    + unfold select_id. rewrite Hrun, List.filter_app.
      destruct Hrn as [->| ->]; [rewrite app_nil_r; reflexivity|].
      cbn [List.filter fst].
      destruct (Z.eqb_spec id0 id); [unfold id0 in *; lia|].
      rewrite app_nil_r. reflexivity.
    + unfold select_run. rewrite Hres, List.filter_app.
      rewrite (filter_keyed_other id0 id news Hkn) by (unfold id0; lia).
      rewrite app_nil_r. reflexivity.
    + unfold select_run. rewrite Htot, List.filter_app.
      rewrite (filter_keyed_other id0 id newt Hkt) by (unfold id0; lia).
      rewrite app_nil_r. reflexivity.
Qed.

Lemma save_keeps_earlier_runs_witness :
  db_ok new_file /\ db_ok demo_db /\ db_ok (fst (save_to_db demo_instance demo_db)).
Proof.
  split; [exact new_file_ok|].
  pose proof (proj1 (save_keeps_earlier_runs demo_instance new_file new_file_ok))
    as H1.
  split; [exact H1|].
  exact (proj1 (save_keeps_earlier_runs demo_instance demo_db H1)).
Defined.

(** ** The row of a run *)

Lemma sql_bool_inj b1 b2 : sql_bool b1 = sql_bool b2 -> b1 = b2.
Proof. destruct b1, b2; unfold sql_bool; intros H; try reflexivity; discriminate. Qed.

Lemma bit_inj (b1 b2 : bool) :
  (if b1 then 1 else 0)%Z = (if b2 then 1 else 0)%Z -> b1 = b2.
Proof. destruct b1, b2; intros H; try reflexivity; discriminate. Qed.

Lemma sql_nat_inj n1 n2 : sql_nat n1 = sql_nat n2 -> n1 = n2.
Proof. unfold sql_nat. intros H. injection H as H. lia. Qed.

Lemma sql_opt_inj o1 o2 : sql_opt o1 = sql_opt o2 -> o1 = o2.
Proof. destruct o1, o2; unfold sql_opt; congruence. Qed.

Lemma sql_opt_nat_inj o1 o2 : sql_opt_nat o1 = sql_opt_nat o2 -> o1 = o2.
Proof.
  destruct o1, o2; unfold sql_opt_nat, sql_nat; try congruence.
  intros H. injection H as H. f_equal. lia.
Qed.

Lemma SqlReal_inj q1 q2 : SqlReal q1 = SqlReal q2 -> q1 = q2.
Proof. congruence. Qed.

(** X18 (what the row of a run records). The thirty values that
    [save_to_db] stores for a run determine every parameter and every
    intervention attribute of the model except
    [distancing_enabled_threshold]: two models are stored as the same row
    exactly when they differ in nothing but that flag. *)
Theorem run_row_records_all_but_one_flag m1 m2 :
  sim_run_data m1 = sim_run_data m2
  <-> forget_distancing_threshold m1 = forget_distancing_threshold m2.
Proof.
  destruct m1 as [n1 ii1 ie1 d1 b1 s1 g1 a1 [] [] [] []],
           m2 as [n2 ii2 ie2 d2 b2 s2 g2 a2 [] [] [] []].
  unfold sim_run_data, forget_distancing_threshold, set_distancing. cbn.
  split; intros H.
  - injection H. intros.
    repeat match goal with
           | E : sql_bool _ = sql_bool _ |- _ => apply sql_bool_inj in E
           | E : sql_nat _ = sql_nat _ |- _ => apply sql_nat_inj in E
           | E : sql_opt _ = sql_opt _ |- _ => apply sql_opt_inj in E
           | E : sql_opt_nat _ = sql_opt_nat _ |- _ => apply sql_opt_nat_inj in E
           | E : Z.of_nat _ = Z.of_nat _ |- _ => apply Nat2Z.inj in E
           | E : (if _ then _ else _) = (if _ then _ else _) |- _ =>
               apply bit_inj in E
           end.
    subst. reflexivity.
  - injection H. intros. subst. reflexivity.
Qed.

Lemma run_row_records_all_but_one_flag_witness :
  distancing_enabled_threshold (distancing threshold_distancing_model) = true /\
  distancing_enabled_threshold
    (distancing (forget_distancing_threshold threshold_distancing_model)) = false /\
  sim_run_data (forget_distancing_threshold threshold_distancing_model)
  = sim_run_data threshold_distancing_model.
Proof.
  split; [reflexivity|]. split; [reflexivity|].
  apply (proj2 (run_row_records_all_but_one_flag
                  (forget_distancing_threshold threshold_distancing_model)
                  threshold_distancing_model)).
  reflexivity.
Defined.
